(** * VibePruner: the transactional file-operation core

    A shallow embedding of [migration_tracker.py], [rollback_manager.py],
    [session_manager.py] and [audit_logger.py].

    Python objects are modelled as the code uses them: the fixed-key dicts
    (migration records, transactions, sessions) are records, the record
    dicts that are shared between [self.migrations] and
    [self.current_transaction['operations']] live in an object store and
    are referred to by location, the filesystem is a finite map from
    paths to nodes, and every method is a computation in a state-and-
    exception monad.  Calls to [logger] are not modelled. *)

From stdpp Require Import gmap strings list fin_maps pretty.
From Stdlib Require Import ZArith.

Set Default Proof Using "Type".
Set Warnings "-register-all".

(** ** Python exceptions

    [Deadlock] is not an exception: it stands for a thread that blocks
    forever on a lock it already holds.  It arises in audit_logger.py
    only, where no [try] encloses a call that can block. *)

Inductive exn :=
| FileNotFoundError (msg : string)
| FileExistsError (msg : string)
| IsADirectoryError (msg : string)
| NotADirectoryError (msg : string)
| PermissionError (msg : string)
| ShutilError (msg : string)
| JSONDecodeError (msg : string)
| KeyError (key : string)
| ValueError (msg : string)
| TypeError (msg : string)
| RuntimeError (msg : string)
| Deadlock.

#[global] Instance exn_eq_dec : EqDecision exn.
Proof. solve_decision. Defined.

(** [str(e)] *)
Definition str_exn (e : exn) : string :=
  match e with
  | FileNotFoundError m | FileExistsError m | IsADirectoryError m
  | NotADirectoryError m | PermissionError m | ShutilError m
  | JSONDecodeError m | ValueError m | TypeError m | RuntimeError m => m
  | KeyError k => "'" +:+ k +:+ "'"
  | Deadlock => ""
  end.

(** ** State and exceptions *)

Inductive outcome (A : Type) :=
| Return (a : A)
| Raise (e : exn).
Arguments Return {A} a.
Arguments Raise {A} e.

Definition M (S A : Type) : Type := S → outcome A * S.

Definition ret {S A} (a : A) : M S A := λ s, (Return a, s).

Definition bind {S A B} (m : M S A) (k : A → M S B) : M S B :=
  λ s, match m s with
       | (Return a, s') => k a s'
       | (Raise e, s') => (Raise e, s')
       end.

Definition raise {S A} (e : exn) : M S A := λ s, (Raise e, s).

(** [try: m  except Exception as e: h e] *)
Definition try_except {S A} (m : M S A) (h : exn → M S A) : M S A :=
  λ s, match m s with
       | (Raise e, s') => h e s'
       | r => r
       end.

Definition gets {S A} (f : S → A) : M S A := λ s, (Return (f s), s).
Definition modify {S} (f : S → S) : M S unit := λ s, (Return tt, f s).

(** Run a computation on a component of a larger state. *)
Definition zoom {S T A} (proj : T → S) (upd : S → T → T) (m : M S A) : M T A :=
  λ t, let '(r, s') := m (proj t) in (r, upd s' t).

Declare Scope py_scope.
Delimit Scope py_scope with py.
Notation "x <- m ;; k" := (bind m (λ x, k))
  (at level 100, m at next level, right associativity) : py_scope.
Notation "m ;;; k" := (bind m (λ _, k))
  (at level 100, right associativity) : py_scope.
Open Scope py_scope.

(** [for x in xs: body x] *)
Fixpoint for_each {S A} (xs : list A) (body : A → M S unit) : M S unit :=
  match xs with
  | [] => ret tt
  | x :: xs' => body x ;;; for_each xs' body
  end.

Definition value {A} (r : outcome A) : option A :=
  match r with Return a => Some a | Raise _ => None end.

Definition raised {A} (r : outcome A) : option exn :=
  match r with Return _ => None | Raise e => Some e end.

(** Truth value of an [Optional[str]]: [None] and [''] are false. *)
Definition truthy (o : option string) : bool :=
  match o with
  | Some s => negb (bool_decide (s = ""))
  | None => false
  end.

(** ** Paths *)

(** A path is the list of its components below the root; [str(path)]
    joins them. *)
Abbreviation path := (list string).

Fixpoint join_path (p : path) : string :=
  match p with
  | [] => ""
  | c :: p' => "/" +:+ c +:+ join_path p'
  end.

Definition str_path (p : path) : string :=
  match p with
  | [] => "/"
  | _ => join_path p
  end.

(** [path.parent] *)
Definition parent (p : path) : path := take (pred (length p)) p.

(** [path / name] *)
Definition child (p : path) (name : string) : path := p ++ [name].

(** [path.name] *)
Definition basename (p : path) : string := default "" (last p).

(** ** Data model

    The dict keys of the source are the field names.  Fields that a dict
    acquires only later ([completed_at], [error], [dest_hash], ...) are
    options that start as [None]. *)

(** [operation], a [str] in the source. *)
Inductive op_kind :=
| Op_move | Op_copy | Op_archive | Op_delete | Op_consolidate
| Op_rollback_move | Op_rollback_restore
| Op_other (name : string).

#[global] Instance op_kind_eq_dec : EqDecision op_kind.
Proof. solve_decision. Defined.

(** [status] of a migration record. *)
Inductive rec_status := St_pending | St_success | St_failed | St_rolled_back.

#[global] Instance rec_status_eq_dec : EqDecision rec_status.
Proof. solve_decision. Defined.

(** [status] of a transaction. *)
Inductive txn_status :=
| Tx_in_progress | Tx_committed | Tx_partial_failure | Tx_rolled_back.

#[global] Instance txn_status_eq_dec : EqDecision txn_status.
Proof. solve_decision. Defined.

(** Locations of record dicts in the object store. *)
Abbreviation loc := nat.

(** One entry of [metadata['original_files']] of a consolidation. *)
Record original_file := OriginalFile {
  of_path : option path;          (* original['path'], KeyError if absent *)
  of_content : option string      (* original.get('content') *)
}.

#[global] Instance original_file_eq_dec : EqDecision original_file.
Proof. solve_decision. Defined.

(** The [metadata] dict of a record: the two keys the core reads or
    writes.  [original_migration] holds the dict of the migration a
    rollback undoes; its nested copy is kept as the location of that
    dict. *)
Record metadata := Metadata {
  original_files : list original_file;
  original_migration : option loc
}.

#[global] Instance metadata_eq_dec : EqDecision metadata.
Proof. solve_decision. Defined.

Definition no_metadata : metadata := Metadata [] None.

Module Rec.
Record t := Mk {
  timestamp : string;
  transaction_id : option string;
  operation : op_kind;
  source_path : path;
  dest_path : option path;
  source_hash : option string;
  file_size : N;
  file_modified : option string;
  file_permissions : option N;
  reason : string;
  meta : metadata;
  status : rec_status;
  completed_at : option string;
  error : option string;
  dest_hash : option string;
  rollback_time : option string;
  rollback_error : option string;
  archive_path : option path
}.

#[global] Instance rec_eq_dec : EqDecision t.
Proof. solve_decision. Defined.

(** [record[key] = v] for the keys the code assigns after creation. *)
Definition set_status (v : rec_status) (r : t) : t :=
  Mk (timestamp r) (transaction_id r) (operation r) (source_path r)
     (dest_path r) (source_hash r) (file_size r) (file_modified r)
     (file_permissions r) (reason r) (meta r) v (completed_at r)
     (error r) (dest_hash r) (rollback_time r) (rollback_error r)
     (archive_path r).

Definition set_completed_at (v : string) (r : t) : t :=
  Mk (timestamp r) (transaction_id r) (operation r) (source_path r)
     (dest_path r) (source_hash r) (file_size r) (file_modified r)
     (file_permissions r) (reason r) (meta r) (status r) (Some v)
     (error r) (dest_hash r) (rollback_time r) (rollback_error r)
     (archive_path r).

Definition set_error (v : string) (r : t) : t :=
  Mk (timestamp r) (transaction_id r) (operation r) (source_path r)
     (dest_path r) (source_hash r) (file_size r) (file_modified r)
     (file_permissions r) (reason r) (meta r) (status r) (completed_at r)
     (Some v) (dest_hash r) (rollback_time r) (rollback_error r)
     (archive_path r).

Definition set_dest_hash (v : string) (r : t) : t :=
  Mk (timestamp r) (transaction_id r) (operation r) (source_path r)
     (dest_path r) (source_hash r) (file_size r) (file_modified r)
     (file_permissions r) (reason r) (meta r) (status r) (completed_at r)
     (error r) (Some v) (rollback_time r) (rollback_error r)
     (archive_path r).

Definition set_rollback_time (v : string) (r : t) : t :=
  Mk (timestamp r) (transaction_id r) (operation r) (source_path r)
     (dest_path r) (source_hash r) (file_size r) (file_modified r)
     (file_permissions r) (reason r) (meta r) (status r) (completed_at r)
     (error r) (dest_hash r) (Some v) (rollback_error r)
     (archive_path r).

Definition set_rollback_error (v : string) (r : t) : t :=
  Mk (timestamp r) (transaction_id r) (operation r) (source_path r)
     (dest_path r) (source_hash r) (file_size r) (file_modified r)
     (file_permissions r) (reason r) (meta r) (status r) (completed_at r)
     (error r) (dest_hash r) (rollback_time r) (Some v)
     (archive_path r).
End Rec.

(** A transaction dict.  In memory its [operations] are the record dicts
    themselves ([R := loc]); in a JSON file they are copies
    ([R := Rec.t]). *)
Module Txn.
Record t (R : Type) := Mk {
  id : string;
  description : string;
  start_time : string;
  operations : list R;
  status : txn_status;
  end_time : option string;
  failed_operations : option nat;
  rollback_time : option string
}.
Arguments Mk {R}.
Arguments id {R}.
Arguments description {R}.
Arguments start_time {R}.
Arguments operations {R}.
Arguments status {R}.
Arguments end_time {R}.
Arguments failed_operations {R}.
Arguments rollback_time {R}.

#[global] Instance txn_eq_dec `{EqDecision R} : EqDecision (t R).
Proof. solve_decision. Defined.

Definition set_operations {R R'} (v : list R') (x : t R) : t R' :=
  Mk (id x) (description x) (start_time x) v (status x) (end_time x)
     (failed_operations x) (rollback_time x).

Definition set_status {R} (v : txn_status) (x : t R) : t R :=
  Mk (id x) (description x) (start_time x) (operations x) v (end_time x)
     (failed_operations x) (rollback_time x).

Definition set_end_time {R} (v : string) (x : t R) : t R :=
  Mk (id x) (description x) (start_time x) (operations x) (status x)
     (Some v) (failed_operations x) (rollback_time x).

Definition set_failed_operations {R} (v : nat) (x : t R) : t R :=
  Mk (id x) (description x) (start_time x) (operations x) (status x)
     (end_time x) (Some v) (rollback_time x).

Definition set_rollback_time {R} (v : string) (x : t R) : t R :=
  Mk (id x) (description x) (start_time x) (operations x) (status x)
     (end_time x) (failed_operations x) (Some v).
End Txn.

(** A rollback point file. *)
Module Point.
Record t := Mk {
  id : string;
  description : string;
  created_at : string;
  project_state : string;         (* timestamp of the empty state capture *)
  status : string
}.

#[global] Instance point_eq_dec : EqDecision t.
Proof. solve_decision. Defined.
End Point.

(** An entry of [rollback_history]. *)
Module Attempt.
Record t := Mk {
  rollback_id : string;
  timestamp : string;
  success : bool;
  errors : list string;
  migrations_reversed : nat
}.

#[global] Instance attempt_eq_dec : EqDecision t.
Proof. solve_decision. Defined.
End Attempt.

(** A session dict and the lock file next to it. *)
Module Session.
Record checkpoint := Checkpoint {
  cp_name : string;
  cp_timestamp : string;
  cp_data : string
}.

Record stats := Stats {
  files_analyzed : N;
  files_processed : N;
  tests_run : N;
  operations_completed : N
}.

Record t := Mk {
  id : string;
  project_path : string;
  started_at : string;
  status : string;
  phase : string;
  checkpoints : list checkpoint;
  completed_operations : list string;
  pending_operations : list string;
  errors : list string;
  counters : stats;
  resumed_at : option string;
  ended_at : option string
}.

Definition set_resumed_at (v : string) (s : t) : t :=
  Mk (id s) (project_path s) (started_at s) (status s) (phase s)
     (checkpoints s) (completed_operations s) (pending_operations s)
     (errors s) (counters s) (Some v) (ended_at s).
End Session.

Module Lock.
Record t := Mk {
  session_id : string;
  timestamp : string;
  pid : nat
}.
End Lock.

(** JSON values, for the free-form dicts of the audit log. *)
Inductive json :=
| JNull
| JBool (b : bool)
| JNum (z : Z)
| JStr (s : string)
| JList (l : list json)
| JDict (l : list (string * json)).

(** What [json.dump] wrote to a file and [json.load] reads back. *)
Inductive doc :=
| DMigrations (ms : list Rec.t)
| DTransaction (t : Txn.t Rec.t)
| DPoint (p : Point.t)
| DHistory (h : list Attempt.t)
| DSession (s : Session.t)
| DLock (l : Lock.t)
| DCheckpoint (c : Session.checkpoint)
| DAudit (lines : list (gmap string json)).

(** The content of a file: the JSON text of a document of the work
    directory, or any other bytes. *)
Inductive content :=
| Bytes (s : string)
| Json (d : doc).

Record file := File {
  f_content : content;
  f_mode : N;                     (* st_mode *)
  f_mtime : Z                     (* st_mtime, in microseconds *)
}.

Inductive node :=
| NFile (f : file)
| NDir.

(** The world outside the Python objects: the filesystem, the paths on
    which a write fails (no permission, disk error), the number of clock
    readings taken so far, and every state the disk has been in before
    the current one, most recent first. *)
Record world := World {
  w_fs : gmap path node;
  w_denied : gset path;
  w_tick : nat;
  w_trace : list (gmap path node)
}.

(** The library functions the code calls and that are not modelled down
    to their definition. *)
Class PyLib := {
  sha256_hex : string → string;       (* hashlib.sha256(b).hexdigest() *)
  md5_hex : string → string;          (* hashlib.md5(b).hexdigest() *)
  clock : nat → Z;                    (* n-th reading of the clock, in microseconds *)
  isoformat : Z → string;             (* datetime.isoformat() *)
  fromisoformat : string → option Z;  (* datetime.fromisoformat(), None: ValueError *)
  strftime : string → Z → string;     (* datetime.strftime(format) *)
  urandom_hex : nat → nat → string;   (* os.urandom(n).hex() at a clock reading *)
  json_text : doc → string;           (* the text json.dump writes *)
  json_sorted : gmap string json → string  (* json.dumps(d, sort_keys=True) *)
}.

Section Filesystem.
Context `{PyLib}.

(** [datetime.now()] *)
Definition now : M world Z :=
  λ w, (Return (clock (w_tick w)),
        World (w_fs w) (w_denied w) (S (w_tick w)) (w_trace w)).

(** [datetime.now().isoformat()] *)
Definition now_iso : M world string := t <- now ;; ret (isoformat t).

(** The root always exists. *)
Definition node_at (p : path) (w : world) : option node :=
  match p with
  | [] => Some NDir
  | _ => w_fs w !! p
  end.

Definition is_dir (n : option node) : bool :=
  match n with Some NDir => true | _ => false end.

(** [path.exists()] *)
Definition path_exists (p : path) : M world bool :=
  gets (λ w, bool_decide (is_Some (node_at p w))).

(** Every change of the disk goes through here and leaves the previous
    state in the trace. *)
Definition commit_fs (f : gmap path node → gmap path node) : M world unit :=
  modify (λ w, World (f (w_fs w)) (w_denied w) (w_tick w) (w_fs w :: w_trace w)).

Definition default_mode : N := 33188.   (* 0o100644 *)

(** [open(p, 'w')] succeeds when [p] may be written, its parent is a
    directory and [p] itself is not one. *)
Definition check_writable (p : path) : M world unit :=
  λ w, if decide (p ∈ w_denied w)
       then raise (PermissionError ("Permission denied: " +:+ str_path p)) w
       else match node_at (parent p) w with
            | None => raise (FileNotFoundError ("No such file or directory: " +:+ str_path p)) w
            | Some (NFile _) => raise (NotADirectoryError ("Not a directory: " +:+ str_path p)) w
            | Some NDir =>
                if is_dir (node_at p w)
                then raise (IsADirectoryError ("Is a directory: " +:+ str_path p)) w
                else ret tt w
            end.

Definition put_file (p : path) (c : content) (t : Z) (fs : gmap path node) : gmap path node :=
  <[p := NFile (File c (match fs !! p with
                        | Some (NFile f) => f_mode f
                        | _ => default_mode
                        end) t)]> fs.

(** [with open(p, 'w') as f: f.write(c)]: opening truncates the file,
    then the data reaches it. *)
Definition write_file (p : path) (c : content) : M world unit :=
  check_writable p ;;;
  t <- gets (λ w, clock (w_tick w)) ;;
  commit_fs (put_file p (Bytes "") t) ;;;
  commit_fs (put_file p c t).

(** [json.dump(d, open(p, 'w'))] *)
Definition json_dump (d : doc) (p : path) : M world unit := write_file p (Json d).

(** [open(p).read()] *)
Definition read_file (p : path) : M world content :=
  λ w, match node_at p w with
       | Some (NFile f) => ret (f_content f) w
       | Some NDir => raise (IsADirectoryError ("Is a directory: " +:+ str_path p)) w
       | None => raise (FileNotFoundError ("No such file or directory: " +:+ str_path p)) w
       end.

(** [json.load(open(p))] *)
Definition json_load (p : path) : M world doc :=
  c <- read_file p ;;
  match c with
  | Json d => ret d
  | Bytes _ => raise (JSONDecodeError "Expecting value")
  end.

Definition bytes_of (c : content) : string :=
  match c with
  | Bytes s => s
  | Json d => json_text d
  end.

(** Where an entry below [src] ends up when [src] is renamed to [dst]. *)
Definition retarget (src dst p : path) : path :=
  if bool_decide (src `prefix_of` p) then dst ++ drop (length src) p else p.

Definition rename_tree (src dst : path) (fs : gmap path node) : gmap path node :=
  list_to_map (prod_map (retarget src dst) id <$> map_to_list fs).

(** [os.rename(src, dst)] and [os.replace(src, dst)]: one atomic change
    of the disk; a file replaces an existing file. *)
Definition rename_node (src dst : path) : M world unit :=
  λ w, match node_at src w with
       | None => raise (FileNotFoundError ("No such file or directory: " +:+ str_path src)) w
       | Some n =>
           if decide (dst ∈ w_denied w)
           then raise (PermissionError ("Permission denied: " +:+ str_path dst)) w
           else match node_at (parent dst) w with
                | None => raise (FileNotFoundError ("No such file or directory: " +:+ str_path dst)) w
                | Some (NFile _) => raise (NotADirectoryError ("Not a directory: " +:+ str_path dst)) w
                | Some NDir =>
                    match n, node_at dst w with
                    | NFile _, Some NDir => raise (IsADirectoryError ("Is a directory: " +:+ str_path dst)) w
                    | NFile _, _ => commit_fs (λ fs, <[dst := n]> (delete src fs)) w
                    | NDir, Some _ => raise (FileExistsError ("File exists: " +:+ str_path dst)) w
                    | NDir, None => commit_fs (rename_tree src dst) w
                    end
                end
       end.

(** [shutil.move(src, dst)]: into [dst] when that is a directory. *)
Definition shutil_move (src dst : path) : M world unit :=
  into <- gets (λ w, is_dir (node_at dst w)) ;;
  if (into : bool)
  then (taken <- path_exists (child dst (basename src)) ;;
        if (taken : bool)
        then raise (ShutilError ("Destination path already exists: " +:+ str_path (child dst (basename src))))
        else rename_node src (child dst (basename src)))
  else rename_node src dst.

(** [shutil.copy2(src, dst)]: content and metadata. *)
Definition shutil_copy2 (src dst : path) : M world unit :=
  λ w, match node_at src w with
       | Some (NFile f) =>
           (let target := if is_dir (node_at dst w) then child dst (basename src) else dst in
            check_writable target ;;;
            commit_fs (<[target := NFile f]>)) w
       | Some NDir => raise (IsADirectoryError ("Is a directory: " +:+ str_path src)) w
       | None => raise (FileNotFoundError ("No such file or directory: " +:+ str_path src)) w
       end.

(** [path.unlink()]: fails on a path that may not be changed, on a
    directory and on a missing path. *)
Definition unlink (p : path) : M world unit :=
  λ w, match node_at p w with
       | Some (NFile _) =>
           if decide (p ∈ w_denied w)
           then raise (PermissionError ("Permission denied: " +:+ str_path p)) w
           else commit_fs (delete p) w
       | Some NDir => raise (IsADirectoryError ("Is a directory: " +:+ str_path p)) w
       | None => raise (FileNotFoundError ("No such file or directory: " +:+ str_path p)) w
       end.

(** [os.chmod(p, mode)] *)
Definition chmod (p : path) (mode : N) : M world unit :=
  λ w, match node_at p w with
       | Some (NFile f) => commit_fs (<[p := NFile (File (f_content f) mode (f_mtime f))]>) w
       | Some NDir => ret tt w
       | None => raise (FileNotFoundError ("No such file or directory: " +:+ str_path p)) w
       end.

(** [os.utime(p, (t, t))] *)
Definition utime (p : path) (t : Z) : M world unit :=
  λ w, match node_at p w with
       | Some (NFile f) => commit_fs (<[p := NFile (File (f_content f) (f_mode f) t)]>) w
       | Some NDir => ret tt w
       | None => raise (FileNotFoundError ("No such file or directory: " +:+ str_path p)) w
       end.

(** [path.mkdir(exist_ok=True)] *)
Definition mkdir (p : path) : M world unit :=
  λ w, match node_at p w with
       | Some NDir => ret tt w
       | Some (NFile _) => raise (FileExistsError ("File exists: " +:+ str_path p)) w
       | None =>
           match node_at (parent p) w with
           | Some NDir =>
               if decide (p ∈ w_denied w)
               then raise (PermissionError ("Permission denied: " +:+ str_path p)) w
               else commit_fs (<[p := NDir]>) w
           | Some (NFile _) => raise (NotADirectoryError ("Not a directory: " +:+ str_path p)) w
           | None => raise (FileNotFoundError ("No such file or directory: " +:+ str_path p)) w
           end
       end.

(** [path.mkdir(parents=True, exist_ok=True)]: the missing ancestors
    first. *)
Fixpoint mkdir_from (base rest : path) : M world unit :=
  match rest with
  | [] => ret tt
  | c :: rest' => mkdir (base ++ [c]) ;;; mkdir_from (base ++ [c]) rest'
  end.

Definition mkdir_parents (p : path) : M world unit := mkdir_from [] p.

End Filesystem.

(** JSON values can be compared and enumerated. *)

Lemma json_ind_nested (P : json → Prop) :
  P JNull →
  (∀ b, P (JBool b)) →
  (∀ z, P (JNum z)) →
  (∀ s, P (JStr s)) →
  (∀ l, Forall P l → P (JList l)) →
  (∀ l, Forall (λ kv, P kv.2) l → P (JDict l)) →
  ∀ j, P j.
Proof.
  intros Hnull Hbool Hnum Hstr Hlist Hdict.
  fix IH 1. intros [|b|z|s|l|l].
  - apply Hnull.
  - apply Hbool.
  - apply Hnum.
  - apply Hstr.
  - apply Hlist. induction l as [|j l IHl]; constructor; [apply IH|apply IHl].
  - apply Hdict. induction l as [|[k j] l IHl]; constructor; [apply IH|apply IHl].
Qed.

Abbreviation json_leaf := (option (bool + Z + string))%type.

Fixpoint json_to_tree (j : json) : gen_tree json_leaf :=
  match j with
  | JNull => GenLeaf None
  | JBool b => GenLeaf (Some (inl (inl b)))
  | JNum z => GenLeaf (Some (inl (inr z)))
  | JStr s => GenLeaf (Some (inr s))
  | JList l => GenNode 0 (json_to_tree <$> l)
  | JDict l =>
      GenNode 1 ((λ kv : string * json,
                    GenNode 2 [GenLeaf (Some (inr kv.1)); json_to_tree kv.2]) <$> l)
  end.

Fixpoint json_of_tree (t : gen_tree json_leaf) : option json :=
  match t with
  | GenLeaf None => Some JNull
  | GenLeaf (Some (inl (inl b))) => Some (JBool b)
  | GenLeaf (Some (inl (inr z))) => Some (JNum z)
  | GenLeaf (Some (inr s)) => Some (JStr s)
  | GenNode 0 ts => JList <$> mapM json_of_tree ts
  | GenNode 1 ts =>
      JDict <$> mapM (λ t, match t with
                           | GenNode 2 [GenLeaf (Some (inr k)); v] =>
                               (λ j, (k, j)) <$> json_of_tree v
                           | _ => None
                           end) ts
  | _ => None
  end.

Lemma json_of_to_tree j : json_of_tree (json_to_tree j) = Some j.
Proof.
  induction j as [|b|z|s|l IH|l IH] using json_ind_nested; try reflexivity.
  - change (JList <$> mapM json_of_tree (json_to_tree <$> l) = Some (JList l)).
    assert (mapM json_of_tree (json_to_tree <$> l) = Some l) as ->; [|done].
    induction IH as [|j l Hj _ IHl]; [done|].
    rewrite fmap_cons. cbn [mapM]. rewrite Hj. simpl. rewrite IHl. done.
  - change (JDict <$> mapM (λ t, match t with
                                 | GenNode 2 [GenLeaf (Some (inr k)); v] =>
                                     (λ j, (k, j)) <$> json_of_tree v
                                 | _ => None
                                 end)
                       ((λ kv : string * json,
                           GenNode 2 [GenLeaf (Some (inr kv.1)); json_to_tree kv.2]) <$> l)
            = Some (JDict l)).
    match goal with |- JDict <$> ?m = _ => assert (m = Some l) as ->; [|done] end.
    induction IH as [|[k j] l Hj _ IHl]; [done|].
    rewrite fmap_cons. cbn [mapM]. simpl in Hj. cbn [fst snd]. rewrite Hj. simpl.
    rewrite IHl. done.
Qed.

#[global] Instance json_eq_dec : EqDecision json.
Proof.
  intros j1 j2. destruct (decide (json_to_tree j1 = json_to_tree j2)) as [Heq|Hne].
  - left. apply (f_equal json_of_tree) in Heq. rewrite !json_of_to_tree in Heq. congruence.
  - right. congruence.
Defined.

#[global] Instance json_countable : Countable json.
Proof. apply (inj_countable json_to_tree json_of_tree), json_of_to_tree. Defined.


(** * migration_tracker.py *)

Module Tracker.

(** A [MigrationTracker] object together with the world it runs in and
    the record dicts it refers to. *)
Record t := Mk {
  env : world;
  heap : gmap loc Rec.t;
  work_dir : path;
  migrations : list loc;
  current_transaction : option (Txn.t loc)
}.

Definition with_env (w : world) (s : t) : t :=
  Mk w (heap s) (work_dir s) (migrations s) (current_transaction s).
Definition with_heap (h : gmap loc Rec.t) (s : t) : t :=
  Mk (env s) h (work_dir s) (migrations s) (current_transaction s).
Definition with_migrations (ms : list loc) (s : t) : t :=
  Mk (env s) (heap s) (work_dir s) ms (current_transaction s).
Definition with_current (c : option (Txn.t loc)) (s : t) : t :=
  Mk (env s) (heap s) (work_dir s) (migrations s) c.

(** Filesystem and clock calls of a method. *)
Definition io {A} (m : M world A) : M t A := zoom env with_env m.

(** A new dict object. *)
Definition alloc (r : Rec.t) : M t loc :=
  λ s, let l := fresh (dom (heap s)) in (Return l, with_heap (<[l := r]> (heap s)) s).

Fixpoint alloc_all (rs : list Rec.t) : M t (list loc) :=
  match rs with
  | [] => ret []
  | r :: rs' => l <- alloc r ;; ls <- alloc_all rs' ;; ret (l :: ls)
  end.

(** The dict at a location; every location the methods are given refers
    to a dict. *)
Definition deref (l : loc) : M t Rec.t :=
  λ s, match heap s !! l with
       | Some r => ret r s
       | None => raise (RuntimeError "no such object") s
       end.

Fixpoint deref_all (ls : list loc) : M t (list Rec.t) :=
  match ls with
  | [] => ret []
  | l :: ls' => r <- deref l ;; rs <- deref_all ls' ;; ret (r :: rs)
  end.

(** [record[key] = v], in place: every holder of the dict sees it. *)
Definition update (l : loc) (f : Rec.t → Rec.t) : M t unit :=
  modify (λ s, with_heap (alter f l (heap s)) s).

(** [op.get('status')] *)
Definition status_of (h : gmap loc Rec.t) (l : loc) : option rec_status :=
  Rec.status <$> h !! l.

(** What [json.dump] makes of a transaction: its records by value. *)
Definition snapshot (txn : Txn.t loc) : M t (Txn.t Rec.t) :=
  rs <- deref_all (Txn.operations txn) ;;
  ret (Txn.set_operations rs txn).

Definition migration_log_path (s : t) : path := child (work_dir s) "migration_log.json".
Definition transaction_log_path (s : t) : path := child (work_dir s) "transaction_log.json".
Definition archive_dir (s : t) : path := child (work_dir s) "transactions".
Definition archive_path_of (s : t) (transaction_id : string) : path :=
  child (archive_dir s) (transaction_id +:+ ".json").

(** What [_get_file_metadata] returns, [None] for the empty dict. *)
Record file_metadata := FileMetadata {
  fm_size : N;
  fm_modified : string;
  fm_permissions : N
}.

(** The dict [get_migration_summary] returns; [by_operation] in the order
    in which its keys were added. *)
Record summary := Summary {
  total_migrations : nat;
  successful : nat;
  failed : nat;
  pending : nat;
  by_operation : list (op_kind * nat);
  total_size_moved : N
}.

(** [if op not in d: d[op] = 0] followed by [d[op] += 1] *)
Fixpoint bump (op : op_kind) (d : list (op_kind * nat)) : list (op_kind * nat) :=
  match d with
  | [] => [(op, 1)]
  | (k, n) :: d' => if decide (k = op) then (k, S n) :: d' else (k, n) :: bump op d'
  end.

Section Methods.
Context `{PyLib}.

Definition _calculate_file_hash (file_path : path) : M world string :=
  c <- read_file file_path ;;
  ret (sha256_hex (bytes_of c)).

Definition _get_file_metadata (file_path : path) : M world (option file_metadata) :=
  try_except
    (λ w, match node_at file_path w with
          | Some (NFile f) =>
              ret (Some (FileMetadata (N.of_nat (String.length (bytes_of (f_content f))))
                                      (isoformat (f_mtime f)) (f_mode f))) w
          | Some NDir => ret (Some (FileMetadata 4096 (isoformat 0) 16877)) w
          | None => raise (FileNotFoundError ("No such file or directory: " +:+ str_path file_path)) w
          end)
    (λ _, ret None).

Definition _save_migrations : M t unit :=
  try_except
    (log <- gets migration_log_path ;;
     wd <- gets work_dir ;;
     let temp_path := child wd "migration_log.tmp" in
     ms <- gets migrations ;;
     rs <- deref_all ms ;;
     io (json_dump (DMigrations rs) temp_path) ;;;
     io (rename_node temp_path log))
    (λ e, raise e).

Definition _save_transaction : M t unit :=
  cur <- gets current_transaction ;;
  match cur with
  | None => ret tt
  | Some txn =>
      try_except
        (p <- gets transaction_log_path ;;
         d <- snapshot txn ;;
         io (json_dump (DTransaction d) p))
        (λ _, ret tt)
  end.

Definition _archive_transaction : M t unit :=
  cur <- gets current_transaction ;;
  match cur with
  | None => ret tt
  | Some txn =>
      dir <- gets archive_dir ;;
      io (mkdir dir) ;;;
      p <- gets (λ s, archive_path_of s (Txn.id txn)) ;;
      d <- snapshot txn ;;
      io (json_dump (DTransaction d) p)
  end.

Definition _load_transaction (transaction_id : string) : M t (option (Txn.t loc)) :=
  p <- gets (λ s, archive_path_of s transaction_id) ;;
  found <- io (path_exists p) ;;
  if (found : bool)
  then (d <- io (json_load p) ;;
        match d with
        | DTransaction txn =>
            ls <- alloc_all (Txn.operations txn) ;;
            ret (Some (Txn.set_operations ls txn))
        | _ => raise (TypeError "not a transaction")
        end)
  else ret None.

Definition _load_migrations : M t (list loc) :=
  log <- gets migration_log_path ;;
  found <- io (path_exists log) ;;
  if (found : bool)
  then try_except
         (d <- io (json_load log) ;;
          match d with
          | DMigrations rs => alloc_all rs
          | _ => raise (TypeError "not a migration log")
          end)
         (λ _, wd <- gets work_dir ;;
               io (shutil_copy2 log (child wd "migration_log.backup")) ;;;
               ret [])
  else ret [].

(** [MigrationTracker(work_dir)] in world [w]. *)
Definition __init__ : M t unit :=
  wd <- gets work_dir ;;
  io (mkdir wd) ;;;
  ms <- _load_migrations ;;
  modify (with_migrations ms) ;;;
  modify (with_current None).

Definition create (wd : path) (w : world) : outcome unit * t :=
  __init__ (Mk w ∅ wd [] None).

Definition start_transaction (description : string) : M t string :=
  t0 <- io now ;;
  let transaction_id := strftime "%Y%m%d_%H%M%S_" t0 +:+ String.substring 0 8 (md5_hex description) in
  start <- io now_iso ;;
  modify (with_current
            (Some (Txn.Mk transaction_id description start [] Tx_in_progress None None None))) ;;;
  _save_transaction ;;;
  ret transaction_id.

Definition track_migration (source_path : path) (dest_path : option path)
    (operation : op_kind) (reason : string) (md : option metadata) : M t loc :=
  try_except
    (hashable <- io (path_exists source_path) ;;
     source_hash <- (if (hashable : bool)
                     then h <- io (_calculate_file_hash source_path) ;; ret (Some h)
                     else ret None) ;;
     present <- io (path_exists source_path) ;;
     fm <- (if (present : bool) then io (_get_file_metadata source_path) else ret None) ;;
     ts <- io now_iso ;;
     cur <- gets current_transaction ;;
     l <- alloc (Rec.Mk ts (Txn.id <$> cur) operation source_path dest_path
                        source_hash
                        (from_option fm_size 0%N fm)
                        (fm_modified <$> fm)
                        (fm_permissions <$> fm)
                        reason (default no_metadata md) St_pending
                        None None None None None None) ;;
     match cur with
     | Some txn =>
         modify (with_current
                   (Some (Txn.set_operations (Txn.operations txn ++ [l]) txn))) ;;;
         _save_transaction
     | None => ret tt
     end ;;;
     modify (λ s, with_migrations (migrations s ++ [l]) s) ;;;
     _save_migrations ;;;
     ret l)
    (λ e, raise e).

(** [operation in ['move', 'copy', 'archive']] *)
Definition hash_checked (o : op_kind) : bool :=
  match o with
  | Op_move | Op_copy | Op_archive => true
  | _ => false
  end.

Definition complete_migration (migration_record : loc) (success : bool)
    (error : option string) : M t unit :=
  _ <- deref migration_record ;;
  update migration_record (Rec.set_status (if success then St_success else St_failed)) ;;;
  ts <- io now_iso ;;
  update migration_record (Rec.set_completed_at ts) ;;;
  (if truthy error
   then update migration_record (Rec.set_error (default "" error))
   else ret tt) ;;;
  r <- deref migration_record ;;
  match success, Rec.dest_path r with
  | true, Some dest_path =>
      present <- io (path_exists dest_path) ;;
      if (present : bool)
      then (h <- io (_calculate_file_hash dest_path) ;;
            update migration_record (Rec.set_dest_hash h) ;;;
            if truthy (Rec.source_hash r) && hash_checked (Rec.operation r)
            then (if bool_decide (Rec.source_hash r ≠ Some h)
                  then (update migration_record (Rec.set_status St_failed) ;;;
                        update migration_record (Rec.set_error "Hash verification failed"))
                  else ret tt)
            else ret tt)
      else ret tt
  | _, _ => ret tt
  end ;;;
  _save_migrations ;;;
  _save_transaction.

Definition commit_transaction : M t unit :=
  cur <- gets current_transaction ;;
  match cur with
  | None => ret tt
  | Some txn =>
      ts <- io now_iso ;;
      h <- gets heap ;;
      let failed_ops :=
        filter (λ op, status_of h op ≠ Some St_success) (Txn.operations txn) in
      let txn1 := Txn.set_status Tx_committed (Txn.set_end_time ts txn) in
      let txn2 :=
        match failed_ops with
        | [] => txn1
        | _ => Txn.set_failed_operations (length failed_ops)
                 (Txn.set_status Tx_partial_failure txn1)
        end in
      modify (with_current (Some txn2)) ;;;
      _save_transaction ;;;
      _archive_transaction ;;;
      modify (with_current None)
  end.

Definition _reverse_operation (operation : Rec.t) : M t unit :=
  match Rec.operation operation with
  | Op_move | Op_archive =>
      match Rec.dest_path operation with
      | None => raise (TypeError "expected str, bytes or os.PathLike object, not NoneType")
      | Some source =>
          let dest := Rec.source_path operation in
          present <- io (path_exists source) ;;
          if (present : bool)
          then (io (mkdir_parents (parent dest)) ;;;
                io (shutil_move source dest) ;;;
                match Rec.file_permissions operation with
                | Some mode =>
                    if bool_decide (mode ≠ 0%N)
                    then try_except (io (chmod dest mode)) (λ _, ret tt)
                    else ret tt
                | None => ret tt
                end)
          else ret tt
      end
  | Op_delete => ret tt
  | Op_copy =>
      match Rec.dest_path operation with
      | None => raise (TypeError "expected str, bytes or os.PathLike object, not NoneType")
      | Some dest =>
          present <- io (path_exists dest) ;;
          if (present : bool) then io (unlink dest) else ret tt
      end
  | _ => ret tt
  end.

Definition rollback_transaction (transaction_id : option string) : M t bool :=
  transaction <- (if truthy transaction_id
                  then _load_transaction (default "" transaction_id)
                  else gets current_transaction) ;;
  match transaction with
  | None => ret false
  | Some txn =>
      for_each (reverse (Txn.operations txn))
        (λ op,
           h <- gets heap ;;
           if bool_decide (status_of h op = Some St_success)
           then try_except
                  (r <- deref op ;;
                   _reverse_operation r ;;;
                   update op (Rec.set_status St_rolled_back) ;;;
                   ts <- io now_iso ;;
                   update op (Rec.set_rollback_time ts))
                  (λ e, update op (Rec.set_rollback_error (str_exn e)))
           else ret tt) ;;;
      ts <- io now_iso ;;
      (* the dict changed is [self.current_transaction] itself unless it
         was loaded from the archive *)
      (if truthy transaction_id
       then ret tt
       else modify (with_current
                      (Some (Txn.set_rollback_time ts (Txn.set_status Tx_rolled_back txn))))) ;;;
      _save_transaction ;;;
      _save_migrations ;;;
      ret true
  end.

(** A finding of [verify_migration_integrity]. *)
Inductive issue_type := missing_destination | hash_mismatch | source_not_removed.

#[global] Instance issue_type_eq_dec : EqDecision issue_type.
Proof. solve_decision. Defined.

Record issue := Issue {
  issue_kind : issue_type;
  issue_migration : loc;
  issue_message : string
}.

Definition verify_one (migration : loc) : M t (list issue) :=
  r <- deref migration ;;
  if bool_decide (Rec.status r ≠ St_success)
  then ret []
  else
    found <- match Rec.dest_path r, truthy (Rec.dest_hash r) with
             | Some dest_path, true =>
                 present <- io (path_exists dest_path) ;;
                 if (present : bool)
                 then (current_hash <- io (_calculate_file_hash dest_path) ;;
                       if bool_decide (Some current_hash ≠ Rec.dest_hash r)
                       then ret [Issue hash_mismatch migration
                                   ("File hash changed: " +:+ str_path dest_path)]
                       else ret [])
                 else ret [Issue missing_destination migration
                             ("Destination file missing: " +:+ str_path dest_path)]
             | _, _ => ret []
             end ;;
    kept <- (if bool_decide (Rec.operation r = Op_move)
             then (present <- io (path_exists (Rec.source_path r)) ;;
                   if (present : bool)
                   then ret [Issue source_not_removed migration
                               ("Source file still exists after move: "
                                +:+ str_path (Rec.source_path r))]
                   else ret [])
             else ret []) ;;
    ret (found ++ kept).

Fixpoint verify_each (ms : list loc) : M t (list issue) :=
  match ms with
  | [] => ret []
  | m :: ms' => found <- verify_one m ;; rest <- verify_each ms' ;; ret (found ++ rest)
  end.

Definition verify_migration_integrity : M t (list issue) :=
  ms <- gets migrations ;;
  verify_each ms.

Definition get_migration_summary : M t summary :=
  ms <- gets migrations ;;
  rs <- deref_all ms ;;
  let count st := length (filter (λ m, Rec.status m = st) rs) in
  ret (Summary (length ms) (count St_success) (count St_failed) (count St_pending)
               (foldl (λ d migration, bump (Rec.operation migration) d) [] rs)
               (foldl (λ total migration,
                         if bool_decide (Rec.status migration = St_success)
                            && negb (N.eqb (Rec.file_size migration) 0)
                         then (total + Rec.file_size migration)%N
                         else total) 0%N rs)).

End Methods.
End Tracker.

(** * rollback_manager.py *)

Module Rollback.

(** A [RollbackManager] object; the tracker it was given is part of its
    state. *)
Record t := Mk {
  migration_tracker : Tracker.t;
  work_dir : path;
  rollback_history : list Attempt.t
}.

Definition with_tracker (tr : Tracker.t) (s : t) : t :=
  Mk tr (work_dir s) (rollback_history s).
Definition with_history (h : list Attempt.t) (s : t) : t :=
  Mk (migration_tracker s) (work_dir s) h.

(** Calls of [self.migration_tracker]'s methods, and of the filesystem. *)
Definition tracker {A} (m : M Tracker.t A) : M t A := zoom migration_tracker with_tracker m.
Definition io {A} (m : M world A) : M t A := tracker (Tracker.io m).

Definition rollback_log_path (s : t) : path := child (work_dir s) "rollback_log.json".
Definition rollback_file_of (s : t) (rollback_id : string) : path :=
  child (work_dir s) ("rollback_" +:+ rollback_id +:+ ".json").

(** The frame of [rollback_to_point]: [self] and the local list
    [errors], which the handler of the outer [try] still sees. *)
Abbreviation frame := (t * list string)%type.

Definition self {A} (m : M t A) : M frame A :=
  zoom fst (λ s (f : frame), (s, f.2)) m.
Definition errors_extend (es : list string) : M frame unit :=
  modify (λ f : frame, (f.1, f.2 ++ es)).
Definition in_frame {A} (m : M frame A) : M t A :=
  λ s, let '(r, f) := m (s, []) in (r, f.1).

Definition op_name (o : op_kind) : string :=
  match o with
  | Op_move => "move"
  | Op_copy => "copy"
  | Op_archive => "archive"
  | Op_delete => "delete"
  | Op_consolidate => "consolidate"
  | Op_rollback_move => "rollback_move"
  | Op_rollback_restore => "rollback_restore"
  | Op_other name => name
  end.

(** [migration.get('timestamp', '') > timestamp], on strings. *)
Definition is_after (timestamp : string) (h : gmap loc Rec.t) (migration : loc) : bool :=
  String.ltb timestamp (from_option Rec.timestamp "" (h !! migration)).

(** [fnmatch(name, 'rollback_*.json')] *)
Definition matches_rollback (name : string) : bool :=
  bool_decide (String.substring 0 9 name = "rollback_")
  && bool_decide (String.substring (String.length name - 5) 5 name = ".json")
  && bool_decide (14 ≤ String.length name).

(** [self.work_dir.glob('rollback_*.json')]: the entries of the work
    directory whose name matches, in the order the directory gives
    them. *)
Definition glob_rollback (s : t) : list path :=
  filter (λ p, parent p = work_dir s ∧ p ≠ [] ∧ matches_rollback (basename p) = true)
         (map_to_list (w_fs (Tracker.env (migration_tracker s)))).*1.

Section Methods.
Context `{PyLib}.

Definition _load_rollback_history : M t (list Attempt.t) :=
  p <- gets rollback_log_path ;;
  found <- io (path_exists p) ;;
  if (found : bool)
  then try_except
         (d <- io (json_load p) ;;
          match d with
          | DHistory h => ret h
          | _ => raise (TypeError "not a rollback history")
          end)
         (λ _, ret [])
  else ret [].

Definition _capture_project_state : M t string := io now_iso.

Definition create_rollback_point (description : string) : M t string :=
  t0 <- io now ;;
  let rollback_id := strftime "%Y%m%d_%H%M%S_rollback" t0 in
  created_at <- io now_iso ;;
  project_state <- _capture_project_state ;;
  rollback_file <- gets (λ s, rollback_file_of s rollback_id) ;;
  io (json_dump (DPoint (Point.Mk rollback_id description created_at project_state "active"))
                rollback_file) ;;;
  ret rollback_id.

Definition _load_rollback_point (rollback_id : string) : M t Point.t :=
  rollback_file <- gets (λ s, rollback_file_of s rollback_id) ;;
  d <- io (json_load rollback_file) ;;
  match d with
  | DPoint p => ret p
  | _ => raise (TypeError "not a rollback point")
  end.

Definition _get_migrations_after (timestamp : string) : M t (list loc) :=
  gets (λ s, filter (λ m, is_after timestamp (Tracker.heap (migration_tracker s)) m)
                    (Tracker.migrations (migration_tracker s))).

Definition _restore_file_metadata (file_path : path) (migration : Rec.t) : M t unit :=
  try_except
    ((if truthy (Rec.file_modified migration)
      then match fromisoformat (default "" (Rec.file_modified migration)) with
           | Some mtime => io (utime file_path mtime)
           | None => raise (ValueError "Invalid isoformat string")
           end
      else ret tt) ;;;
     match Rec.file_permissions migration with
     | Some mode => if bool_decide (mode ≠ 0%N) then io (chmod file_path mode) else ret tt
     | None => ret tt
     end)
    (λ _, ret tt).

Definition _reverse_consolidation (migration : Rec.t) : M t unit :=
  match Rec.dest_path migration with
  | None => raise (TypeError "expected str, bytes or os.PathLike object, not NoneType")
  | Some _ =>
      for_each (original_files (Rec.meta migration))
        (λ original,
           match of_path original with
           | None => raise (KeyError "path")
           | Some original_path =>
               if truthy (of_content original)
               then (io (mkdir_parents (parent original_path)) ;;;
                     io (write_file original_path (Bytes (default "" (of_content original)))))
               else ret tt
           end)
  end.

Definition _reverse_migration (migration : loc) : M t unit :=
  r <- tracker (Tracker.deref migration) ;;
  let source_path := Rec.source_path r in
  match Rec.operation r with
  | Op_archive | Op_move =>
      present <- match Rec.dest_path r with
                 | Some dest_path => io (path_exists dest_path)
                 | None => ret false
                 end ;;
      match Rec.dest_path r, (present : bool) with
      | Some dest_path, true =>
          io (mkdir_parents (parent source_path)) ;;;
          io (shutil_move dest_path source_path) ;;;
          _restore_file_metadata source_path r ;;;
          _ <- tracker (Tracker.track_migration dest_path (Some source_path) Op_rollback_move
                          ("Rollback of " +:+ op_name (Rec.operation r))
                          (Some (Metadata [] (Some migration)))) ;;
          ret tt
      | dest_path, _ =>
          raise (FileNotFoundError ("Destination file not found for rollback: "
                                    +:+ from_option str_path "None" dest_path))
      end
  | Op_delete =>
      match Rec.archive_path r with
      | Some archive_path =>
          present <- io (path_exists archive_path) ;;
          if (present : bool)
          then (io (mkdir_parents (parent source_path)) ;;;
                io (shutil_copy2 archive_path source_path) ;;;
                _ <- tracker (Tracker.track_migration archive_path (Some source_path)
                                Op_rollback_restore "Rollback of delete"
                                (Some (Metadata [] (Some migration)))) ;;
                ret tt)
          else raise (FileNotFoundError ("No archive found for deleted file: "
                                         +:+ str_path source_path))
      | None => ret tt
      end
  | Op_consolidate => _reverse_consolidation r
  | _ => ret tt
  end.

Definition _verify_rollback (rollback_point : Point.t) : M t (list string) :=
  issues <- tracker Tracker.verify_migration_integrity ;;
  ret (Tracker.issue_message <$>
         filter (λ i, Tracker.issue_kind i ≠ Tracker.source_not_removed) issues).

Definition _save_rollback_history : M t unit :=
  p <- gets rollback_log_path ;;
  h <- gets rollback_history ;;
  io (json_dump (DHistory h) p).

Definition _record_rollback (rollback_id : string) (success : bool)
    (errors : list string) : M t unit :=
  ts <- io now_iso ;;
  point <- _load_rollback_point rollback_id ;;
  reversed <- _get_migrations_after (Point.created_at point) ;;
  modify (λ s, with_history
                 (rollback_history s
                  ++ [Attempt.Mk rollback_id ts success errors (length reversed)]) s) ;;;
  _save_rollback_history.

(** One turn of the loop of [rollback_to_point]. *)
Definition reverse_or_report (migration : loc) : M frame unit :=
  try_except
    (self (_reverse_migration migration))
    (λ e,
       h <- gets (λ f : frame, Tracker.heap (migration_tracker f.1)) ;;
       match h !! migration with
       | Some r =>
           errors_extend ["Failed to reverse migration: " +:+ str_path (Rec.source_path r)
                          +:+ " - " +:+ str_exn e]
       | None => raise (KeyError "source_path")
       end).

Definition rollback_to_point (rollback_id : string) (verify : bool)
    : M t (bool * list string) :=
  rollback_file <- gets (λ s, rollback_file_of s rollback_id) ;;
  found <- io (path_exists rollback_file) ;;
  if negb found
  then ret (false, ["Rollback point not found: " +:+ rollback_id])
  else
    d <- io (json_load rollback_file) ;;
    rollback_point <- match d with
                      | DPoint p => ret p
                      | _ => raise (TypeError "not a rollback point")
                      end ;;
    _ <- tracker (Tracker.start_transaction ("Rollback to " +:+ rollback_id)) ;;
    in_frame
      (try_except
         (migrations_to_reverse <-
            self (_get_migrations_after (Point.created_at rollback_point)) ;;
          for_each (reverse migrations_to_reverse) reverse_or_report ;;;
          (if verify
           then (verification_errors <- self (_verify_rollback rollback_point) ;;
                 errors_extend verification_errors)
           else ret tt) ;;;
          errors <- gets snd ;;
          self (_record_rollback rollback_id (bool_decide (length errors = 0)) errors) ;;;
          self (tracker Tracker.commit_transaction) ;;;
          errors <- gets snd ;;
          ret (bool_decide (length errors = 0), errors))
         (λ e,
            errors_extend ["Rollback failed: " +:+ str_exn e] ;;;
            errors <- gets snd ;;
            ret (false, errors))).

Definition __init__ : M t unit :=
  h <- _load_rollback_history ;;
  modify (with_history h).

(** One turn of the loop of [cleanup_old_rollback_points]: 1 when the
    file was removed.  A directory of a matching name is left alone
    whatever its age, as [unlink] fails on it. *)
Definition cleanup_one (cutoff_date : Z) (file : path) : M t nat :=
  try_except
    (node <- gets (λ s, node_at file (Tracker.env (migration_tracker s))) ;;
     match node with
     | Some (NFile f) =>
         if bool_decide (f_mtime f < cutoff_date)%Z
         then (io (unlink file) ;;; ret 1)
         else ret 0
     | Some NDir => ret 0
     | None => raise (FileNotFoundError ("No such file or directory: " +:+ str_path file))
     end)
    (λ _, ret 0).

Fixpoint cleanup_each (cutoff_date : Z) (files : list path) : M t nat :=
  match files with
  | [] => ret 0
  | file :: rest =>
      n <- cleanup_one cutoff_date file ;;
      cleaned <- cleanup_each cutoff_date rest ;;
      ret (n + cleaned)
  end.

Definition cleanup_old_rollback_points (days_to_keep : Z) : M t nat :=
  t0 <- io now ;;
  let cutoff_date := (t0 - days_to_keep * 86400 * 1000000)%Z in
  files <- gets glob_rollback ;;
  cleanup_each cutoff_date files.

End Methods.
End Rollback.

(** * session_manager.py *)

Module SessionManager.

(** A [SessionManager] object.  The checkpoint thread and the signal
    handlers act later and from outside the methods modelled here; they
    are not part of the state. *)
Record t := Mk {
  env : world;
  work_dir : path;
  pid : nat;                      (* os.getpid() *)
  session : option Session.t;
  is_active : bool;
  checkpoint_interval : nat
}.

Definition with_env (w : world) (s : t) : t :=
  Mk w (work_dir s) (pid s) (session s) (is_active s) (checkpoint_interval s).
Definition with_session (v : option Session.t) (s : t) : t :=
  Mk (env s) (work_dir s) (pid s) v (is_active s) (checkpoint_interval s).
Definition with_is_active (v : bool) (s : t) : t :=
  Mk (env s) (work_dir s) (pid s) (session s) v (checkpoint_interval s).

Definition io {A} (m : M world A) : M t A := zoom env with_env m.

Definition session_file (s : t) : path := child (work_dir s) "current_session.json".
Definition session_lock_file (s : t) : path := child (work_dir s) "session.lock".
Definition checkpoint_file (s : t) : path := child (work_dir s) "checkpoint.json".
Definition sessions_dir (s : t) : path := child (work_dir s) "sessions".

(** Five minutes, in microseconds. *)
Definition stale_after : Z := 300 * 1000000.

(** [session['checkpoints'].append(checkpoint)] *)
Definition append_checkpoint (checkpoint : Session.checkpoint) (sess : Session.t)
    : Session.t :=
  Session.Mk (Session.id sess) (Session.project_path sess) (Session.started_at sess)
             (Session.status sess) (Session.phase sess)
             (Session.checkpoints sess ++ [checkpoint])
             (Session.completed_operations sess) (Session.pending_operations sess)
             (Session.errors sess) (Session.counters sess) (Session.resumed_at sess)
             (Session.ended_at sess).

Section Methods.
Context `{PyLib}.

Definition _check_session_lock : M t bool :=
  lock <- gets session_lock_file ;;
  found <- io (path_exists lock) ;;
  if negb found
  then ret false
  else
    try_except
      (d <- io (json_load lock) ;;
       match d with
       | DLock lock_data =>
           match fromisoformat (Lock.timestamp lock_data) with
           | Some lock_time =>
               t <- io now ;;
               if bool_decide (t - lock_time > stale_after)%Z
               then ret false
               else ret true
           | None => raise (ValueError "Invalid isoformat string")
           end
       | _ => raise (KeyError "timestamp")
       end)
      (λ _, ret false).

Definition _prompt_resume : M t bool := ret true.

Definition _prompt_takeover : M t bool := ret true.

Definition _create_session_lock : M t unit :=
  cur <- gets session ;;
  match cur with
  | None => raise (TypeError "'NoneType' object is not subscriptable")
  | Some sess =>
      ts <- io now_iso ;;
      p <- gets pid ;;
      lock <- gets session_lock_file ;;
      io (json_dump (DLock (Lock.Mk (Session.id sess) ts p)) lock)
  end.

Definition _remove_session_lock : M t unit :=
  lock <- gets session_lock_file ;;
  found <- io (path_exists lock) ;;
  if (found : bool) then io (unlink lock) else ret tt.

Definition _check_abandoned_session : M t (option Session.t) :=
  p <- gets session_file ;;
  found <- io (path_exists p) ;;
  if (found : bool)
  then try_except
         (d <- io (json_load p) ;;
          match d with
          | DSession sess =>
              if bool_decide (Session.status sess = "active")
              then ret (Some sess)
              else ret None
          | _ => raise (TypeError "not a session")
          end)
         (λ _, ret None)
  else ret None.

Definition _save_session : M t unit :=
  cur <- gets session ;;
  match cur with
  | None => ret tt
  | Some sess =>
      try_except
        (wd <- gets work_dir ;;
         let temp_file := child wd "current_session.tmp" in
         io (json_dump (DSession sess) temp_file) ;;;
         p <- gets session_file ;;
         io (rename_node temp_file p))
        (λ _, ret tt)
  end.

Definition _load_session (session_id : string) : M t Session.t :=
  p <- gets session_file ;;
  found <- io (path_exists p) ;;
  current <- (if (found : bool)
              then (d <- io (json_load p) ;;
                    match d with
                    | DSession sess =>
                        if bool_decide (Session.id sess = session_id)
                        then ret (Some sess)
                        else ret None
                    | _ => raise (TypeError "not a session")
                    end)
              else ret None) ;;
  match current with
  | Some sess => ret sess
  | None =>
      dir <- gets sessions_dir ;;
      let archive_file := child dir (session_id +:+ ".json") in
      archived <- io (path_exists archive_file) ;;
      if (archived : bool)
      then (d <- io (json_load archive_file) ;;
            match d with
            | DSession sess => ret sess
            | _ => raise (TypeError "not a session")
            end)
      else raise (FileNotFoundError ("Session not found: " +:+ session_id))
  end.

Definition _archive_session (sess : Session.t) : M t unit :=
  dir <- gets sessions_dir ;;
  io (mkdir dir) ;;;
  io (json_dump (DSession sess) (child dir (Session.id sess +:+ ".json"))) ;;;
  p <- gets session_file ;;
  found <- io (path_exists p) ;;
  if (found : bool) then io (unlink p) else ret tt.

Definition _create_new_session (project_path : string) : M t Session.t :=
  t0 <- io now ;;
  n <- gets (λ s, w_tick (env s)) ;;
  let session_id := strftime "%Y%m%d_%H%M%S_" t0 +:+ urandom_hex 4 n in
  started <- io now_iso ;;
  ret (Session.Mk session_id project_path started "active" "initialization"
                  [] [] [] [] (Session.Stats 0 0 0 0) None None).

(** The thread started here first sleeps [checkpoint_interval] seconds;
    starting it changes nothing. *)
Definition _start_checkpoint_thread : M t unit := ret tt.

Definition start_session (project_path : string) (resume_session_id : option string)
    : M t (option Session.t) :=
  locked <- _check_session_lock ;;
  (if (locked : bool)
   then (takeover <- _prompt_takeover ;;
         if negb takeover
         then raise (RuntimeError "Cannot start session - another instance is running")
         else ret tt)
   else ret tt) ;;;
  (if truthy resume_session_id
   then (sess <- _load_session (default "" resume_session_id) ;;
         modify (with_session (Some sess)))
   else (abandoned_session <- _check_abandoned_session ;;
         match abandoned_session with
         | Some abandoned =>
             resume <- _prompt_resume ;;
             if (resume : bool)
             then (modify (with_session (Some abandoned)) ;;;
                   ts <- io now_iso ;;
                   modify (with_session (Some (Session.set_resumed_at ts abandoned))))
             else (_archive_session abandoned ;;;
                   sess <- _create_new_session project_path ;;
                   modify (with_session (Some sess)))
         | None =>
             sess <- _create_new_session project_path ;;
             modify (with_session (Some sess))
         end)) ;;;
  _create_session_lock ;;;
  _save_session ;;;
  _start_checkpoint_thread ;;;
  modify (with_is_active true) ;;;
  gets session.

Definition add_checkpoint (name : string) (data : string) : M t unit :=
  ts <- io now_iso ;;
  let checkpoint := Session.Checkpoint name ts data in
  cur <- gets session ;;
  match cur with
  | None => raise (TypeError "'NoneType' object is not subscriptable")
  | Some sess =>
      modify (with_session (Some (append_checkpoint checkpoint sess))) ;;;
      p <- gets checkpoint_file ;;
      io (json_dump (DCheckpoint checkpoint) p) ;;;
      _save_session
  end.

Definition get_last_checkpoint (name : option string) : M t (option Session.checkpoint) :=
  cur <- gets session ;;
  match cur with
  | None => ret None
  | Some sess =>
      if bool_decide (Session.checkpoints sess = [])
      then ret None
      else
        let checkpoints := Session.checkpoints sess in
        let checkpoints :=
          if truthy name
          then filter (λ cp, Session.cp_name cp = default "" name) checkpoints
          else checkpoints in
        ret (last checkpoints)
  end.

End Methods.
End SessionManager.

(** * audit_logger.py *)

Module AuditLogger.

Inductive AuditEvent :=
| SESSION_START | SESSION_END | FILE_SCAN | FILE_ANALYZE | PROPOSAL_GENERATE
| USER_DECISION | FILE_OPERATION | TEST_RUN | TEST_COMPARE | ROLLBACK
| ERROR | WARNING | CONFIG_CHANGE | PERMISSION_CHECK.

(** [event_type.value] *)
Definition event_value (e : AuditEvent) : string :=
  match e with
  | SESSION_START => "session_start"
  | SESSION_END => "session_end"
  | FILE_SCAN => "file_scan"
  | FILE_ANALYZE => "file_analyze"
  | PROPOSAL_GENERATE => "proposal_generate"
  | USER_DECISION => "user_decision"
  | FILE_OPERATION => "file_operation"
  | TEST_RUN => "test_run"
  | TEST_COMPARE => "test_compare"
  | ROLLBACK => "rollback"
  | ERROR => "error"
  | WARNING => "warning"
  | CONFIG_CHANGE => "config_change"
  | PERMISSION_CHECK => "permission_check"
  end.

Record config := Config {
  include_checksums : bool;
  include_user_info : bool;
  include_system_info : bool;
  max_log_size_mb : N;
  retention_days : N
}.

Definition default_config : config := Config true true true 100 365.

(** An [AuditLogger] object and the facts of the process it asks for:
    [os.getpid()], [os.getcwd()], [os.environ], the interpreter version
    and the platform description. *)
Record t := Mk {
  env : world;
  audit_dir : path;
  current_log_file : path;
  lock_held : bool;               (* self.lock, a threading.Lock *)
  conf : config;
  pid : nat;
  cwd : string;
  environ : gmap string string;
  python_version : string;
  system_info : list (string * json)
}.

Definition with_env (w : world) (s : t) : t :=
  Mk w (audit_dir s) (current_log_file s) (lock_held s) (conf s) (pid s) (cwd s)
     (environ s) (python_version s) (system_info s).
Definition with_current_log_file (p : path) (s : t) : t :=
  Mk (env s) (audit_dir s) p (lock_held s) (conf s) (pid s) (cwd s)
     (environ s) (python_version s) (system_info s).
Definition with_lock_held (b : bool) (s : t) : t :=
  Mk (env s) (audit_dir s) (current_log_file s) b (conf s) (pid s) (cwd s)
     (environ s) (python_version s) (system_info s).

Definition io {A} (m : M world A) : M t A := zoom env with_env m.

(** An entry of the log is a dict. *)
Abbreviation entry := (gmap string json).

(** [name.endswith(suffix)] and [path.stem] for a one-suffix name. *)
Definition ends_with (suffix name : string) : bool :=
  bool_decide (String.substring (String.length name - String.length suffix)
                                (String.length suffix) name = suffix).

Definition stem (name : string) : string :=
  match String.index 0 "." name with
  | Some _ =>
      if ends_with ".jsonl" name
      then String.substring 0 (String.length name - 6) name
      else name
  | None => name
  end.

(** [needle in name] *)
Definition contains (needle name : string) : bool :=
  bool_decide (is_Some (String.index 0 needle name)).

Section Methods.
Context `{PyLib}.

(** [with self.lock: body].  The lock is not reentrant. *)
Definition with_lock {A} (body : M t A) : M t A :=
  λ s, if lock_held s
       then (Raise Deadlock, s)
       else let '(r, s') := body (with_lock_held true s) in
            (r, with_lock_held false s').

(** [with open(p, 'a') as f: json.dump(e, f); f.write('\n')] *)
Definition append_line (p : path) (e : entry) : M world unit :=
  check_writable p ;;;
  t <- gets (λ w, clock (w_tick w)) ;;
  commit_fs (λ fs,
    <[p := match fs !! p with
           | Some (NFile (File (Json (DAudit lines)) mode _)) =>
               NFile (File (Json (DAudit (lines ++ [e]))) mode t)
           | Some (NFile (File c mode _)) =>
               NFile (File (Bytes (bytes_of c +:+ json_text (DAudit [e]))) mode t)
           | _ => NFile (File (Json (DAudit [e])) default_mode t)
           end]> fs).

Definition _get_current_log_file : M t path :=
  t <- io now ;;
  dir <- gets audit_dir ;;
  ret (child dir ("audit_" +:+ strftime "%Y%m%d" t +:+ ".jsonl")).

Definition _calculate_checksum (data : entry) : string :=
  let data_copy := delete "checksum" data in
  let data_str := json_sorted data_copy in
  sha256_hex data_str.

Definition _get_context (user : option string) : M t (list (string * json)) :=
  gets (λ s,
    let context := [("process_id", JNum (Z.of_nat (pid s)));
                    ("working_directory", JStr (cwd s))] in
    let context :=
      if include_user_info (conf s)
      then context ++
           [("user", JStr (if truthy user then default "" user
                           else default "unknown" (environ s !! "USER")));
            ("hostname", JStr (default "unknown" (environ s !! "COMPUTERNAME")))]
      else context in
    let context :=
      if include_system_info (conf s)
      then context ++ [("python_version", JStr (python_version s))]
      else context in
    context).

Definition _generate_event_id : M t string :=
  n <- gets (λ s, w_tick (env s)) ;;
  timestamp <- io now_iso ;;
  ret (timestamp +:+ "-" +:+ urandom_hex 8 n).

Definition _should_rotate_log : M t bool :=
  p <- gets current_log_file ;;
  node <- gets (λ s, node_at p (env s)) ;;
  match node with
  | None => ret false
  | Some n =>
      limit <- gets (λ s, max_log_size_mb (conf s)) ;;
      let size := match n with
                  | NFile f => N.of_nat (String.length (bytes_of (f_content f)))
                  | NDir => 4096%N
                  end in
      if bool_decide (limit * 1048576 < size)%N
      then ret true
      else (t <- io now ;;
            if negb (contains (strftime "%Y%m%d" t) (basename p))
            then ret true
            else ret false)
  end.

(** The three methods below call each other: writing an entry may rotate
    the log, rotating initialises the new file, initialising writes the
    header entry.  [write] is the method called for the header. *)
Definition _initialize_audit_log_with (write : entry → M t unit) : M t unit :=
  p <- gets current_log_file ;;
  found <- io (path_exists p) ;;
  if negb found
  then (created_at <- io now_iso ;;
        info <- gets system_info ;;
        write {[ "type" := JStr "audit_log_header";
                 "version" := JStr "1.0";
                 "created_at" := JStr created_at;
                 "system_info" := JDict info ]})
  else ret tt.

Definition _rotate_log_file_with (write : entry → M t unit) : M t unit :=
  p <- gets current_log_file ;;
  found <- io (path_exists p) ;;
  (if (found : bool)
   then (t <- io now ;;
         dir <- gets audit_dir ;;
         let archive_name := stem (basename p) +:+ "_" +:+ strftime "%Y%m%d_%H%M%S" t
                             +:+ ".jsonl" in
         let archive_path := child (child dir "archive") archive_name in
         io (mkdir (parent archive_path)) ;;;
         io (rename_node p archive_path))
   else ret tt) ;;;
  fresh_log <- _get_current_log_file ;;
  modify (with_current_log_file fresh_log) ;;;
  _initialize_audit_log_with write.

Definition _write_audit_entry_with (write : entry → M t unit) (e : entry) : M t unit :=
  with_lock
    (rotate <- _should_rotate_log ;;
     (if (rotate : bool) then _rotate_log_file_with write else ret tt) ;;;
     p <- gets current_log_file ;;
     io (append_line p e)).

(** A call made while the lock is held blocks at once, so the methods it
    would call in turn are never reached. *)
Definition _write_audit_entry : entry → M t unit :=
  _write_audit_entry_with (_write_audit_entry_with (λ _, raise Deadlock)).

Definition _initialize_audit_log : M t unit :=
  _initialize_audit_log_with _write_audit_entry.

(** The entry [log_event] builds, before the checksum is attached. *)
Definition audit_entry_of (event_id timestamp : string) (event_type : AuditEvent)
    (description severity : string) (details : option (list (string * json)))
    (context : list (string * json)) : entry :=
  {[ "id" := JStr event_id;
     "timestamp" := JStr timestamp;
     "event_type" := JStr (event_value event_type);
     "description" := JStr description;
     "severity" := JStr severity;
     "details" := JDict (default [] details);
     "context" := JDict context ]}.

Definition log_event (event_type : AuditEvent) (description : string)
    (details : option (list (string * json))) (user : option string)
    (severity : string) : M t unit :=
  event_id <- _generate_event_id ;;
  timestamp <- io now_iso ;;
  context <- _get_context user ;;
  let audit_entry :=
    audit_entry_of event_id timestamp event_type description severity details context in
  checksums <- gets (λ s, include_checksums (conf s)) ;;
  let audit_entry :=
    if (checksums : bool)
    then <["checksum" := JStr (_calculate_checksum audit_entry)]> audit_entry
    else audit_entry in
  _write_audit_entry audit_entry.

End Methods.
End AuditLogger.

(** * A concrete library, for running the methods on examples *)

Module Toy.

Definition digit_of (a : Ascii.ascii) : option N :=
  let n := Ascii.N_of_ascii a in
  if ((48 <=? n) && (n <=? 57))%N then Some (n - 48)%N else None.

Fixpoint parse_dec (s : string) (acc : N) : option N :=
  match s with
  | EmptyString => Some acc
  | String a s' =>
      match digit_of a with
      | Some d => parse_dec s' (10 * acc + d)%N
      | None => None
      end
  end.

(** Time in whole seconds, written in decimal; one second passes between
    two readings of the clock. *)
Definition lib : PyLib := {|
  sha256_hex s := "sha256:" +:+ s;
  md5_hex s := "md5:" +:+ s;
  clock n := (Z.of_nat n * 1000000)%Z;
  isoformat t := pretty (t / 1000000)%Z;
  fromisoformat s :=
    match s with
    | EmptyString => None
    | _ => (λ n, Z.of_N n * 1000000)%Z <$> parse_dec s 0
    end;
  strftime fmt t := pretty (t / 1000000)%Z;
  urandom_hex n k := "00";
  json_text d := "{}";
  json_sorted m := pretty (encode m)
|}.

Lemma sha256_hex_inj : Inj (=) (=) (sha256_hex (PyLib := lib)).
Proof. intros a b Heq. simpl in Heq. by simplify_eq. Qed.

Lemma json_sorted_inj : Inj (=) (=) (json_sorted (PyLib := lib)).
Proof. intros a b Heq. simpl in Heq. by apply (inj pretty), (inj encode) in Heq. Qed.

End Toy.

(** Example states: a work directory, an archive holding the moved file
    [a.txt], and the record of that move. *)
Module Ex.

Definition disk : gmap path node :=
  {[ ["work"] := NDir;
     ["archive"] := NDir;
     ["archive"; "a.txt"] := NFile (File (Bytes "x") 33188 5000000) ]}.

Definition w0 : world := World disk ∅ 10 [].

Definition moved : Rec.t :=
  Rec.Mk "2" (Some "t0") Op_move ["a.txt"] (Some ["archive"; "a.txt"])
         (Some "sha256:x") 1 (Some "5") (Some 33188%N) "unused" no_metadata
         St_success (Some "3") None (Some "sha256:x") None None None.

Definition open_txn : Txn.t loc :=
  Txn.Mk "t0" "first" "1" [0] Tx_in_progress None None None.

(** A tracked move of [b.txt] that was never carried out. *)
Definition unmoved : Rec.t :=
  Rec.Mk "2" None Op_move ["b.txt"] (Some ["archive"; "b.txt"])
         (Some "sha256:y") 1 (Some "5") (Some 33188%N) "unused" no_metadata
         St_pending None None None None None None.

(** A tracker with a transaction in progress, and one without. *)
Definition busy : Tracker.t := Tracker.Mk w0 {[ 0 := moved ]} ["work"] [0] (Some open_txn).
Definition idle : Tracker.t := Tracker.Mk w0 {[ 0 := moved ]} ["work"] [0] None.
Definition tracking : Tracker.t :=
  Tracker.Mk w0 {[ 0 := moved; 1 := unmoved ]} ["work"] [0; 1] None.

(** The tracker of [busy] when the transaction log is write-protected,
    when the temporary file of the migration log is, and when an earlier
    state of the open transaction is on disk. *)
Definition protected : Tracker.t :=
  Tracker.Mk (World disk {[ ["work"; "transaction_log.json"] ]} 10 [])
             {[ 0 := moved ]} ["work"] [0] (Some open_txn).

Definition protected_log : Tracker.t :=
  Tracker.Mk (World disk {[ ["work"; "migration_log.tmp"] ]} 10 [])
             {[ 0 := moved ]} ["work"] [0] (Some open_txn).

Definition earlier : Txn.t Rec.t :=
  Txn.Mk "t0" "first" "1" [] Tx_in_progress None None None.

Definition logged : Tracker.t :=
  Tracker.Mk (World (<[ ["work"; "transaction_log.json"] :=
                         NFile (File (Json (DTransaction earlier)) 33188 1000000) ]> disk)
                    ∅ 10 [])
             {[ 0 := moved ]} ["work"] [0] (Some open_txn).

(** A second [SessionManager] over a work directory whose lock was
    written two seconds ago by the session [s1] of process 1. *)
Definition interrupted : Session.t :=
  Session.Mk "s1" "/test/project" "5" "active" "testing" [] [] [] []
             (Session.Stats 0 0 0 0) None None.

Definition locked_disk : gmap path node :=
  {[ ["work"] := NDir;
     ["work"; "session.lock"] :=
       NFile (File (Json (DLock (Lock.Mk "s1" "8" 1))) 33188 8000000);
     ["work"; "current_session.json"] :=
       NFile (File (Json (DSession interrupted)) 33188 8000000) ]}.

Definition second_instance : SessionManager.t :=
  SessionManager.Mk (World locked_disk ∅ 10 []) ["work"] 2 None false 30.

(** A rollback manager over the tracker [idle]. *)
Definition manager : Rollback.t := Rollback.Mk idle ["work"] [].

(** The first process, with its session under way. *)
Definition running : SessionManager.t :=
  SessionManager.Mk (World locked_disk ∅ 10 []) ["work"] 1 (Some interrupted) true 30.

(** An audit logger whose log of the day has its header line. *)
Definition audit_disk : gmap path node :=
  {[ ["work"] := NDir;
     ["work"; "audit"] := NDir;
     ["work"; "audit"; "audit_12.jsonl"] :=
       NFile (File (Json (DAudit [ {[ "type" := JStr "audit_log_header" ]} ]))
                   33188 9000000) ]}.

Definition audit : AuditLogger.t :=
  AuditLogger.Mk (World audit_disk ∅ 10 []) ["work"; "audit"]
                 ["work"; "audit"; "audit_12.jsonl"] false AuditLogger.default_config
                 1 "/home/user" ∅ "3.11.0" [].

(** The tracker of [idle] after [a.txt] was put back where it came from,
    and after the archived copy was changed. *)
Definition reversed : Tracker.t :=
  Tracker.Mk (World {[ ["work"] := NDir;
                       ["archive"] := NDir;
                       ["a.txt"] := NFile (File (Bytes "x") 33188 5000000) ]} ∅ 10 [])
             {[ 0 := moved ]} ["work"] [0] None.

Definition tampered : Tracker.t :=
  Tracker.Mk (World (<[ ["archive"; "a.txt"] := NFile (File (Bytes "y") 33188 6000000) ]> disk)
                    ∅ 10 [])
             {[ 0 := moved ]} ["work"] [0] None.

(** A session with three checkpoints, and the first process when
    [checkpoint.json] cannot be written. *)
Definition two_scans : Session.t :=
  Session.Mk "s1" "/test/project" "5" "active" "testing"
             [Session.Checkpoint "scan" "6" "first";
              Session.Checkpoint "scan" "7" "second";
              Session.Checkpoint "analyze" "8" "third"]
             [] [] [] (Session.Stats 0 0 0 0) None None.

Definition scanning : SessionManager.t :=
  SessionManager.Mk (World locked_disk ∅ 10 []) ["work"] 1 (Some two_scans) true 30.

Definition no_checkpoints : SessionManager.t :=
  SessionManager.Mk (World locked_disk {[ ["work"; "checkpoint.json"] ]} 10 [])
                    ["work"] 1 (Some interrupted) true 30.

(** A work directory whose migration log was cut short while being
    written. *)
Definition corrupt_log : Tracker.t :=
  Tracker.Mk (World (<[ ["work"; "migration_log.json"] :=
                         NFile (File (Bytes "[{") 33188 4000000) ]> disk) ∅ 10 [])
             ∅ ["work"] [] None.

(** A rollback manager whose history file was written nine seconds
    ago. *)
Definition old_history : Rollback.t :=
  Rollback.Mk
    (Tracker.Mk (World (<[ ["work"; "rollback_log.json"] :=
                            NFile (File (Json (DHistory [])) 33188 1000000) ]> disk) ∅ 10 [])
                ∅ ["work"] [] None)
    ["work"] [].

(** The same with an old rollback point beside the history, and the
    history file protected. *)
Definition protected_history : Rollback.t :=
  Rollback.Mk
    (Tracker.Mk (World (<[ ["work"; "rollback_1_rollback.json"] :=
                            NFile (File (Json (DPoint (Point.Mk "1_rollback" "Before" "1" "1" "active")))
                                        33188 1000000) ]>
                        (<[ ["work"; "rollback_log.json"] :=
                            NFile (File (Json (DHistory [])) 33188 1000000) ]> disk))
                       {[ ["work"; "rollback_log.json"] ]} 10 [])
                ∅ ["work"] [] None)
    ["work"] [].

(** The record of a deletion, which has no archive copy, and a rollback
    manager whose tracker holds it. *)
Definition deleted : Rec.t :=
  Rec.Mk "12" None Op_delete ["old.txt"] None
         (Some "sha256:o") 1 (Some "5") (Some 33188%N) "unused" no_metadata
         St_success (Some "13") None None None None None.

Definition after_delete : Rollback.t :=
  Rollback.Mk (Tracker.Mk w0 {[ 0 := deleted ]} ["work"] [0] None) ["work"] [].

(** A rollback manager with two moves on record: the file of the first,
    [a.txt], is no longer in the archive, the file of the second,
    [c.txt], is. *)
Definition moved_c : Rec.t :=
  Rec.Mk "3" None Op_move ["c.txt"] (Some ["archive"; "c.txt"])
         (Some "sha256:z") 1 None None "unused" no_metadata
         St_success (Some "4") None (Some "sha256:z") None None None.

Definition half_gone : Rollback.t :=
  Rollback.Mk
    (Tracker.Mk (World {[ ["work"] := NDir;
                          ["archive"] := NDir;
                          ["archive"; "c.txt"] := NFile (File (Bytes "z") 33188 5000000) ]}
                       ∅ 10 [])
                {[ 0 := moved; 1 := moved_c ]} ["work"] [0; 1] None)
    ["work"] [].

(** A work directory whose lock file was cut short while being written. *)
Definition garbled_lock : SessionManager.t :=
  SessionManager.Mk
    (World (<[ ["work"; "session.lock"] := NFile (File (Bytes "{") 33188 8000000) ]>
              locked_disk) ∅ 10 [])
    ["work"] 2 None false 30.

(** The logger of [audit] at the time its log is named after. *)
Definition audit_now : AuditLogger.t :=
  AuditLogger.Mk (World audit_disk ∅ 12 []) ["work"; "audit"]
                 ["work"; "audit"; "audit_12.jsonl"] false AuditLogger.default_config
                 1 "/home/user" ∅ "3.11.0" [].

(** The logger the day after: its current log is the one of day 9, and
    the log of day 12 is there already. *)
Definition stale_audit : AuditLogger.t :=
  AuditLogger.Mk (World (<[ ["work"; "audit"; "audit_9.jsonl"] :=
                             NFile (File (Json (DAudit [ {[ "type" := JStr "audit_log_header" ]} ]))
                                         33188 8000000) ]> audit_disk)
                        ∅ 10 [])
                 ["work"; "audit"] ["work"; "audit"; "audit_9.jsonl"] false
                 AuditLogger.default_config 1 "/home/user" ∅ "3.11.0" [].

End Ex.

(** * Auxiliary definitions for the statements *)

(** A method that never raises [RuntimeError]. *)
Definition no_runtime_error {S A} (m : M S A) : Prop :=
  ∀ s e s' msg, m s = (Raise e, s') → e ≠ RuntimeError msg.

(** A method that leaves its object and the world as they are. *)
Definition read_only {S A} (m : M S A) : Prop := ∀ s out s', m s = (out, s') → s' = s.



(** Whether [cleanup_old_rollback_points] removes [p]: a file last
    modified before [cutoff] that may be removed. *)
Definition removable (cutoff : Z) (denied : gset path) (fs : gmap path node) (p : path)
    : bool :=
  match fs !! p with
  | Some (NFile f) => bool_decide (f_mtime f < cutoff)%Z && bool_decide (p ∉ denied)
  | _ => false
  end.

(** The disk once [p] has been removed if it is such a file. *)
Definition swept (cutoff : Z) (denied : gset path) (fs : gmap path node) (p : path)
    : gmap path node :=
  if removable cutoff denied fs p then delete p fs else fs.

Section Outcomes.
Context `{PyLib}.

(** Whether [open(p, 'w')] goes through. *)
Definition can_write (p : path) (w : world) : bool :=
  match (check_writable p w).1 with
  | Return _ => true
  | Raise _ => false
  end.

(** The disk after [write_file p c]. *)
Definition written (p : path) (c : content) (w : world) : world :=
  let t := clock (w_tick w) in
  World (put_file p c t (put_file p (Bytes "") t (w_fs w))) (w_denied w) (w_tick w)
        (put_file p (Bytes "") t (w_fs w) :: w_fs w :: w_trace w).

(** The transaction as [json.dump] writes it, when every operation refers
    to a dict. *)
Definition txn_doc (h : gmap loc Rec.t) (txn : Txn.t loc) : option (Txn.t Rec.t) :=
  (λ rs, Txn.set_operations rs txn) <$> mapM (h !!.) (Txn.operations txn).

(** The state [_save_transaction] leaves: the transaction log is
    rewritten when that is possible, and nothing else changes. *)
Definition saved_transaction (s : Tracker.t) : Tracker.t :=
  match Tracker.current_transaction s with
  | None => s
  | Some txn =>
      match txn_doc (Tracker.heap s) txn with
      | Some d =>
          if can_write (Tracker.transaction_log_path s) (Tracker.env s)
          then Tracker.with_env
                 (written (Tracker.transaction_log_path s) (Json (DTransaction d))
                          (Tracker.env s)) s
          else s
      | None => s
      end
  end.

(** The transaction [start_transaction] installs. *)
Definition started_transaction (description : string) (s : Tracker.t) : Txn.t loc :=
  Txn.Mk (strftime "%Y%m%d_%H%M%S_" (clock (w_tick (Tracker.env s)))
          +:+ String.substring 0 8 (md5_hex description))
         description (isoformat (clock (S (w_tick (Tracker.env s))))) [] Tx_in_progress
         None None None.

(** The archive file of transaction [tid] can be written: the work
    directory exists, [transactions/] is a directory or can be made, and
    the file is neither protected nor a directory. *)
Definition archive_ready (s : Tracker.t) (tid : string) : bool :=
  is_dir (node_at (Tracker.work_dir s) (Tracker.env s))
  && match node_at (Tracker.archive_dir s) (Tracker.env s) with
     | None => bool_decide (Tracker.archive_dir s ∉ w_denied (Tracker.env s))
     | Some NDir => true
     | Some (NFile _) => false
     end
  && bool_decide (Tracker.archive_path_of s tid ∉ w_denied (Tracker.env s))
  && negb (is_dir (node_at (Tracker.archive_path_of s tid) (Tracker.env s))).

(** The states the disk was in while the world went from [w] to [w'],
    latest first, the one it started in last. *)
Definition during (w w' : world) : list (gmap path node) :=
  w_fs w' :: take (length (w_trace w') - length (w_trace w)) (w_trace w').

(** What a file holds in a given state of the disk. *)
Definition content_at (p : path) (fs : gmap path node) : option content :=
  match fs !! p with
  | Some (NFile f) => Some (f_content f)
  | _ => None
  end.

(** A method that changes nothing of the tracker but the world. *)
Definition env_only {A} (m : M Tracker.t A) : Prop :=
  ∀ s, ∃ out w', m s = (out, Tracker.with_env w' s).

(** The statuses a completed record can have. *)
Definition terminal (st : rec_status) : Prop := st = St_success ∨ st = St_failed.

(** An entry that [log_event] can have built from its arguments, before
    the checksum is attached. *)
Definition built_from (event_type : AuditLogger.AuditEvent) (description : string)
    (details : option (list (string * json))) (severity : string) (base : AuditLogger.entry) : Prop :=
  ∃ event_id timestamp context,
    base = AuditLogger.audit_entry_of event_id timestamp event_type description severity details context.

(** The lines of an audit log file. *)
Definition audit_lines (p : path) (fs : gmap path node) : list AuditLogger.entry :=
  match content_at p fs with
  | Some (Json (DAudit lines)) => lines
  | _ => []
  end.

(** The world a rollback manager acts on is that of its tracker. *)
Definition world_of (s : Rollback.t) : world :=
  Tracker.env (Rollback.migration_tracker s).

(** A computation after which every dict of the store is still there. *)
Definition keeps_dicts {S A} (heap_of : S → gmap loc Rec.t) (m : M S A) : Prop :=
  ∀ s out s' l, m s = (out, s') → is_Some (heap_of s !! l) → is_Some (heap_of s' !! l).

(** The dicts a rollback manager, and a call of [rollback_to_point],
    can reach. *)
Definition dicts_of (s : Rollback.t) : gmap loc Rec.t := Tracker.heap (Rollback.migration_tracker s).
Definition frame_dicts (f : Rollback.frame) : gmap loc Rec.t := dicts_of f.1.

End Outcomes.

(** * Properties *)

(** ** The monad *)

Lemma bind_return {S A B} (m : M S A) (k : A → M S B) s a s' :
  m s = (Return a, s') → bind m k s = k a s'.
Proof. intros Hm. unfold bind. by rewrite Hm. Qed.

Lemma bind_raise {S A B} (m : M S A) (k : A → M S B) s e s' :
  m s = (Raise e, s') → bind m k s = (Raise e, s').
Proof. intros Hm. unfold bind. by rewrite Hm. Qed.

Lemma try_except_return {S A} (m : M S A) h s a s' :
  m s = (Return a, s') → try_except m h s = (Return a, s').
Proof. intros Hm. unfold try_except. by rewrite Hm. Qed.

Lemma try_except_raise {S A} (m : M S A) h s e s' :
  m s = (Raise e, s') → try_except m h s = h e s'.
Proof. intros Hm. unfold try_except. by rewrite Hm. Qed.

Lemma bind_Return_inv {S A B} (m : M S A) (k : A → M S B) s b s' :
  bind m k s = (Return b, s') →
  ∃ a s1, m s = (Return a, s1) ∧ k a s1 = (Return b, s').
Proof.
  unfold bind. destruct (m s) as [[a|e] s1]; [eauto|done].
Qed.

Lemma bind_ret_l {S A B} (a : A) (k : A → M S B) : bind (ret a) k = k a.
Proof. reflexivity. Qed.

(** A handler that raises again is no handler. *)
Lemma try_except_reraise {S A} (m : M S A) s :
  try_except m (λ e, raise e) s = m s.
Proof. unfold try_except, raise. destruct (m s) as [[a|e] s']; reflexivity. Qed.

Lemma for_each_app {S A} (xs ys : list A) (body : A → M S unit) s :
  for_each (xs ++ ys) body s = (for_each xs body ;;; for_each ys body) s.
Proof.
  revert s. induction xs as [|x xs IH]; intros s.
  - reflexivity.
  - simpl. unfold bind. destruct (body x s) as [[[]|e] s1]; [|reflexivity].
    rewrite IH. reflexivity.
Qed.

(** ** The filesystem *)

Section FilesystemFacts.
Context `{PyLib}.

Lemma check_writable_state p w : (check_writable p w).2 = w.
Proof.
  unfold check_writable, raise, ret.
  repeat case_match; done.
Qed.

Lemma can_write_true p w :
  can_write p w = true → check_writable p w = (Return tt, w).
Proof.
  unfold can_write. pose proof (check_writable_state p w) as Hs.
  destruct (check_writable p w) as [[[]|e] w']; simpl in *; by subst.
Qed.

Lemma can_write_false p w :
  can_write p w = false → ∃ e, check_writable p w = (Raise e, w).
Proof.
  unfold can_write. pose proof (check_writable_state p w) as Hs.
  destruct (check_writable p w) as [[[]|e] w']; simpl in *; subst; eauto; done.
Qed.

Lemma write_file_ok p c w :
  can_write p w = true → write_file p c w = (Return tt, written p c w).
Proof.
  intros Hw%can_write_true. unfold write_file, written.
  rewrite (bind_return _ _ _ _ _ Hw). done.
Qed.

Lemma write_file_fail p c w :
  can_write p w = false → ∃ e, write_file p c w = (Raise e, w).
Proof.
  intros [e Hw]%can_write_false. exists e.
  unfold write_file. by rewrite (bind_raise _ _ _ _ _ Hw).
Qed.

Lemma written_lookup p c w :
  ∃ mode, w_fs (written p c w) !! p = Some (NFile (File c mode (clock (w_tick w)))).
Proof.
  unfold written, put_file; simpl. rewrite !lookup_insert_eq. eauto.
Qed.

Lemma written_lookup_ne p q c w :
  p ≠ q → w_fs (written p c w) !! q = w_fs w !! q.
Proof.
  intros Hne. unfold written, put_file; simpl. by rewrite !lookup_insert_ne.
Qed.

Lemma node_at_child p a w : node_at (child p a) w = w_fs w !! child p a.
Proof. unfold node_at, child. by destruct p. Qed.

Lemma child_ne p a : child p a ≠ p.
Proof.
  unfold child. intros Heq. apply (f_equal length) in Heq.
  rewrite length_app in Heq. simpl in Heq. lia.
Qed.

Lemma child_inj p q a b : child p a = child q b → p = q ∧ a = b.
Proof. unfold child. intros Heq. apply app_inj_tail in Heq. done. Qed.

Lemma parent_child p a : parent (child p a) = p.
Proof.
  unfold parent, child. rewrite length_app. simpl.
  replace (pred (length p + 1)) with (length p) by lia.
  by rewrite take_app_length.
Qed.

Lemma node_at_written_ne p q c w :
  p ≠ q → node_at q (written p c w) = node_at q w.
Proof.
  intros Hne. unfold node_at. destruct q; [done|]. by apply written_lookup_ne.
Qed.

Lemma can_write_intro p w :
  p ∉ w_denied w → node_at (parent p) w = Some NDir → is_dir (node_at p w) = false →
  can_write p w = true.
Proof.
  intros Hden Hpar Hnd. unfold can_write, check_writable.
  rewrite decide_False by done. rewrite Hpar, Hnd. done.
Qed.

(** Writability looks at the files and the protected paths only. *)
Lemma can_write_frame p fs d t tr t' tr' :
  can_write p (World fs d t tr) = can_write p (World fs d t' tr').
Proof.
  unfold can_write, check_writable, node_at, raise, ret; simpl.
  repeat case_match; done.
Qed.

End FilesystemFacts.

(** ** The tracker *)

Section TrackerFacts.
Context `{PyLib}.
Import Tracker.

Lemma deref_all_spec ls s :
  deref_all ls s =
    match mapM (heap s !!.) ls with
    | Some rs => (Return rs, s)
    | None => (Raise (RuntimeError "no such object"), s)
    end.
Proof.
  induction ls as [|l ls IH]; simpl; [done|].
  unfold bind, deref. destruct (heap s !! l) as [r|]; simpl; [|done].
  unfold ret, raise. rewrite IH. destruct (mapM _ ls); simpl; done.
Qed.

Lemma snapshot_spec txn s :
  snapshot txn s =
    match txn_doc (heap s) txn with
    | Some d => (Return d, s)
    | None => (Raise (RuntimeError "no such object"), s)
    end.
Proof.
  unfold snapshot, txn_doc, bind. rewrite deref_all_spec.
  destruct (mapM _ _); done.
Qed.

Lemma _save_transaction_spec s :
  _save_transaction s = (Return tt, saved_transaction s).
Proof.
  unfold _save_transaction, saved_transaction, bind, gets.
  destruct (current_transaction s) as [txn|]; [|done].
  unfold try_except, bind, gets. rewrite snapshot_spec.
  destruct (txn_doc (heap s) txn) as [d|]; [|done].
  unfold io, zoom, json_dump.
  destruct (can_write (transaction_log_path s) (env s)) eqn:Hw.
  - rewrite write_file_ok by done. done.
  - destruct (write_file_fail _ (Json (DTransaction d)) _ Hw) as [e ->].
    by destruct s.
Qed.

Lemma filter_failed_nil h (ops : list loc) :
  filter (λ op, status_of h op ≠ Some St_success) ops = []
  ↔ Forall (λ op, status_of h op = Some St_success) ops.
Proof.
  induction ops as [|op ops IH]; [done|].
  rewrite filter_cons. rewrite Forall_cons.
  destruct (decide (status_of h op ≠ Some St_success)) as [Hn|Hy].
  - split; [done|]. intros [? _]. done.
  - apply dec_stable in Hy. rewrite IH. tauto.
Qed.

Lemma _archive_transaction_spec s txn d :
  current_transaction s = Some txn →
  txn_doc (heap s) txn = Some d →
  archive_ready s (Txn.id txn) = true →
  ∃ w' mode mtime,
    _archive_transaction s = (Return tt, with_env w' s)
    ∧ node_at (archive_path_of s (Txn.id txn)) w'
      = Some (NFile (File (Json (DTransaction d)) mode mtime)).
Proof.
  intros Hcur Hdoc Hready.
  unfold archive_ready in Hready.
  apply andb_prop in Hready as [Hready Hnd].
  apply andb_prop in Hready as [Hready Hden%bool_decide_eq_true].
  apply andb_prop in Hready as [Hwd Hdir].
  unfold _archive_transaction, bind, gets. rewrite Hcur.
  unfold io at 1, zoom.
  assert (∃ w1, mkdir (archive_dir s) (env s) = (Return tt, w1)
            ∧ node_at (archive_dir s) w1 = Some NDir
            ∧ w_denied w1 = w_denied (env s)
            ∧ node_at (archive_path_of s (Txn.id txn)) w1
              = node_at (archive_path_of s (Txn.id txn)) (env s)) as (w1 & Hmk & Hd1 & Hden1 & Hfr1).
  { unfold mkdir. destruct (node_at (archive_dir s) (env s)) as [[f|]|] eqn:Hn; [done|by eauto|].
    unfold archive_dir at 1. rewrite parent_child.
    destruct (node_at (work_dir s) (env s)) as [[?|]|]; try done.
    apply bool_decide_eq_true in Hdir. rewrite decide_False by done.
    eexists. split; [reflexivity|]. simpl. unfold archive_dir, archive_path_of.
    rewrite !node_at_child. simpl. rewrite lookup_insert_eq.
    repeat split; try done. rewrite lookup_insert_ne; [done|]. apply not_eq_sym, child_ne. }
  rewrite Hmk. simpl. rewrite snapshot_spec. simpl. rewrite Hdoc.
  unfold io, zoom, json_dump. simpl.
  assert (can_write (archive_path_of s (Txn.id txn)) w1 = true) as Hcw.
  { apply can_write_intro.
    - by rewrite Hden1.
    - unfold archive_path_of. by rewrite parent_child.
    - rewrite Hfr1. by apply negb_true_iff. }
  rewrite (write_file_ok _ _ _ Hcw).
  destruct (written_lookup (archive_path_of s (Txn.id txn)) (Json (DTransaction d)) w1) as [mode Hl].
  eexists _, mode, _. split; [reflexivity|].
  unfold archive_path_of. rewrite node_at_child. apply Hl.
Qed.

Lemma archive_ready_frame s s' tid :
  work_dir s' = work_dir s →
  w_denied (env s') = w_denied (env s) →
  (∀ q, q ≠ transaction_log_path s → node_at q (env s') = node_at q (env s)) →
  archive_ready s' tid = archive_ready s tid.
Proof.
  intros Hwd Hden Hfr. unfold archive_ready, archive_path_of, archive_dir.
  rewrite Hwd, Hden.
  rewrite (Hfr (work_dir s)).
  2:{ unfold transaction_log_path. intros Heq. symmetry in Heq. by eapply child_ne. }
  rewrite (Hfr (child (work_dir s) "transactions")).
  2:{ unfold transaction_log_path. intros [_ ?]%child_inj. done. }
  rewrite (Hfr (child (child (work_dir s) "transactions") (tid +:+ ".json"))).
  2:{ unfold transaction_log_path. intros [Heq _]%child_inj. by eapply child_ne. }
  done.
Qed.

Lemma saved_transaction_frame s :
  work_dir (saved_transaction s) = work_dir s
  ∧ heap (saved_transaction s) = heap s
  ∧ migrations (saved_transaction s) = migrations s
  ∧ current_transaction (saved_transaction s) = current_transaction s
  ∧ w_denied (env (saved_transaction s)) = w_denied (env s)
  ∧ w_tick (env (saved_transaction s)) = w_tick (env s)
  ∧ (∀ q, q ≠ transaction_log_path s →
       node_at q (env (saved_transaction s)) = node_at q (env s)).
Proof.
  unfold saved_transaction.
  destruct (current_transaction s) as [txn|] eqn:Hc; [|done].
  destruct (txn_doc _ _); [|done].
  destruct (can_write _ _); [|done].
  simpl. repeat split; try done.
  intros q Hq. by apply node_at_written_ne.
Qed.

Lemma mapM_all_success h (ops : list loc) rs :
  mapM (h !!.) ops = Some rs →
  Forall (λ op, status_of h op = Some St_success) ops
  ↔ Forall (λ r, Rec.status r = St_success) rs.
Proof.
  intros Hm%mapM_Some_1. induction Hm as [|op r ops rs Hop _ IH]; [done|].
  rewrite !Forall_cons, IH. unfold status_of. rewrite Hop. simpl.
  split; intros [? ?]; split; congruence.
Qed.

Lemma some_failed_iff (rs : list Rec.t) :
  Forall (λ r, Rec.status r = St_success ∨ Rec.status r = St_failed) rs →
  ¬ Forall (λ r, Rec.status r = St_success) rs
  ↔ 0 < length (filter (λ r, Rec.status r = St_failed) rs).
Proof.
  induction 1 as [|r rs Hr _ IH]; simpl.
  - split; [intros Hn; by destruct Hn|lia].
  - rewrite filter_cons, Forall_cons.
    destruct (decide (Rec.status r = St_failed)) as [Hf|Hf]; simpl.
    + split; [lia|]. intros _ [Hs _]. congruence.
    + destruct Hr as [Hs|]; [|done]. rewrite <- IH. tauto.
Qed.

Lemma with_env_with_env w w' s : with_env w (with_env w' s) = with_env w s.
Proof. done. Qed.

Lemma env_only_io {A} (m : M world A) : env_only (io m).
Proof. intros s. unfold io, zoom. destruct (m (env s)) as [r w']. eauto. Qed.

Lemma env_only_ret {A} (a : A) : env_only (ret a).
Proof. intros s. exists (Return a), (env s). destruct s; reflexivity. Qed.

Lemma env_only_raise {A} e : env_only (@raise t A e).
Proof. intros s. exists (Raise e), (env s). destruct s; reflexivity. Qed.

Lemma env_only_bind {A B} (m : M t A) (k : A → M t B) :
  env_only m → (∀ a, env_only (k a)) → env_only (bind m k).
Proof.
  intros Hm Hk s. destruct (Hm s) as (out & w1 & Hrun). unfold bind. rewrite Hrun.
  destruct out as [a|e]; [|eauto].
  destruct (Hk a (with_env w1 s)) as (out2 & w2 & Hrun2). rewrite Hrun2. eauto.
Qed.

Lemma env_only_try {A} (m : M t A) h :
  env_only m → (∀ e, env_only (h e)) → env_only (try_except m h).
Proof.
  intros Hm Hh s. destruct (Hm s) as (out & w1 & Hrun). unfold try_except. rewrite Hrun.
  destruct out as [a|e]; [eauto|].
  destruct (Hh e (with_env w1 s)) as (out2 & w2 & Hrun2). rewrite Hrun2. eauto.
Qed.

Lemma env_only_gets {A B} (f : t → A) (k : A → M t B) :
  (∀ a, env_only (k a)) → env_only (bind (gets f) k).
Proof. intros Hk s. unfold bind, gets. apply Hk. Qed.

Lemma env_only_deref_all ls : env_only (deref_all ls).
Proof.
  intros s. rewrite deref_all_spec. exists (match mapM (heap s !!.) ls with Some rs => Return rs | None => Raise (RuntimeError "no such object") end), (env s).
  destruct s; simpl. destruct (mapM _ _); reflexivity.
Qed.

Lemma env_only__save_migrations : env_only _save_migrations.
Proof.
  unfold _save_migrations. apply env_only_try; [|intros; apply env_only_raise].
  repeat (apply env_only_gets; intros).
  apply env_only_bind; [apply env_only_deref_all|intros].
  apply env_only_bind; [apply env_only_io|intros]. apply env_only_io.
Qed.

Lemma env_only__save_transaction : env_only _save_transaction.
Proof.
  unfold _save_transaction. apply env_only_gets. intros [txn|]; [|apply env_only_ret].
  apply env_only_try; [|intros; apply env_only_ret].
  apply env_only_gets; intros.
  apply env_only_bind; [|intros; apply env_only_io].
  unfold snapshot. apply env_only_bind; [apply env_only_deref_all|intros; apply env_only_ret].
Qed.


Lemma env_only_tail {A} (m : M t A) s out s' :
  env_only m → m s = (out, s') →
  heap s' = heap s ∧ migrations s' = migrations s
  ∧ current_transaction s' = current_transaction s ∧ work_dir s' = work_dir s.
Proof.
  intros Hm Hrun. destruct (Hm s) as (out' & w' & Hrun'). rewrite Hrun' in Hrun.
  inversion Hrun. done.
Qed.

Lemma saves_keep_heap s out s' :
  (_save_migrations ;;; _save_transaction) s = (out, s') → heap s' = heap s.
Proof.
  intros Hrun. eapply env_only_tail in Hrun; [by destruct Hrun|].
  apply env_only_bind; [apply env_only__save_migrations|].
  intros _. apply env_only__save_transaction.
Qed.

Ltac close_case Hnode :=
  repeat split; intros; simpl in *;
  repeat match goal with
         | Hp : Some _ = Some _ |- _ => injection Hp as <-
         | Hf : node_at ?p ?w = Some (NFile _) |- _ =>
             lazymatch Hf with
             | Hnode => fail
             | _ => rewrite Hnode in Hf; first [injection Hf as <- | discriminate Hf]
             end
         | Hn : ∀ p0, Some ?p = Some p0 → node_at p0 _ = None |- _ =>
             specialize (Hn p eq_refl); rewrite Hnode in Hn; discriminate Hn
         end;
  try done; try (by left); try (by right);
  try (rewrite bool_decide_eq_true_2 by done; done);
  try (rewrite bool_decide_eq_false_2 by done; done).

Lemma complete_migration_outcome (l : loc) (error : option string) (s : t) (r : Rec.t)
    out s' :
  heap s !! l = Some r →
  complete_migration l true error s = (out, s') →
  ∃ r', heap s' !! l = Some r'
    ∧ terminal (Rec.status r')
    ∧ Rec.operation r' = Rec.operation r
    ∧ Rec.source_hash r' = Rec.source_hash r
    ∧ Rec.dest_path r' = Rec.dest_path r
    ∧ (∀ p f, Rec.dest_path r = Some p → node_at p (env s) = Some (NFile f) →
         Rec.dest_hash r' = Some (sha256_hex (bytes_of (f_content f)))
         ∧ (hash_checked (Rec.operation r) = true → truthy (Rec.source_hash r) = true →
            if bool_decide (Rec.source_hash r = Rec.dest_hash r')
            then Rec.status r' = St_success
            else Rec.status r' = St_failed
                 ∧ Rec.error r' = Some "Hash verification failed"))
    ∧ ((∀ p, Rec.dest_path r = Some p → node_at p (env s) = None) →
       Rec.status r' = St_success ∧ Rec.dest_hash r' = Rec.dest_hash r).
Proof.
  intros Hl Hrun.
  destruct s as [[fs d tk tr] h wd ms cur]. simpl in Hl.
  unfold complete_migration in Hrun.
  unfold bind at 1 in Hrun. unfold deref at 1 in Hrun. simpl in Hrun. rewrite Hl in Hrun.
  simpl in Hrun.
  unfold bind at 1 in Hrun. unfold update at 1, modify in Hrun.
  unfold bind at 1 in Hrun. unfold io at 1, zoom, now_iso, now in Hrun.
  unfold bind at 1, ret in Hrun. simpl in Hrun.
  unfold bind at 1 in Hrun. unfold update at 1, modify in Hrun. simpl in Hrun.
  unfold with_heap, with_env in Hrun; simpl in Hrun.
  set (ts := isoformat (clock tk)) in *.
  set (h2 := alter (Rec.set_completed_at ts) l (alter (Rec.set_status St_success) l h)) in *.
  set (h3 := if truthy error then alter (Rec.set_error (default "" error)) l h2 else h2).
  set (r3 := (if truthy error then Rec.set_error (default "" error) else id)
               (Rec.set_completed_at ts (Rec.set_status St_success r))).
  assert (h3 !! l = Some r3) as Hl3.
  { unfold h3, r3, h2. destruct (truthy error); rewrite !lookup_alter_eq, Hl; done. }
  assert (Rec.status r3 = St_success ∧ Rec.operation r3 = Rec.operation r
          ∧ Rec.source_hash r3 = Rec.source_hash r ∧ Rec.dest_path r3 = Rec.dest_path r
          ∧ Rec.dest_hash r3 = Rec.dest_hash r) as (Hst3 & Hop3 & Hsh3 & Hdp3 & Hdh3).
  { unfold r3. by destruct (truthy error). }
  unfold bind at 1 in Hrun.
  assert ((if truthy error
           then update l (Rec.set_error (default "" error))
           else λ s0 : t, (Return (), s0))
            (Mk (World fs d (S tk) tr) h2 wd ms cur)
          = (Return tt, Mk (World fs d (S tk) tr) h3 wd ms cur)) as Herr.
  { unfold h3. by destruct (truthy error). }
  unfold ret in Hrun. unfold with_heap, with_env in Hrun; simpl in Hrun.
  rewrite Herr in Hrun. clear Herr.
  unfold bind at 1 in Hrun. unfold deref at 1 in Hrun. simpl in Hrun.
  rewrite Hl3 in Hrun. simpl in Hrun.
  unfold bind at 1 in Hrun. rewrite Hdp3 in Hrun.
  destruct (Rec.dest_path r) as [p|] eqn:Hdp.
  2:{ simpl in Hrun. apply saves_keep_heap in Hrun. simpl in Hrun.
      exists r3. rewrite Hrun. repeat split; try done. by left. }
  unfold bind at 1 in Hrun. unfold io at 1, zoom, path_exists, gets in Hrun.
  simpl in Hrun.
  replace (node_at p (World fs d (S tk) tr)) with (node_at p (World fs d tk tr)) in Hrun
    by (by destruct p).
  destruct (node_at p (World fs d tk tr)) as [[f|]|] eqn:Hnode.
  - (* a file: it is hashed *)
    rewrite bool_decide_eq_true_2 in Hrun by eauto.
    unfold bind at 1 in Hrun. unfold io at 1, zoom, _calculate_file_hash in Hrun.
    unfold bind at 1, read_file in Hrun. simpl in Hrun.
    replace (node_at p (World fs d (S tk) tr)) with (node_at p (World fs d tk tr)) in Hrun
      by (by destruct p).
    rewrite Hnode in Hrun. unfold ret in Hrun. simpl in Hrun.
    set (hh := sha256_hex (bytes_of (f_content f))) in *.
    unfold bind at 1 in Hrun. unfold update at 1, modify in Hrun. simpl in Hrun.
    rewrite Hsh3, Hop3 in Hrun.
    destruct (truthy (Rec.source_hash r) && hash_checked (Rec.operation r)) eqn:Hchk.
    + destruct (decide (Rec.source_hash r = Some hh)) as [Heq|Hne].
      * rewrite bool_decide_eq_false_2 in Hrun by (intros Hn; by apply Hn).
        apply saves_keep_heap in Hrun. simpl in Hrun.
        exists (Rec.set_dest_hash hh r3). rewrite Hrun, lookup_alter_eq, Hl3.
        close_case Hnode.
      * rewrite bool_decide_eq_true_2 in Hrun by done.
        unfold bind at 1 in Hrun. unfold bind at 1 in Hrun.
        unfold update, modify in Hrun. simpl in Hrun.
        apply saves_keep_heap in Hrun. simpl in Hrun.
        exists (Rec.set_error "Hash verification failed"
                  (Rec.set_status St_failed (Rec.set_dest_hash hh r3))).
        rewrite Hrun, !lookup_alter_eq, Hl3.
        close_case Hnode.
    + apply saves_keep_heap in Hrun. simpl in Hrun.
      exists (Rec.set_dest_hash hh r3). rewrite Hrun, lookup_alter_eq, Hl3.
      close_case Hnode.
      all: match goal with
           | Hc : hash_checked _ = true, Ht : truthy _ = true |- _ =>
               rewrite Hc, Ht in Hchk; discriminate
           end.
  - (* a directory: hashing raises *)
    rewrite bool_decide_eq_true_2 in Hrun by eauto.
    unfold bind at 1 in Hrun. unfold bind at 1 in Hrun.
    unfold io at 1, zoom, _calculate_file_hash in Hrun.
    unfold bind at 1, read_file in Hrun. simpl in Hrun.
    replace (node_at p (World fs d (S tk) tr)) with (node_at p (World fs d tk tr)) in Hrun
      by (by destruct p).
    rewrite Hnode in Hrun. unfold raise in Hrun. simpl in Hrun.
    inversion Hrun; subst. simpl.
    exists r3. close_case Hnode.
  - (* absent: the reported success stands *)
    rewrite bool_decide_eq_false_2 in Hrun by (intros [? ?]; done).
    simpl in Hrun. apply saves_keep_heap in Hrun. simpl in Hrun.
    exists r3. rewrite Hrun. close_case Hnode.
Qed.

Lemma path_exists_absent p s :
  node_at p (env s) = None → io (path_exists p) s = (Return false, s).
Proof.
  intros Hn. unfold io, zoom, path_exists, gets. rewrite Hn.
  rewrite bool_decide_eq_false_2 by (intros [? ?]; done). by destruct s.
Qed.

Lemma track_migration_pending source_path dest_path operation reason md s l s' :
  track_migration source_path dest_path operation reason md s = (Return l, s') →
  ∃ r, heap s' !! l = Some r
    ∧ heap s !! l = None
    ∧ Rec.status r = St_pending
    ∧ Rec.dest_hash r = None
    ∧ Rec.operation r = operation
    ∧ Rec.source_path r = source_path
    ∧ Rec.dest_path r = dest_path
    ∧ migrations s' = migrations s ++ [l]
    ∧ (node_at source_path (env s) = None →
       Rec.source_hash r = None ∧ Rec.file_modified r = None
       ∧ Rec.file_permissions r = None ∧ Rec.file_size r = 0%N).
Proof.
  intros Hrun. unfold track_migration in Hrun. rewrite try_except_reraise in Hrun.
  apply bind_Return_inv in Hrun as (hashable & s1 & H1 & Hrun).
  apply bind_Return_inv in Hrun as (source_hash & s2 & H2 & Hrun).
  apply bind_Return_inv in Hrun as (present & s3 & H3 & Hrun).
  apply bind_Return_inv in Hrun as (fm & s4 & H4 & Hrun).
  apply bind_Return_inv in Hrun as (ts & s5 & H5 & Hrun).
  assert (node_at source_path (env s) = None → source_hash = None ∧ fm = None) as Hmissing.
  { intros Hn. rewrite (path_exists_absent _ _ Hn) in H1. inversion H1; subst hashable s1.
    unfold ret in H2. inversion H2; subst source_hash s2.
    rewrite (path_exists_absent _ _ Hn) in H3. inversion H3; subst present s3.
    unfold ret in H4. by inversion H4. }
  assert (heap s5 = heap s ∧ migrations s5 = migrations s) as [Hh5 Hm5].
  { pose proof (env_only_tail _ _ _ _ (env_only_io _) H1) as (? & ? & ? & ?).
    assert (env_only (if hashable
                      then h <- io (_calculate_file_hash source_path);; ret (Some h)
                      else ret None)) as He2.
    { destruct hashable; [|apply env_only_ret].
      apply env_only_bind; [apply env_only_io|intros; apply env_only_ret]. }
    pose proof (env_only_tail _ _ _ _ He2 H2) as (? & ? & ? & ?).
    pose proof (env_only_tail _ _ _ _ (env_only_io _) H3) as (? & ? & ? & ?).
    assert (env_only (if present then io (_get_file_metadata source_path) else ret None)) as He4.
    { destruct present; [apply env_only_io|apply env_only_ret]. }
    pose proof (env_only_tail _ _ _ _ He4 H4) as (? & ? & ? & ?).
    pose proof (env_only_tail _ _ _ _ (env_only_io _) H5) as (? & ? & ? & ?).
    split; congruence. }
  apply bind_Return_inv in Hrun as (cur & s5' & Hc & Hrun).
  unfold gets in Hc. inversion Hc; subst cur s5'. clear Hc.
  apply bind_Return_inv in Hrun as (l0 & s6 & Ha & Hrun).
  unfold alloc in Ha. inversion Ha; subst l0 s6. clear Ha.
  set (l0 := fresh (dom (heap s5))) in *.
  set (rec := Rec.Mk _ _ _ _ _ _ _ _ _ _ _ _ _ _ _ _ _ _) in *.
  set (s6 := with_heap (<[l0 := rec]> (heap s5)) s5) in *.
  apply bind_Return_inv in Hrun as ([] & s7 & H7 & Hrun).
  assert (heap s7 = heap s6 ∧ migrations s7 = migrations s6) as [Hh7 Hm7].
  { destruct (current_transaction s5) as [txn|].
    - unfold bind, modify in H7. simpl in H7. rewrite _save_transaction_spec in H7.
      inversion H7; subst.
      pose proof (saved_transaction_frame
                    (with_current (Some (Txn.set_operations (Txn.operations txn ++ [l0]) txn)) s6))
        as (_ & ? & ? & _). done.
    - inversion H7. done. }
  apply bind_Return_inv in Hrun as ([] & s8 & H8 & Hrun).
  unfold modify in H8. inversion H8; subst s8. clear H8.
  apply bind_Return_inv in Hrun as ([] & s9 & H9 & Hrun).
  inversion Hrun; subst l s'. clear Hrun.
  pose proof (env_only_tail _ _ _ _ env_only__save_migrations H9) as (Hh8 & Hm8 & _ & _).
  simpl in Hh8, Hm8.
  exists rec. rewrite Hh8, Hh7, Hm8, Hm7. simpl. rewrite lookup_insert_eq.
  repeat split; try done.
  - rewrite <- Hh5. apply not_elem_of_dom, is_fresh.
  - by rewrite Hm5.
  - by destruct (Hmissing ltac:(done)) as [-> _].
  - by destruct (Hmissing ltac:(done)) as [_ ->].
  - by destruct (Hmissing ltac:(done)) as [_ ->].
  - by destruct (Hmissing ltac:(done)) as [_ ->].
Qed.
Lemma _save_transaction_swallows s txn :
  current_transaction s = Some txn →
  can_write (transaction_log_path s) (env s) = false →
  _save_transaction s = (Return tt, s).
Proof.
  intros Hcur Hw. rewrite _save_transaction_spec. unfold saved_transaction.
  rewrite Hcur, Hw. by destruct (txn_doc _ _).
Qed.

Lemma _save_migrations_propagates s rs :
  mapM (heap s !!.) (migrations s) = Some rs →
  can_write (child (work_dir s) "migration_log.tmp") (env s) = false →
  ∃ e, _save_migrations s = (Raise e, s).
Proof.
  intros Hrs Hw. unfold _save_migrations. rewrite try_except_reraise.
  unfold bind, gets. rewrite deref_all_spec, Hrs.
  unfold io, zoom, json_dump.
  destruct (write_file_fail _ (Json (DMigrations rs)) _ Hw) as [e ->].
  exists e. by destruct s.
Qed.

(** The disk states of a successful [_save_transaction]: the log is
    first cut to nothing, then filled. *)
Lemma _save_transaction_in_place s txn d :
  current_transaction s = Some txn →
  txn_doc (heap s) txn = Some d →
  can_write (transaction_log_path s) (env s) = true →
  ∃ s' fs_mid mode,
    _save_transaction s = (Return tt, s')
    ∧ during (env s) (env s') = [w_fs (env s'); fs_mid; w_fs (env s)]
    ∧ fs_mid !! transaction_log_path s
      = Some (NFile (File (Bytes "") mode (clock (w_tick (env s)))))
    ∧ w_fs (env s') !! transaction_log_path s
      = Some (NFile (File (Json (DTransaction d)) mode (clock (w_tick (env s))))).
Proof.
  intros Hcur Hdoc Hw. rewrite _save_transaction_spec. unfold saved_transaction.
  rewrite Hcur, Hdoc, Hw.
  eexists _, _, _. split; [reflexivity|]. simpl.
  split; [|split].
  - unfold during. simpl.
    replace (S (S (length (w_trace (env s)))) - length (w_trace (env s))) with 2 by lia.
    reflexivity.
  - unfold put_file. rewrite lookup_insert_eq. reflexivity.
  - unfold put_file. rewrite !lookup_insert_eq. reflexivity.
Qed.


Lemma rename_file_cases src dst w f :
  node_at src w = Some (NFile f) →
  (∃ e, rename_node src dst w = (Raise e, w))
  ∨ rename_node src dst w
    = (Return tt, World (<[dst := NFile f]> (delete src (w_fs w))) (w_denied w) (w_tick w)
                        (w_fs w :: w_trace w)).
Proof.
  intros Hsrc. unfold rename_node. rewrite Hsrc.
  destruct (decide (dst ∈ w_denied w)); [left; eauto|].
  destruct (node_at (parent dst) w) as [[?|]|]; [left; eauto| |left; eauto].
  destruct (node_at dst w) as [[?|]|]; [right; done|left; eauto|right; done].
Qed.

Lemma during_refl w : during w w = [w_fs w].
Proof. unfold during. by rewrite Nat.sub_diag. Qed.

Lemma _save_migrations_atomic s out s' :
  _save_migrations s = (out, s') →
  ∀ fs, fs ∈ during (env s) (env s') →
    fs !! migration_log_path s = w_fs (env s) !! migration_log_path s
    ∨ ∃ rs mode mtime,
        mapM (heap s !!.) (migrations s) = Some rs
        ∧ fs !! migration_log_path s
          = Some (NFile (File (Json (DMigrations rs)) mode mtime)).
Proof.
  intros Hrun fs Hfs. unfold _save_migrations in Hrun. rewrite try_except_reraise in Hrun.
  unfold bind at 1 2 3 4, gets in Hrun. rewrite deref_all_spec in Hrun.
  destruct (mapM (heap s !!.) (migrations s)) as [rs|] eqn:Hrs.
  2:{ inversion Hrun; subst. rewrite during_refl in Hfs.
      apply list_elem_of_singleton in Hfs. subst. by left. }
  set (tmp := child (work_dir s) "migration_log.tmp") in *.
  assert (tmp ≠ migration_log_path s) as Hne.
  { unfold tmp, migration_log_path. intros [_ ?]%child_inj. done. }
  unfold bind at 1 in Hrun. unfold io at 1, zoom, json_dump in Hrun.
  destruct (can_write tmp (env s)) eqn:Hw.
  2:{ destruct (write_file_fail _ (Json (DMigrations rs)) _ Hw) as [e He].
      rewrite He in Hrun. inversion Hrun; subst. simpl in Hfs.
      rewrite during_refl in Hfs. apply list_elem_of_singleton in Hfs. subst. by left. }
  rewrite (write_file_ok _ _ _ Hw) in Hrun. simpl in Hrun.
  unfold io, zoom in Hrun. simpl in Hrun.
  destruct (written_lookup tmp (Json (DMigrations rs)) (env s)) as [mode Hl].
  destruct (rename_file_cases tmp (migration_log_path s) (written tmp (Json (DMigrations rs)) (env s))
              (File (Json (DMigrations rs)) mode (clock (w_tick (env s)))))
    as [[e He]|Hok].
  { unfold tmp. rewrite node_at_child. apply Hl. }
  - fold tmp in He. rewrite He in Hrun. inversion Hrun; subst. simpl in Hfs.
    unfold during in Hfs. simpl in Hfs.
    replace (S (S (length (w_trace (env s)))) - length (w_trace (env s))) with 2 in Hfs by lia.
    simpl in Hfs. left.
    apply elem_of_cons in Hfs as [->|Hfs]; [| apply elem_of_cons in Hfs as [->|Hfs]];
      [| |apply list_elem_of_singleton in Hfs; by subst];
      unfold put_file; by rewrite ?lookup_insert_ne by done.
  - fold tmp in Hok. rewrite Hok in Hrun. inversion Hrun; subst. simpl in Hfs.
    unfold during in Hfs. simpl in Hfs.
    replace (S (S (S (length (w_trace (env s))))) - length (w_trace (env s))) with 3 in Hfs by lia.
    simpl in Hfs.
    apply elem_of_cons in Hfs as [->|Hfs].
    { right. exists rs, mode, (clock (w_tick (env s))). split; [done|].
      by rewrite lookup_insert_eq. }
    left.
    apply elem_of_cons in Hfs as [->|Hfs]; [| apply elem_of_cons in Hfs as [->|Hfs]];
      [| |apply list_elem_of_singleton in Hfs; by subst];
      unfold put_file; by rewrite ?lookup_insert_ne by done.
Qed.

(** [start_transaction] always returns. *)
Lemma start_transaction_returns description s :
  ∃ tid s', start_transaction description s = (Return tid, s').
Proof.
  unfold start_transaction. eexists _, _.
  unfold bind at 1. unfold io at 1, zoom, now; simpl.
  unfold bind at 1. unfold io at 1, zoom, now_iso, now, bind, ret; simpl.
  unfold modify; simpl. rewrite _save_transaction_spec. reflexivity.
Qed.

Lemma start_transaction_id description s :
  (start_transaction description s).1
  = Return (strftime "%Y%m%d_%H%M%S_" (clock (w_tick (env s)))
            +:+ String.substring 0 8 (md5_hex description)).
Proof.
  unfold start_transaction.
  unfold bind at 1. unfold io at 1, zoom, now; simpl.
  unfold bind at 1. unfold io at 1, zoom, now_iso, now, bind, ret; simpl.
  unfold modify; simpl. rewrite _save_transaction_spec. reflexivity.
Qed.

Lemma ro_ret {S A} (a : A) : read_only (@ret S A a).
Proof. intros s out s'. unfold ret. by intros [= <- <-]. Qed.

Lemma ro_raise {S A} e : read_only (@raise S A e).
Proof. intros s out s'. unfold raise. by intros [= <- <-]. Qed.

Lemma ro_gets {S A} (f : S → A) : read_only (gets f).
Proof. intros s out s'. unfold gets. by intros [= <- <-]. Qed.

Lemma ro_bind {S A B} (m : M S A) (k : A → M S B) :
  read_only m → (∀ a, read_only (k a)) → read_only (bind m k).
Proof.
  intros Hm Hk s out s'. unfold bind.
  destruct (m s) as [[a|e] s1] eqn:Hrun.
  - apply Hm in Hrun as ->. apply Hk.
  - apply Hm in Hrun as ->. by intros [= <- <-].
Qed.

Lemma ro_io {A} (m : M world A) : read_only m → read_only (io m).
Proof.
  intros Hm s out s'. unfold io, zoom.
  destruct (m (env s)) as [r w] eqn:Hrun. apply Hm in Hrun as ->.
  intros [= <- <-]. by destruct s.
Qed.

Lemma ro_deref l : read_only (deref l).
Proof.
  intros s out s'. unfold deref.
  destruct (heap s !! l); [apply ro_ret|apply ro_raise].
Qed.

Lemma ro_path_exists p : read_only (path_exists p).
Proof. apply ro_gets. Qed.

Lemma ro_read_file p : read_only (read_file p).
Proof.
  intros w out w'. unfold read_file.
  destruct (node_at p w) as [[?|]|]; [apply ro_ret|apply ro_raise|apply ro_raise].
Qed.

Lemma ro__calculate_file_hash p : read_only (_calculate_file_hash p).
Proof. apply ro_bind; [apply ro_read_file|intros; apply ro_ret]. Qed.

Lemma ro_verify_one m : read_only (verify_one m).
Proof.
  unfold verify_one. apply ro_bind; [apply ro_deref|intros r].
  case_bool_decide; [apply ro_ret|].
  apply ro_bind.
  { destruct (Rec.dest_path r) as [d|]; [|apply ro_ret].
    destruct (truthy (Rec.dest_hash r)); [|apply ro_ret].
    apply ro_bind; [apply ro_io, ro_path_exists|intros []].
    - apply ro_bind; [apply ro_io, ro__calculate_file_hash|intros h].
      case_bool_decide; apply ro_ret.
    - apply ro_ret. }
  intros found. apply ro_bind; [|intros; apply ro_ret].
  case_bool_decide; [|apply ro_ret].
  apply ro_bind; [apply ro_io, ro_path_exists|intros []; apply ro_ret].
Qed.

Lemma ro_verify_each ms : read_only (verify_each ms).
Proof.
  induction ms as [|m ms IH]; [apply ro_ret|]. simpl.
  apply ro_bind; [apply ro_verify_one|intros found].
  apply ro_bind; [exact IH|intros; apply ro_ret].
Qed.

Lemma io_path_exists_run p s :
  io (path_exists p) s = (Return (bool_decide (is_Some (node_at p (env s)))), s).
Proof. unfold io, zoom, path_exists, gets. by destruct s. Qed.

(** What [verify_one] finds for a dict. *)
Lemma verify_one_found m s found s' :
  verify_one m s = (Return found, s') →
  ∃ r, heap s !! m = Some r ∧
    (∀ i, i ∈ found → issue_migration i = m ∧ Rec.status r = St_success)
    ∧ (Rec.status r = St_success →
       ∀ d, Rec.dest_path r = Some d → truthy (Rec.dest_hash r) = true →
         (node_at d (env s) = None →
          Issue missing_destination m ("Destination file missing: " +:+ str_path d) ∈ found)
         ∧ (∀ f, node_at d (env s) = Some (NFile f) →
              Some (sha256_hex (bytes_of (f_content f))) ≠ Rec.dest_hash r →
              Issue hash_mismatch m ("File hash changed: " +:+ str_path d) ∈ found)).
Proof.
  intros Hrun. unfold verify_one in Hrun.
  apply bind_Return_inv in Hrun as (r & s1 & Hr & Hrun).
  unfold deref in Hr. destruct (heap s !! m) as [r0|] eqn:Hm; [|inversion Hr].
  unfold ret in Hr. injection Hr as -> <-.
  exists r. split; [done|].
  case_bool_decide as Hst.
  { unfold ret in Hrun. injection Hrun as <- <-.
    split; [intros i Hi; by apply elem_of_nil in Hi|]. intros Hs. done. }
  assert (Rec.status r = St_success) as Hsucc.
  { destruct (decide (Rec.status r = St_success)); [done|]. by destruct Hst. }
  apply bind_Return_inv in Hrun as (found1 & s2 & Hfound & Hrun).
  apply bind_Return_inv in Hrun as (kept & s3 & Hkept & Hrun).
  unfold ret in Hrun. injection Hrun as <- <-.
  assert (∀ i, i ∈ kept → issue_migration i = m) as Hk.
  { case_bool_decide.
    - apply bind_Return_inv in Hkept as (present & s5 & Hp & Hkept).
      rewrite io_path_exists_run in Hp. injection Hp as <- <-.
      destruct (bool_decide _); unfold ret in Hkept; injection Hkept as <- <-.
      + intros i Hi. apply list_elem_of_singleton in Hi as ->. done.
      + intros i Hi. by apply elem_of_nil in Hi.
    - unfold ret in Hkept. injection Hkept as <- <-.
      intros i Hi. by apply elem_of_nil in Hi. }
  clear Hkept.
  destruct (Rec.dest_path r) as [d|] eqn:Hd.
  2:{ unfold ret in Hfound. injection Hfound as <- <-. split.
      - intros i Hi. simpl in Hi. split; [by apply Hk|done].
      - intros _ d' [=]. }
  destruct (truthy (Rec.dest_hash r)) eqn:Hh.
  2:{ unfold ret in Hfound. injection Hfound as <- <-. split.
      - intros i Hi. simpl in Hi. split; [by apply Hk|done].
      - intros _ d' _ [=]. }
  apply bind_Return_inv in Hfound as (present & s5 & Hp & Hfound).
  rewrite io_path_exists_run in Hp. injection Hp as <- <-.
  destruct (node_at d (env s)) as [n|] eqn:Hnode.
  - rewrite bool_decide_eq_true_2 in Hfound by eauto.
    apply bind_Return_inv in Hfound as (h & s4 & Hhash & Hfound).
    unfold io, zoom, _calculate_file_hash, bind, read_file in Hhash. rewrite Hnode in Hhash.
    destruct n as [f|]; [|inversion Hhash].
    unfold ret in Hhash. simpl in Hhash. injection Hhash as <- <-.
    case_bool_decide as Hneq; unfold ret in Hfound; injection Hfound as <- <-.
    + split.
      * intros i Hi. apply elem_of_app in Hi as [Hi|Hi]; [|split; [by apply Hk|done]].
        apply list_elem_of_singleton in Hi as ->. done.
      * intros _ d' [= <-] _. split; [intros Hn; congruence|].
        intros f' Hn _. apply elem_of_app. left. apply list_elem_of_singleton. done.
    + split.
      * intros i Hi. simpl in Hi. split; [by apply Hk|done].
      * intros _ d' [= <-] _. split; [intros Hn; congruence|].
        intros f' Hn Hne. rewrite Hnode in Hn. injection Hn as <-. done.
  - rewrite bool_decide_eq_false_2 in Hfound by (intros [? ?]; done).
    unfold ret in Hfound. injection Hfound as <- <-. split.
    + intros i Hi. apply elem_of_app in Hi as [Hi|Hi]; [|split; [by apply Hk|done]].
      apply list_elem_of_singleton in Hi as ->. done.
    + intros _ d' [= <-] _. split; [|intros f' Hn; congruence].
      intros _. apply elem_of_app. left. apply list_elem_of_singleton. done.
Qed.

Lemma verify_each_found ms s issues s' :
  verify_each ms s = (Return issues, s') →
  (∀ i, i ∈ issues →
     issue_migration i ∈ ms ∧ status_of (heap s) (issue_migration i) = Some St_success)
  ∧ (∀ m r d, m ∈ ms → heap s !! m = Some r → Rec.status r = St_success →
       Rec.dest_path r = Some d → truthy (Rec.dest_hash r) = true →
       (node_at d (env s) = None →
        Issue missing_destination m ("Destination file missing: " +:+ str_path d) ∈ issues)
       ∧ (∀ f, node_at d (env s) = Some (NFile f) →
            Some (sha256_hex (bytes_of (f_content f))) ≠ Rec.dest_hash r →
            Issue hash_mismatch m ("File hash changed: " +:+ str_path d) ∈ issues)).
Proof.
  revert issues s'. induction ms as [|m0 ms IH]; intros issues s' Hrun; simpl in Hrun.
  { unfold ret in Hrun. injection Hrun as <- <-. split.
    - intros i Hi. by apply elem_of_nil in Hi.
    - intros m r d Hm. by apply elem_of_nil in Hm. }
  apply bind_Return_inv in Hrun as (found & s1 & Hone & Hrun).
  pose proof (ro_verify_one _ _ _ _ Hone) as ->.
  apply bind_Return_inv in Hrun as (rest & s2 & Hrest & Hrun).
  unfold ret in Hrun. injection Hrun as <- <-.
  apply IH in Hrest as [Hsound Hcomplete].
  apply verify_one_found in Hone as (r0 & Hr0 & Hs0 & Hc0).
  split.
  - intros i Hi. apply elem_of_app in Hi as [Hi|Hi].
    + destruct (Hs0 i Hi) as [-> Hst]. split; [apply elem_of_cons; by left|].
      unfold status_of. rewrite Hr0. simpl. by rewrite Hst.
    + destruct (Hsound i Hi) as [? ?]. split; [apply elem_of_cons; by right|done].
  - intros m r d Hm Hr Hst Hd Hh. apply elem_of_cons in Hm as [->|Hm].
    + rewrite Hr0 in Hr. injection Hr as ->.
      destruct (Hc0 Hst d Hd Hh) as [Hmiss Hchg]. split.
      * intros Hn. apply elem_of_app. left. by apply Hmiss.
      * intros f Hn Hne. apply elem_of_app. left. by eapply Hchg.
    + destruct (Hcomplete m r d Hm Hr Hst Hd Hh) as [Hmiss Hchg]. split.
      * intros Hn. apply elem_of_app. right. by apply Hmiss.
      * intros f Hn Hne. apply elem_of_app. right. by eapply Hchg.
Qed.



Lemma alloc_all_spec rs s :
  ∃ ls h,
    alloc_all rs s = (Return ls, with_heap h s)
    ∧ heap s ⊆ h
    ∧ mapM (h !!.) ls = Some rs
    ∧ Forall (λ l, heap s !! l = None) ls.
Proof.
  revert s. induction rs as [|r rs IH]; intros s; simpl.
  { exists [], (heap s). unfold ret. split; [by destruct s|]. done. }
  unfold bind, alloc.
  set (l := fresh (dom (heap s))).
  assert (heap s !! l = None) as Hl.
  { apply not_elem_of_dom. apply is_fresh. }
  destruct (IH (with_heap (<[l := r]> (heap s)) s)) as (ls & h & Hrun & Hsub & Hmap & Hfresh).
  rewrite Hrun. simpl in *. exists (l :: ls), h. unfold ret. split; [done|].
  assert (heap s ⊆ <[l := r]> (heap s)) as Hsub0 by (by apply insert_subseteq).
  split; [by etrans|]. split.
  - simpl. assert (h !! l = Some r) as ->.
    { eapply lookup_weaken; [|exact Hsub]. apply lookup_insert_eq. }
    simpl. by rewrite Hmap.
  - constructor; [done|].
    eapply Forall_impl; [exact Hfresh|]. simpl. intros l' Hl'.
    destruct (heap s !! l') eqn:Heq; [|done].
    eapply lookup_weaken in Heq; [|exact Hsub0]. congruence.
Qed.

Lemma _save_migrations_done s s' :
  _save_migrations s = (Return tt, s') →
  ∃ rs w' mode mtime,
    mapM (heap s !!.) (migrations s) = Some rs
    ∧ s' = with_env w' s
    ∧ w_fs w' !! migration_log_path s = Some (NFile (File (Json (DMigrations rs)) mode mtime)).
Proof.
  unfold _save_migrations. rewrite try_except_reraise.
  intros Hrun.
  apply bind_Return_inv in Hrun as (log & s0 & Hg & Hrun).
  unfold gets in Hg. injection Hg as <- <-.
  apply bind_Return_inv in Hrun as (wd & s0 & Hg & Hrun).
  unfold gets in Hg. injection Hg as <- <-.
  apply bind_Return_inv in Hrun as (ms & s0 & Hg & Hrun).
  unfold gets in Hg. injection Hg as <- <-.
  apply bind_Return_inv in Hrun as (rs & s1 & Hrs & Hrun).
  rewrite deref_all_spec in Hrs.
  destruct (mapM (heap s !!.) (migrations s)) as [rs0|] eqn:Hmap; [|inversion Hrs].
  injection Hrs as <- <-.
  apply bind_Return_inv in Hrun as ([] & s2 & Hdump & Hrun).
  unfold io, zoom, json_dump in Hdump.
  match type of Hdump with
  | context [write_file ?p ?c ?w0] => destruct (can_write p w0) eqn:Hw
  end.
  2:{ match type of Hdump with
      | context [write_file ?p ?c ?w0] =>
          destruct (write_file_fail p c w0 Hw) as [e He]; rewrite He in Hdump
      end. inversion Hdump. }
  match type of Hdump with
  | context [write_file ?p ?c ?w0] => rewrite (write_file_ok p c w0 Hw) in Hdump
  end.
  injection Hdump as <-.
  unfold io, zoom in Hrun.
  destruct s as [w h wd ms cur]. unfold with_env, migration_log_path in *.
  cbn [env heap work_dir migrations current_transaction] in *.
  destruct (written_lookup (child wd "migration_log.tmp") (Json (DMigrations rs0)) w)
    as [mode Hl].
  rewrite <- node_at_child in Hl.
  destruct (rename_file_cases _ (child wd "migration_log.json") _ _ Hl) as [[e He]|Hok].
  { rewrite He in Hrun. inversion Hrun. }
  rewrite Hok in Hrun. injection Hrun as <-.
  eexists rs0, _, _, _. split; [done|]. split; [reflexivity|].
  simpl. apply lookup_insert_eq.
Qed.

Lemma bump_sum op d : sum_list (snd <$> bump op d) = S (sum_list (snd <$> d)).
Proof.
  induction d as [|[k n] d IH]; [done|]. simpl in *.
  destruct (decide (k = op)); simpl in *; [lia|].
  unfold fmap in IH. rewrite IH. lia.
Qed.

Lemma bump_keys op d k : k ∈ (fst <$> bump op d) ↔ k = op ∨ k ∈ (fst <$> d).
Proof.
  induction d as [|[k0 n] d IH]; cbn [bump].
  - rewrite fmap_cons, !fmap_nil. cbn [fst].
    rewrite list_elem_of_singleton. rewrite elem_of_nil. tauto.
  - destruct (decide (k0 = op)) as [->|Hne]; rewrite !fmap_cons; cbn [fst].
    + rewrite !elem_of_cons. tauto.
    + rewrite !elem_of_cons, IH. tauto.
Qed.

Lemma bump_NoDup op d : NoDup (fst <$> d) → NoDup (fst <$> bump op d).
Proof.
  induction d as [|[k n] d IH]; cbn [bump]; intros Hnd.
  - apply NoDup_singleton.
  - rewrite fmap_cons in Hnd. cbn [fst] in Hnd. apply NoDup_cons in Hnd as [Hk Hnd].
    destruct (decide (k = op)) as [->|Hne]; rewrite !fmap_cons; cbn [fst].
    + by apply NoDup_cons.
    + apply NoDup_cons. split; [|by apply IH].
      rewrite bump_keys. intros [->|?]; done.
Qed.

Lemma by_operation_fold (rs : list Rec.t) d :
  sum_list (snd <$> foldl (λ d migration, bump (Rec.operation migration) d) d rs)
  = sum_list (snd <$> d) + length rs
  ∧ (NoDup (fst <$> d) →
     NoDup (fst <$> foldl (λ d migration, bump (Rec.operation migration) d) d rs)).
Proof.
  revert d. induction rs as [|r rs IH]; intros d; [split; [simpl; lia|done]|].
  cbn [foldl length].
  destruct (IH (bump (Rec.operation r) d)) as [Hsum Hnd]. split.
  - rewrite Hsum, bump_sum. lia.
  - intros Hd. by apply Hnd, bump_NoDup.
Qed.

Lemma status_counts (rs : list Rec.t) :
  length (filter (λ m, Rec.status m = St_success) rs)
  + length (filter (λ m, Rec.status m = St_failed) rs)
  + length (filter (λ m, Rec.status m = St_pending) rs)
  + length (filter (λ m, Rec.status m = St_rolled_back) rs)
  = length rs.
Proof.
  induction rs as [|r rs IH]; [done|].
  rewrite !filter_cons. destruct (Rec.status r) eqn:Hst; simpl; lia.
Qed.





End TrackerFacts.

(** ** The session manager *)

Section SessionFacts.
Context `{PyLib}.
Import SessionManager.

Lemma _save_session_atomic s out s' :
  _save_session s = (out, s') →
  ∀ fs, fs ∈ during (env s) (env s') →
    fs !! session_file s = w_fs (env s) !! session_file s
    ∨ ∃ sess mode mtime,
        session s = Some sess
        ∧ fs !! session_file s = Some (NFile (File (Json (DSession sess)) mode mtime)).
Proof.
  intros Hrun fs Hfs. unfold _save_session in Hrun.
  unfold bind at 1, gets at 1 in Hrun.
  destruct (session s) as [sess|] eqn:Hsess.
  2:{ inversion Hrun; subst. rewrite during_refl in Hfs.
      apply list_elem_of_singleton in Hfs. subst. by left. }
  set (tmp := child (work_dir s) "current_session.tmp") in *.
  assert (tmp ≠ session_file s) as Hne.
  { unfold tmp, session_file. intros [_ ?]%child_inj. done. }
  unfold try_except, bind, gets in Hrun. unfold io at 1, zoom, json_dump in Hrun.
  destruct (can_write tmp (env s)) eqn:Hw.
  2:{ destruct (write_file_fail _ (Json (DSession sess)) _ Hw) as [e He].
      fold tmp in Hrun. rewrite He in Hrun. inversion Hrun; subst. simpl in Hfs.
      rewrite during_refl in Hfs. apply list_elem_of_singleton in Hfs. subst. by left. }
  fold tmp in Hrun. rewrite (write_file_ok _ _ _ Hw) in Hrun. simpl in Hrun.
  unfold io, zoom in Hrun. simpl in Hrun.
  destruct (written_lookup tmp (Json (DSession sess)) (env s)) as [mode Hl].
  destruct (rename_file_cases tmp (session_file s) (written tmp (Json (DSession sess)) (env s))
              (File (Json (DSession sess)) mode (clock (w_tick (env s)))))
    as [[e He]|Hok].
  { unfold tmp. rewrite node_at_child. apply Hl. }
  - unfold session_file in He. simpl in He. unfold session_file in Hrun. simpl in Hrun.
    rewrite He in Hrun. inversion Hrun; subst. simpl in Hfs.
    unfold during in Hfs. simpl in Hfs.
    replace (S (S (length (w_trace (env s)))) - length (w_trace (env s))) with 2 in Hfs by lia.
    simpl in Hfs. left.
    apply elem_of_cons in Hfs as [->|Hfs]; [| apply elem_of_cons in Hfs as [->|Hfs]];
      [| |apply list_elem_of_singleton in Hfs; by subst];
      unfold put_file; by rewrite ?lookup_insert_ne by done.
  - unfold session_file in Hok. simpl in Hok. unfold session_file in Hrun. simpl in Hrun.
    rewrite Hok in Hrun. inversion Hrun; subst. simpl in Hfs.
    unfold during in Hfs. simpl in Hfs.
    replace (S (S (S (length (w_trace (env s))))) - length (w_trace (env s))) with 3 in Hfs by lia.
    simpl in Hfs.
    apply elem_of_cons in Hfs as [->|Hfs].
    { right. exists sess, mode, (clock (w_tick (env s))). split; [done|].
      unfold session_file. by rewrite lookup_insert_eq. }
    left.
    apply elem_of_cons in Hfs as [->|Hfs]; [| apply elem_of_cons in Hfs as [->|Hfs]];
      [| |apply list_elem_of_singleton in Hfs; by subst];
      unfold put_file; by rewrite ?lookup_insert_ne by done.
Qed.

Lemma nre_ret {S A} (a : A) : no_runtime_error (@ret S A a).
Proof. intros s e s' msg. unfold ret. done. Qed.

Lemma nre_gets {S A} (f : S → A) : no_runtime_error (gets f).
Proof. intros s e s' msg. unfold gets. done. Qed.

Lemma nre_modify {S} (f : S → S) : no_runtime_error (modify f).
Proof. intros s e s' msg. unfold modify. done. Qed.

Lemma nre_bind {S A B} (m : M S A) (k : A → M S B) :
  no_runtime_error m → (∀ a, no_runtime_error (k a)) → no_runtime_error (bind m k).
Proof.
  intros Hm Hk s e s' msg. unfold bind.
  destruct (m s) as [[a|e1] s1] eqn:Hrun.
  - apply Hk.
  - intros [= -> ->]. by eapply Hm.
Qed.

Lemma nre_try {S A} (m : M S A) h :
  (∀ e, no_runtime_error (h e)) → no_runtime_error (try_except m h).
Proof.
  intros Hh s e s' msg. unfold try_except.
  destruct (m s) as [[a|e1] s1] eqn:Hrun; [done|]. apply Hh.
Qed.

Lemma nre_zoom {S T A} (proj : T → S) upd (m : M S A) :
  no_runtime_error m → no_runtime_error (zoom proj upd m).
Proof.
  intros Hm t0 e t1 msg. unfold zoom.
  destruct (m (proj t0)) as [r s1] eqn:Hrun. intros [= -> <-]. by eapply Hm.
Qed.

Lemma nre_now : no_runtime_error now.
Proof. intros s e s' msg. unfold now. done. Qed.

Lemma nre_now_iso : no_runtime_error now_iso.
Proof. apply nre_bind; [apply nre_now|intros; apply nre_ret]. Qed.

Lemma nre_path_exists p : no_runtime_error (path_exists p).
Proof. apply nre_gets. Qed.

Lemma nre_read_file p : no_runtime_error (read_file p).
Proof.
  intros s e s' msg. unfold read_file, ret, raise.
  repeat case_match; intros [= <- <-]; done.
Qed.

Lemma nre_json_load p : no_runtime_error (json_load p).
Proof.
  apply nre_bind; [apply nre_read_file|]. intros [b|d]; [|apply nre_ret].
  intros w e w' msg. unfold raise. intros [= <- <-]. done.
Qed.

Lemma nre_write_file p c : no_runtime_error (write_file p c).
Proof.
  intros s e s' msg Hrun.
  destruct (can_write p s) eqn:Hw.
  - rewrite write_file_ok in Hrun by done. done.
  - unfold write_file in Hrun. apply can_write_false in Hw as [e' He'].
    rewrite (bind_raise _ _ _ _ _ He') in Hrun. inversion Hrun; subst.
    unfold check_writable, raise, ret in He'. repeat case_match; inversion He'; done.
Qed.


Lemma nre_json_dump d p : no_runtime_error (json_dump d p).
Proof. apply nre_write_file. Qed.

Lemma nre_rename_node src dst : no_runtime_error (rename_node src dst).
Proof.
  intros w e w' msg. unfold rename_node, raise, commit_fs, modify.
  repeat case_match; intros [= <- <-]; done.
Qed.

Lemma nre_io {A} (m : M world A) : no_runtime_error m → no_runtime_error (io m).
Proof. apply nre_zoom. Qed.

Lemma nre_raise {S A} e :
  (∀ msg, e ≠ RuntimeError msg) → no_runtime_error (@raise S A e).
Proof. intros He s e' s' msg. unfold raise. intros [= <- <-]. apply He. Qed.

Lemma nre__check_session_lock : no_runtime_error _check_session_lock.
Proof.
  unfold _check_session_lock.
  apply nre_bind; [apply nre_gets|intros lock].
  apply nre_bind; [apply nre_io, nre_path_exists|intros found].
  destruct found; simpl; [|apply nre_ret].
  apply nre_try. intros. apply nre_ret.
Qed.

Lemma nre__load_session sid : no_runtime_error (_load_session sid).
Proof.
  unfold _load_session.
  apply nre_bind; [apply nre_gets|intros p].
  apply nre_bind; [apply nre_io, nre_path_exists|intros found].
  apply nre_bind.
  { destruct found; [|apply nre_ret].
    apply nre_bind; [apply nre_io, nre_json_load|intros d].
    destruct d; try (by apply nre_raise). case_bool_decide; apply nre_ret. }
  intros [sess|]; [apply nre_ret|].
  apply nre_bind; [apply nre_gets|intros dir].
  apply nre_bind; [apply nre_io, nre_path_exists|intros archived].
  destruct archived; [|by apply nre_raise].
  apply nre_bind; [apply nre_io, nre_json_load|intros d].
  destruct d; try (by apply nre_raise). apply nre_ret.
Qed.

Lemma nre__check_abandoned_session : no_runtime_error _check_abandoned_session.
Proof.
  unfold _check_abandoned_session.
  apply nre_bind; [apply nre_gets|intros p].
  apply nre_bind; [apply nre_io, nre_path_exists|intros found].
  destruct found; [|apply nre_ret].
  apply nre_try. intros. apply nre_ret.
Qed.

Lemma nre__create_new_session pp : no_runtime_error (_create_new_session pp).
Proof.
  unfold _create_new_session.
  apply nre_bind; [apply nre_io, nre_now|intros t0].
  apply nre_bind; [apply nre_gets|intros n].
  apply nre_bind; [apply nre_io, nre_now_iso|intros started]. apply nre_ret.
Qed.

Lemma nre__create_session_lock : no_runtime_error _create_session_lock.
Proof.
  unfold _create_session_lock.
  apply nre_bind; [apply nre_gets|intros [sess|]]; [|by apply nre_raise].
  apply nre_bind; [apply nre_io, nre_now_iso|intros ts].
  apply nre_bind; [apply nre_gets|intros p].
  apply nre_bind; [apply nre_gets|intros lock].
  apply nre_io, nre_json_dump.
Qed.

Lemma nre__save_session : no_runtime_error _save_session.
Proof.
  unfold _save_session.
  apply nre_bind; [apply nre_gets|intros [sess|]]; [|apply nre_ret].
  apply nre_try. intros. apply nre_ret.
Qed.

(** The lock-conflict error of [start_session] cannot occur. *)
Lemma start_session_never_refuses project_path resume_session_id :
  no_runtime_error (start_session project_path resume_session_id).
Proof.
  unfold start_session.
  apply nre_bind; [apply nre__check_session_lock|intros locked].
  apply nre_bind.
  { destruct locked; [|apply nre_ret].
    unfold _prompt_takeover. rewrite bind_ret_l. apply nre_ret. }
  intros _.
  apply nre_bind.
  { destruct (truthy resume_session_id).
    - apply nre_bind; [apply nre__load_session|intros; apply nre_modify].
    - apply nre_bind; [apply nre__check_abandoned_session|intros [abandoned|]].
      + unfold _prompt_resume. rewrite bind_ret_l.
        apply nre_bind; [apply nre_modify|intros _].
        apply nre_bind; [apply nre_io, nre_now_iso|intros; apply nre_modify].
      + apply nre_bind; [apply nre__create_new_session|intros; apply nre_modify]. }
  intros _.
  apply nre_bind; [apply nre__create_session_lock|intros _].
  apply nre_bind; [apply nre__save_session|intros _].
  apply nre_bind; [apply nre_ret|intros _].
  apply nre_bind; [apply nre_modify|intros _].
  apply nre_gets.
Qed.

(** A lock file that can be read tells its age: the lock counts as live
    up to 300 seconds, as stale beyond. *)
Lemma _check_session_lock_age s f lock_data lock_time :
  node_at (session_lock_file s) (env s) = Some (NFile f) →
  f_content f = Json (DLock lock_data) →
  fromisoformat (Lock.timestamp lock_data) = Some lock_time →
  _check_session_lock s
  = (Return (bool_decide (clock (w_tick (env s)) - lock_time ≤ stale_after)%Z),
     with_env (World (w_fs (env s)) (w_denied (env s)) (S (w_tick (env s)))
                     (w_trace (env s))) s).
Proof.
  intros Hnode Hc Hts. unfold _check_session_lock.
  unfold bind at 1, gets at 1. unfold bind at 1.
  unfold io at 1, zoom, path_exists, gets. rewrite Hnode.
  rewrite bool_decide_eq_true_2 by eauto. simpl.
  unfold try_except, bind at 1. unfold io at 1, zoom, json_load, bind, read_file.
  replace (env (with_env (env s) s)) with (env s) by (by destruct s).
  rewrite Hnode. unfold ret. simpl. rewrite Hc. simpl. rewrite Hts.
  unfold io, zoom, now. simpl.
  destruct s as [w wd p sess act ci]; simpl.
  case_bool_decide; case_bool_decide; try done; lia.
Qed.

Lemma rename_node_frame src dst w out w' f :
  node_at src w = Some (NFile f) →
  rename_node src dst w = (out, w') →
  ∀ q, q ≠ src → q ≠ dst → w_fs w' !! q = w_fs w !! q.
Proof.
  intros Hsrc Hrun q Hq1 Hq2.
  destruct (rename_file_cases src dst w f Hsrc) as [[e He]|Hok].
  - rewrite He in Hrun. by injection Hrun as <- <-.
  - rewrite Hok in Hrun. injection Hrun as <- <-. simpl.
    rewrite lookup_insert_ne by done. by rewrite lookup_delete_ne.
Qed.

Lemma _save_session_frame s out s' :
  _save_session s = (out, s') →
  session s' = session s ∧ work_dir s' = work_dir s
  ∧ ∀ q, q ≠ child (work_dir s) "current_session.tmp" → q ≠ session_file s →
         w_fs (env s') !! q = w_fs (env s) !! q.
Proof.
  unfold _save_session, bind, gets.
  destruct (session s) as [sess|] eqn:Hsess.
  2:{ unfold ret. intros [= <- <-]. done. }
  unfold try_except, bind, gets.
  unfold io at 1, zoom, json_dump.
  destruct (can_write (child (work_dir s) "current_session.tmp") (env s)) eqn:Hw.
  2:{ destruct (write_file_fail _ (Json (DSession sess)) _ Hw) as [e He]. rewrite He.
      unfold ret. intros [= <- <-]. by destruct s. }
  rewrite (write_file_ok _ _ _ Hw). simpl.
  unfold io, zoom. simpl.
  match goal with
  | |- context [rename_node ?a ?b ?w] => destruct (rename_node a b w) as [r w2] eqn:Hren
  end.
  destruct (written_lookup (child (work_dir s) "current_session.tmp")
              (Json (DSession sess)) (env s)) as [mode Hlook].
  rewrite <- node_at_child in Hlook.
  pose proof (rename_node_frame _ _ _ _ _ _ Hlook Hren) as Hframe.
  assert (∀ q, q ≠ child (work_dir s) "current_session.tmp" → q ≠ session_file s →
               w_fs w2 !! q = w_fs (env s) !! q) as Hq.
  { intros q Hq1 Hq2. rewrite Hframe; [|done|by destruct s].
    by apply written_lookup_ne. }
  destruct r as [[]|e]; unfold ret; intros [= <- <-]; destruct s; simpl in *; done.
Qed.

Lemma last_filter_Some {A} (P : A → Prop) `{∀ x, Decision (P x)} (l : list A) (x : A) :
  last (filter P l) = Some x →
  ∃ before after, l = before ++ x :: after ∧ P x ∧ Forall (λ y, ¬ P y) after.
Proof.
  induction l as [|a l IH] using rev_ind; [done|].
  rewrite filter_app. simpl. rewrite filter_cons, filter_nil.
  destruct (decide (P a)) as [Ha|Ha].
  - rewrite last_snoc. intros [= <-]. exists l, []. done.
  - rewrite app_nil_r. intros Hl. destruct (IH Hl) as (before & after & -> & Hx & Hafter).
    exists before, (after ++ [a]). split; [by rewrite <- app_assoc|]. split; [done|].
    apply Forall_app. split; [done|]. by constructor.
Qed.

Lemma unlink_gone p w out w' :
  unlink p w = (Return out, w') → w_fs w' = delete p (w_fs w).
Proof.
  unfold unlink. destruct (node_at p w) as [[?|]|]; try (intros [=]; fail).
  destruct (decide _); [intros [=]|].
  unfold commit_fs, modify. by intros [= _ <-].
Qed.

Lemma filter_nil_Forall {A} (P : A → Prop) `{∀ x, Decision (P x)} (l : list A) :
  filter P l = [] → Forall (λ x, ¬ P x) l.
Proof.
  induction l as [|a l IH]; [done|]. rewrite filter_cons.
  destruct (decide (P a)); [done|]. intros Hl. constructor; [done|by apply IH].
Qed.

End SessionFacts.

(** ** The audit logger *)

Section AuditFacts.
Context `{PyLib}.
Import AuditLogger.

Lemma audit_entry_no_checksum event_id timestamp event_type description severity details context :
  audit_entry_of event_id timestamp event_type description severity details context
    !! "checksum" = None.
Proof. unfold audit_entry_of. by simplify_map_eq. Qed.

Lemma log_event_writes event_type description details user severity s :
  include_checksums (conf s) = true →
  ∃ base s2,
    built_from event_type description details severity base
    ∧ log_event event_type description details user severity s
      = _write_audit_entry (<["checksum" := JStr (_calculate_checksum base)]> base) s2.
Proof.
  intros Hc. unfold log_event.
  unfold bind at 1. unfold _generate_event_id at 1, bind at 1, gets at 1.
  unfold bind at 1. unfold io at 1, zoom, now_iso, now, bind, ret. simpl.
  unfold _get_context, gets. simpl. rewrite Hc.
  eexists _, _. split; [|reflexivity].
  eexists _, _, _. reflexivity.
Qed.

Lemma append_line_last p e w w' lines :
  append_line p e w = (Return tt, w') →
  content_at p (w_fs w') = Some (Json (DAudit lines)) →
  last lines = Some e.
Proof.
  unfold append_line. intros Hrun Hc.
  apply bind_Return_inv in Hrun as ([] & w1 & Hchk & Hrun).
  pose proof (check_writable_state p w) as Hs. rewrite Hchk in Hs. simpl in Hs. subst w1.
  unfold bind, gets, commit_fs, modify in Hrun. inversion Hrun; subst w'. clear Hrun.
  unfold content_at in Hc. simpl in Hc. rewrite lookup_insert_eq in Hc.
  destruct (w_fs w !! p) as [[[[b|[]] mode mt]|]|]; simpl in Hc; inversion Hc; subst.
  - by rewrite last_snoc.
  - done.
  - done.
Qed.


Lemma _write_audit_entry_last e s s' lines :
  _write_audit_entry e s = (Return tt, s') →
  content_at (current_log_file s') (w_fs (env s')) = Some (Json (DAudit lines)) →
  last lines = Some e.
Proof.
  unfold _write_audit_entry, _write_audit_entry_with at 1, with_lock.
  destruct (lock_held s); [done|].
  match goal with
  | |- context [bind ?m ?k (with_lock_held true s)] =>
      destruct (bind m k (with_lock_held true s)) as [r s1] eqn:Hbody
  end.
  intros Heq Hc. inversion Heq; subst r s'. clear Heq.
  apply bind_Return_inv in Hbody as (rotate & s2 & _ & Hbody).
  apply bind_Return_inv in Hbody as ([] & s3 & _ & Hbody).
  apply bind_Return_inv in Hbody as (p & s3' & Hp & Hbody).
  unfold gets in Hp. inversion Hp; subst p s3'. clear Hp.
  unfold io, zoom in Hbody.
  destruct (append_line (current_log_file s3) e (env s3)) as [r' w'] eqn:Happ.
  inversion Hbody; subst r' s1. clear Hbody.
  simpl in Hc. eapply append_line_last; [exact Happ|exact Hc].
Qed.

Lemma _should_rotate_log_frame s out s1 :
  _should_rotate_log s = (out, s1) →
  w_fs (env s1) = w_fs (env s) ∧ current_log_file s1 = current_log_file s
  ∧ audit_dir s1 = audit_dir s ∧ lock_held s1 = lock_held s.
Proof.
  unfold _should_rotate_log, bind, gets.
  destruct (node_at (current_log_file s) (env s)) as [n|].
  - case_bool_decide.
    + unfold ret. intros [= <- <-]. done.
    + unfold io, zoom, now. simpl.
      destruct (negb _); unfold ret; intros [= <- <-]; done.
  - unfold ret. intros [= <- <-]. done.
Qed.

Lemma _should_rotate_log_lock b s :
  (_should_rotate_log (with_lock_held b s)).1 = (_should_rotate_log s).1.
Proof.
  destruct s as [w dir p l c pid0 cwd0 en pv si].
  unfold _should_rotate_log, bind, gets. simpl.
  destruct (node_at p w) as [n|]; [|reflexivity].
  destruct (bool_decide _); [reflexivity|].
  unfold io, zoom, now. simpl. destruct (negb _); reflexivity.
Qed.


Lemma node_at_fs p w w' : w_fs w = w_fs w' → node_at p w = node_at p w'.
Proof. intros Hfs. destruct p; [done|]. simpl. by rewrite Hfs. Qed.

Lemma blocked_write (write : entry → M t unit) e s :
  lock_held s = true → _write_audit_entry_with write e s = (Raise Deadlock, s).
Proof. intros Hl. unfold _write_audit_entry_with, with_lock. by rewrite Hl. Qed.

Lemma mkdir_fs q w w' :
  mkdir q w = (Return tt, w') →
  w_fs w' = w_fs w ∨ (node_at q w = None ∧ w_fs w' = <[q := NDir]> (w_fs w)).
Proof.
  unfold mkdir. destruct (node_at q w) as [[?|]|] eqn:Hq.
  - intros [=].
  - intros [= <-]. by left.
  - destruct (node_at (parent q) w) as [[?|]|]; try (intros [=]; fail).
    destruct (decide _); [intros [=]|].
    unfold commit_fs, modify. intros [= <-]. by right.
Qed.

Lemma archive_name_differs x : "audit_" +:+ x ≠ "archive".
Proof. simpl. intros [=]. Qed.

Lemma _rotate_log_file_blocked (write : entry → M t unit) s s' name :
  lock_held s = true →
  current_log_file s = child (audit_dir s) name →
  is_dir (node_at (current_log_file s) (env s)) = false →
  _rotate_log_file_with (_write_audit_entry_with write) s = (Return tt, s') →
  current_log_file s' ≠ current_log_file s
  ∧ is_Some (node_at (current_log_file s') (env s)).
Proof.
  intros Hl Hp Hfile Hrun. unfold _rotate_log_file_with in Hrun.
  apply bind_Return_inv in Hrun as (p & s0 & Hg & Hrun).
  unfold gets in Hg. injection Hg as <- <-.
  apply bind_Return_inv in Hrun as (found & s0 & Hfound & Hrun).
  unfold io, zoom, path_exists, gets in Hfound. injection Hfound as <- <-.
  apply bind_Return_inv in Hrun as ([] & s1 & Hmove & Hrun).
  apply bind_Return_inv in Hrun as (fresh & s2 & Hfresh & Hrun).
  apply bind_Return_inv in Hrun as ([] & s3 & Hmod & Hrun).
  unfold modify in Hmod. injection Hmod as <-.
  unfold _initialize_audit_log_with in Hrun.
  apply bind_Return_inv in Hrun as (p' & s4 & Hg & Hrun).
  unfold gets in Hg. injection Hg as <- <-.
  apply bind_Return_inv in Hrun as (found' & s4 & Hfound' & Hrun).
  unfold io, zoom, path_exists, gets in Hfound'. injection Hfound' as <- <-.
  destruct s as [w dir p l c pid0 cwd0 en pv si]. simpl in *. subst l p.
  (* the state after the move *)
  assert (lock_held s1 = true ∧ audit_dir s1 = dir
          ∧ ∀ nm, nm ≠ "archive" → is_Some (w_fs (env s1) !! child dir nm) →
                  nm ≠ name ∧ is_Some (w_fs w !! child dir nm)) as (Hl1 & Hd1 & Hfs1).
  { rewrite node_at_child in Hfile, Hmove.
    destruct (w_fs w !! child dir name) as [[f|]|] eqn:Hnode.
    - rewrite bool_decide_eq_true_2 in Hmove by eauto.
      apply bind_Return_inv in Hmove as (t0 & sa & Hnow & Hmove).
      unfold io, zoom, now in Hnow. simpl in Hnow. injection Hnow as <- <-.
      apply bind_Return_inv in Hmove as (dir' & sb & Hg & Hmove).
      unfold gets in Hg. simpl in Hg. injection Hg as <- <-.
      apply bind_Return_inv in Hmove as ([] & sc & Hmk & Hmove).
      rewrite parent_child in Hmk. unfold io, zoom in Hmk. simpl in Hmk.
      match type of Hmk with
      | context [mkdir ?q ?w0] => destruct (mkdir q w0) as [r wm] eqn:Hmkdir
      end.
      injection Hmk as -> <-.
      unfold io, zoom in Hmove. simpl in Hmove.
      match type of Hmove with
      | context [rename_node ?a ?b ?w0] => destruct (rename_node a b w0) as [r wr] eqn:Hren
      end.
      injection Hmove as -> <-. simpl.
      split; [done|]. split; [done|].
      apply mkdir_fs in Hmkdir. simpl in Hmkdir.
      assert (node_at (child dir name) wm = Some (NFile f)) as Hsrc.
      { rewrite node_at_child.
        destruct Hmkdir as [->|[Hnone ->]]; [done|].
        rewrite node_at_child in Hnone. simpl in Hnone.
        rewrite lookup_insert_ne; [done|]. intros Heq. rewrite Heq in Hnone. congruence. }
      match type of Hren with
      | context [rename_node ?a ?b ?w0] =>
          destruct (rename_file_cases a b w0 f Hsrc) as [[e He]|Hok]
      end.
      { rewrite He in Hren. inversion Hren. }
      rewrite Hok in Hren. injection Hren as <-. simpl.
      intros nm Hnm Hsome.
      rewrite lookup_insert_ne in Hsome.
      2:{ intros Heq. apply (f_equal length) in Heq. unfold child in Heq.
          rewrite !length_app in Heq. simpl in Heq. lia. }
      destruct (decide (nm = name)) as [->|Hne].
      { rewrite lookup_delete_eq in Hsome. by destruct Hsome. }
      split; [done|].
      rewrite lookup_delete_ne in Hsome.
      2:{ intros Heq. apply child_inj in Heq as [_ ?]. done. }
      destruct Hmkdir as [Heq|[_ Heq]]; rewrite Heq in Hsome; [done|].
      rewrite lookup_insert_ne in Hsome; [done|].
      intros Heq'. apply child_inj in Heq' as [_ ?]. done.
    - done.
    - rewrite bool_decide_eq_false_2 in Hmove by (intros [? ?]; done).
      unfold ret in Hmove. injection Hmove as <-. simpl.
      split; [done|]. split; [done|].
      intros nm _ Hsome. split; [|done].
      intros ->. rewrite Hnode in Hsome. by destruct Hsome. }
  unfold _get_current_log_file in Hfresh.
  apply bind_Return_inv in Hfresh as (t1 & sd & Hnow & Hfresh).
  unfold io, zoom, now in Hnow. injection Hnow as <- <-.
  apply bind_Return_inv in Hfresh as (dir' & se & Hg & Hfresh).
  unfold gets in Hg. simpl in Hg. injection Hg as <- <-.
  unfold ret in Hfresh. injection Hfresh as <- <-.
  simpl in Hrun. rewrite Hd1 in Hrun. rewrite node_at_child in Hrun. simpl in Hrun.
  case_bool_decide as Hfound; simpl in Hrun.
  - unfold ret in Hrun. injection Hrun as <-. simpl.
    destruct (Hfs1 _ (archive_name_differs _) Hfound) as [Hne Hsome].
    split.
    + intros Heq. apply child_inj in Heq as [_ ?]. done.
    + by rewrite node_at_child.
  - exfalso. unfold bind at 1 in Hrun. unfold io at 1, zoom, now_iso, bind, now, ret in Hrun.
    simpl in Hrun. unfold gets in Hrun.
    rewrite blocked_write in Hrun by (simpl; done).
    inversion Hrun.
Qed.

End AuditFacts.

(** ** The rollback manager *)

Section RollbackFacts.
Context `{PyLib}.
Import Rollback.

Lemma io_run {A} (m : M world A) s :
  io m s = ((m (world_of s)).1,
            with_tracker (Tracker.with_env (m (world_of s)).2 (migration_tracker s)) s).
Proof.
  unfold io, tracker, zoom, Tracker.io, zoom, world_of.
  destruct (m (Tracker.env (migration_tracker s))) as [r w']. reflexivity.
Qed.

Lemma in_frame_run {A} (m : M frame A) s :
  in_frame m s = ((m (s, [])).1, (m (s, [])).2.1).
Proof. unfold in_frame. by destruct (m (s, [])) as [r [s1 errs]]. Qed.

Lemma kd_ret {S A} heap_of (a : A) : keeps_dicts heap_of (@ret S A a).
Proof. intros s out s' l [= <- <-]. done. Qed.

Lemma kd_raise {S A} heap_of e : keeps_dicts heap_of (@raise S A e).
Proof. intros s out s' l [= <- <-]. done. Qed.

Lemma kd_gets {S A} heap_of (f : S → A) : keeps_dicts heap_of (gets f).
Proof. intros s out s' l [= <- <-]. done. Qed.

Lemma kd_bind {S A B} heap_of (m : M S A) (k : A → M S B) :
  keeps_dicts heap_of m → (∀ a, keeps_dicts heap_of (k a)) →
  keeps_dicts heap_of (bind m k).
Proof.
  intros Hm Hk s out s' l. unfold bind.
  destruct (m s) as [[a|e] s1] eqn:Hrun.
  - intros Hk' Hl. eapply Hk; [exact Hk'|]. by eapply Hm.
  - intros [= <- <-] Hl. by eapply Hm.
Qed.

Lemma kd_try {S A} heap_of (m : M S A) h :
  keeps_dicts heap_of m → (∀ e, keeps_dicts heap_of (h e)) →
  keeps_dicts heap_of (try_except m h).
Proof.
  intros Hm Hh s out s' l. unfold try_except.
  destruct (m s) as [[a|e] s1] eqn:Hrun.
  - intros [= <- <-] Hl. by eapply Hm.
  - intros Hh' Hl. eapply Hh; [exact Hh'|]. by eapply Hm.
Qed.

Lemma kd_for_each {S A} heap_of (xs : list A) (body : A → M S unit) :
  (∀ x, keeps_dicts heap_of (body x)) → keeps_dicts heap_of (for_each xs body).
Proof.
  intros Hb. induction xs as [|x xs IH]; simpl; [apply kd_ret|].
  apply kd_bind; [apply Hb|intros; apply IH].
Qed.

Lemma kd_zoom {S T A} heap_of heap_of' (proj : T → S) upd (m : M S A) :
  (∀ t, heap_of' (proj t) = heap_of t) →
  (∀ s t, heap_of (upd s t) = heap_of' s) →
  keeps_dicts heap_of' m → keeps_dicts heap_of (zoom proj upd m).
Proof.
  intros Hp Hu Hm t0 out t1 l. unfold zoom.
  destruct (m (proj t0)) as [r s1] eqn:Hrun. intros [= <- <-] Hl.
  rewrite Hu. eapply Hm; [exact Hrun|]. by rewrite Hp.
Qed.

Lemma kd_tracker_io {A} (m : M world A) : keeps_dicts Tracker.heap (Tracker.io m).
Proof.
  intros s out s' l. unfold Tracker.io, zoom.
  destruct (m (Tracker.env s)) as [r w']. intros [= <- <-]. done.
Qed.

Lemma kd_update l f : keeps_dicts Tracker.heap (Tracker.update l f).
Proof.
  intros s out s' l' [= <- <-] [r Hl]. simpl.
  destruct (decide (l = l')) as [->|Hne].
  - rewrite lookup_alter_eq, Hl. eauto.
  - rewrite lookup_alter_ne by done. eauto.
Qed.

Lemma kd_alloc r : keeps_dicts Tracker.heap (Tracker.alloc r).
Proof.
  intros s out s' l [= <- <-] [r' Hl]. simpl.
  destruct (decide (fresh (dom (Tracker.heap s)) = l)) as [<-|Hne].
  - rewrite lookup_insert_eq. eauto.
  - rewrite lookup_insert_ne by done. eauto.
Qed.

Lemma kd_modify_current f :
  (∀ s, Tracker.heap (f s) = Tracker.heap s) → keeps_dicts Tracker.heap (modify f).
Proof. intros Hf s out s' l [= <- <-]. by rewrite Hf. Qed.

Lemma kd_env_only {A} (m : M Tracker.t A) : env_only m → keeps_dicts Tracker.heap m.
Proof.
  intros Hm s out s' l Hrun Hl.
  destruct (env_only_tail _ _ _ _ Hm Hrun) as (-> & _). done.
Qed.

Lemma kd_track_migration source dest op reason md :
  keeps_dicts Tracker.heap (Tracker.track_migration source dest op reason md).
Proof.
  unfold Tracker.track_migration. apply kd_try; [|intros; apply kd_raise].
  apply kd_bind; [apply kd_tracker_io|intros hashable].
  apply kd_bind.
  { destruct hashable; [|apply kd_ret].
    apply kd_bind; [apply kd_tracker_io|intros; apply kd_ret]. }
  intros source_hash.
  apply kd_bind; [apply kd_tracker_io|intros present].
  apply kd_bind; [destruct present; [apply kd_tracker_io|apply kd_ret]|intros fm].
  apply kd_bind; [apply kd_tracker_io|intros ts].
  apply kd_bind; [apply kd_gets|intros cur].
  apply kd_bind; [apply kd_alloc|intros l].
  apply kd_bind.
  { destruct cur as [txn|]; [|apply kd_ret].
    apply kd_bind; [by apply kd_modify_current|intros _].
    apply kd_env_only, env_only__save_transaction. }
  intros _.
  apply kd_bind; [by apply kd_modify_current|intros _].
  apply kd_bind; [apply kd_env_only, env_only__save_migrations|intros; apply kd_ret].
Qed.

Lemma kd_r_tracker {A} (m : M Tracker.t A) :
  keeps_dicts Tracker.heap m → keeps_dicts dicts_of (tracker m).
Proof. apply kd_zoom; done. Qed.

Lemma kd_r_io {A} (m : M world A) : keeps_dicts dicts_of (io m).
Proof. apply kd_r_tracker, kd_tracker_io. Qed.

Lemma kd__restore_file_metadata p r : keeps_dicts dicts_of (_restore_file_metadata p r).
Proof.
  unfold _restore_file_metadata. apply kd_try; [|intros; apply kd_ret].
  apply kd_bind.
  - destruct (truthy _); [|apply kd_ret].
    destruct (fromisoformat _); [apply kd_r_io|apply kd_raise].
  - intros _. destruct (Rec.file_permissions r) as [mode|]; [|apply kd_ret].
    case_bool_decide; [apply kd_r_io|apply kd_ret].
Qed.

Lemma kd__reverse_consolidation r : keeps_dicts dicts_of (_reverse_consolidation r).
Proof.
  unfold _reverse_consolidation. destruct (Rec.dest_path r); [|apply kd_raise].
  apply kd_for_each. intros original.
  destruct (of_path original); [|apply kd_raise].
  destruct (truthy _); [|apply kd_ret].
  apply kd_bind; [apply kd_r_io|intros; apply kd_r_io].
Qed.

Lemma kd__reverse_migration m : keeps_dicts dicts_of (_reverse_migration m).
Proof.
  unfold _reverse_migration.
  apply kd_bind.
  { apply kd_r_tracker. intros s out s' l. unfold Tracker.deref.
    destruct (Tracker.heap s !! m); intros [= <- <-]; done. }
  intros r.
  assert (keeps_dicts dicts_of
            (present <- match Rec.dest_path r with
                        | Some dest_path => io (path_exists dest_path)
                        | None => ret false
                        end ;;
             match Rec.dest_path r, (present : bool) with
             | Some dest_path, true =>
                 io (mkdir_parents (parent (Rec.source_path r))) ;;;
                 io (shutil_move dest_path (Rec.source_path r)) ;;;
                 _restore_file_metadata (Rec.source_path r) r ;;;
                 _ <- tracker (Tracker.track_migration dest_path (Some (Rec.source_path r))
                                 Op_rollback_move
                                 ("Rollback of " +:+ op_name (Rec.operation r))
                                 (Some (Metadata [] (Some m)))) ;;
                 ret tt
             | dest_path, _ =>
                 raise (FileNotFoundError ("Destination file not found for rollback: "
                                           +:+ from_option str_path "None" dest_path))
             end)) as Hmove.
  { apply kd_bind.
    - destruct (Rec.dest_path r); [apply kd_r_io|apply kd_ret].
    - intros present. destruct (Rec.dest_path r) as [dest_path|]; [|apply kd_raise].
      destruct present; [|apply kd_raise].
      apply kd_bind; [apply kd_r_io|intros _].
      apply kd_bind; [apply kd_r_io|intros _].
      apply kd_bind; [apply kd__restore_file_metadata|intros _].
      apply kd_bind; [apply kd_r_tracker, kd_track_migration|intros; apply kd_ret]. }
  destruct (Rec.operation r); try apply kd_ret; try exact Hmove.
  - destruct (Rec.archive_path r) as [archive_path|]; [|apply kd_ret].
    apply kd_bind; [apply kd_r_io|intros present].
    destruct present; [|apply kd_raise].
    apply kd_bind; [apply kd_r_io|intros _].
    apply kd_bind; [apply kd_r_io|intros _].
    apply kd_bind; [apply kd_r_tracker, kd_track_migration|intros; apply kd_ret].
  - apply kd__reverse_consolidation.
Qed.

Lemma kd_self {A} (m : M t A) : keeps_dicts dicts_of m → keeps_dicts frame_dicts (self m).
Proof. apply kd_zoom; done. Qed.

Lemma self_errors {A} (m : M t A) f out f' : self m f = (out, f') → f'.2 = f.2.
Proof.
  unfold self, zoom. destruct (m f.1) as [r s1]. intros [= <- <-]. done.
Qed.

(** One turn of the loop: it returns, with at most one more error, and
    with every dict still in the store. *)
Lemma reverse_or_report_turn m f :
  is_Some (frame_dicts f !! m) →
  ∃ f', reverse_or_report m f = (Return tt, f')
    ∧ (f'.2 = f.2 ∨ ∃ msg, f'.2 = f.2 ++ [msg])
    ∧ ∀ l, is_Some (frame_dicts f !! l) → is_Some (frame_dicts f' !! l).
Proof.
  intros Hm. unfold reverse_or_report, try_except.
  destruct (self (_reverse_migration m) f) as [[[]|e] f1] eqn:Hrun.
  - exists f1. split; [done|]. split.
    + left. by eapply self_errors.
    + intros l. eapply (kd_self _ (kd__reverse_migration m)). exact Hrun.
  - assert (is_Some (frame_dicts f1 !! m)) as [r Hr].
    { eapply (kd_self _ (kd__reverse_migration m)); [exact Hrun|exact Hm]. }
    unfold bind, gets. unfold frame_dicts, dicts_of in Hr. rewrite Hr.
    unfold errors_extend, modify. eexists. split; [reflexivity|]. simpl. split.
    + right. rewrite (self_errors _ _ _ _ Hrun). eauto.
    + intros l Hl. change (is_Some (frame_dicts f1 !! l)).
      eapply (kd_self _ (kd__reverse_migration m)); [exact Hrun|exact Hl].
Qed.

Lemma reversal_loop (ms : list loc) (f : frame) :
  Forall (λ m, is_Some (frame_dicts f !! m)) ms →
  ∃ f', for_each ms reverse_or_report f = (Return tt, f')
    ∧ f.2 `prefix_of` f'.2
    ∧ length f'.2 ≤ length f.2 + length ms
    ∧ ∀ l, is_Some (frame_dicts f !! l) → is_Some (frame_dicts f' !! l).
Proof.
  revert f. induction ms as [|m ms IH]; intros f Hall.
  - exists f. split; [done|]. split; [done|]. split; [simpl; lia|done].
  - apply Forall_cons in Hall as [Hm Hall].
    destruct (reverse_or_report_turn m f Hm) as (f1 & Hrun & Herr & Hkeep).
    destruct (IH f1) as (f2 & Hrest & Hpre & Hlen & Hkeep2).
    { eapply Forall_impl; [exact Hall|]. intros l. apply Hkeep. }
    exists f2. split.
    { simpl. unfold bind. rewrite Hrun. exact Hrest. }
    split; [|split].
    + etrans; [|exact Hpre]. destruct Herr as [->|[msg ->]]; [done|].
      by apply prefix_app_r.
    + simpl. destruct Herr as [Heq|[msg Heq]]; rewrite Heq in Hlen;
        rewrite ?length_app in Hlen; simpl in Hlen; lia.
    + intros l Hl. by apply Hkeep2, Hkeep.
Qed.

Lemma reverse_or_report_returned m f s1 :
  _reverse_migration m f.1 = (Return tt, s1) →
  reverse_or_report m f = (Return tt, (s1, f.2)).
Proof.
  intros Hrun. unfold reverse_or_report, try_except, self, zoom. by rewrite Hrun.
Qed.

Lemma reverse_or_report_raised m f e s1 :
  is_Some (frame_dicts f !! m) →
  _reverse_migration m f.1 = (Raise e, s1) →
  ∃ r, dicts_of s1 !! m = Some r
    ∧ reverse_or_report m f
      = (Return tt,
         (s1, f.2 ++ ["Failed to reverse migration: " +:+ str_path (Rec.source_path r)
                      +:+ " - " +:+ str_exn e])).
Proof.
  intros Hm Hrun.
  assert (is_Some (dicts_of s1 !! m)) as [r Hr].
  { eapply (kd__reverse_migration m); [exact Hrun|exact Hm]. }
  exists r. split; [done|].
  unfold reverse_or_report, try_except, self, zoom. rewrite Hrun.
  unfold bind, gets. cbn [fst snd]. unfold dicts_of in Hr. rewrite Hr.
  reflexivity.
Qed.

Lemma cleanup_one_spec cutoff file s :
  file ≠ [] →
  ∃ w',
    cleanup_one cutoff file s
    = (Return (if removable cutoff (w_denied (world_of s)) (w_fs (world_of s)) file
               then 1 else 0),
       with_tracker (Tracker.with_env w' (migration_tracker s)) s)
    ∧ w_fs w' = swept cutoff (w_denied (world_of s)) (w_fs (world_of s)) file
    ∧ w_denied w' = w_denied (world_of s)
    ∧ w_tick w' = w_tick (world_of s).
Proof.
  intros Hne. destruct s as [[w h wd ms cur] rwd hist].
  unfold cleanup_one, try_except, bind, gets, world_of, swept, removable.
  cbn [migration_tracker Tracker.env].
  replace (node_at file w) with (w_fs w !! file) by (by destruct file).
  destruct (w_fs w !! file) as [[f|]|] eqn:Hnode.
  - case_bool_decide; cbn [andb].
    + unfold io, tracker, Tracker.io, zoom, unlink.
      cbn [migration_tracker Tracker.env].
      replace (node_at file w) with (w_fs w !! file) by (by destruct file).
      rewrite Hnode. destruct (decide (file ∈ w_denied w)) as [Hd|Hd].
      * rewrite bool_decide_eq_false_2 by (intros Hn; by apply Hn).
        unfold raise, ret. cbn. exists w. done.
      * rewrite bool_decide_eq_true_2 by done.
        unfold commit_fs, modify, ret. cbn.
        eexists. split; [reflexivity|]. done.
    + unfold ret. exists w. done.
  - unfold ret. exists w. done.
  - unfold raise, ret. exists w. done.
Qed.

Lemma swept_lookup cutoff denied fs p q :
  swept cutoff denied fs p !! q = None ∨ swept cutoff denied fs p !! q = fs !! q.
Proof.
  unfold swept. destruct (removable cutoff denied fs p); [|by right].
  destruct (decide (p = q)) as [->|Hne].
  - left. apply lookup_delete_eq.
  - right. by apply lookup_delete_ne.
Qed.

Lemma swept_other cutoff denied fs p q : q ≠ p → swept cutoff denied fs p !! q = fs !! q.
Proof.
  intros Hne. unfold swept. destruct (removable cutoff denied fs p); [|done].
  by apply lookup_delete_ne.
Qed.

Lemma filter_ext_in {A} (P Q : A → Prop) `{∀ x, Decision (P x)} `{∀ x, Decision (Q x)}
    (l : list A) :
  Forall (λ x, P x ↔ Q x) l → filter P l = filter Q l.
Proof.
  induction l as [|a l IH]; [done|]. intros Hall. apply Forall_cons in Hall as [Ha Hall].
  rewrite !filter_cons. rewrite (IH Hall).
  destruct (decide (P a)), (decide (Q a)); tauto.
Qed.

Lemma removable_lookup cutoff denied fs fs' p :
  fs' !! p = fs !! p → removable cutoff denied fs' p = removable cutoff denied fs p.
Proof. unfold removable. by intros ->. Qed.

Lemma cleanup_each_spec cutoff files s :
  Forall (λ p, p ≠ []) files →
  ∃ n w',
    cleanup_each cutoff files s
    = (Return n, with_tracker (Tracker.with_env w' (migration_tracker s)) s)
    ∧ w_denied w' = w_denied (world_of s)
    ∧ (∀ q, w_fs w' !! q = None ∨ w_fs w' !! q = w_fs (world_of s) !! q)
    ∧ (∀ q, q ∉ files → w_fs w' !! q = w_fs (world_of s) !! q)
    ∧ (∀ q, removable cutoff (w_denied (world_of s)) (w_fs (world_of s)) q = false →
            w_fs w' !! q = w_fs (world_of s) !! q)
    ∧ (∀ p, p ∈ files →
            removable cutoff (w_denied (world_of s)) (w_fs (world_of s)) p = true →
            w_fs w' !! p = None)
    ∧ (NoDup files →
       n = length (filter (λ p, removable cutoff (w_denied (world_of s))
                                          (w_fs (world_of s)) p = true) files)).
Proof.
  revert s. induction files as [|a files IH]; intros s Hall.
  { exists 0, (world_of s). simpl. unfold ret. split.
    - by destruct s as [[? ? ? ? ?] ? ?].
    - split; [done|]. split; [by right|]. split; [done|]. split; [done|].
      split; [|done]. intros p Hp. by apply elem_of_nil in Hp. }
  apply Forall_cons in Hall as [Ha Hall].
  destruct (cleanup_one_spec cutoff a s Ha) as (w1 & Hone & Hfs1 & Hden1 & _).
  set (s1 := with_tracker (Tracker.with_env w1 (migration_tracker s)) s) in *.
  destruct (IH s1 Hall) as (n & w' & Hrest & Hden & Hsub & Hout & Hyoung & Hold & Hcount).
  assert (world_of s1 = w1) as Hw1 by (by destruct s as [[? ? ? ? ?] ? ?]).
  rewrite Hw1 in *. rewrite Hden1 in *.
  set (den := w_denied (world_of s)) in *. set (fs := w_fs (world_of s)) in *.
  eexists _, w'. cbn [cleanup_each]. unfold bind. rewrite Hone. fold s1. rewrite Hrest.
  unfold ret. split.
  { f_equal; by destruct s as [[? ? ? ? ?] ? ?]. }
  split; [done|]. split.
  { intros q. destruct (Hsub q) as [?|Heq]; [by left|]. rewrite Heq, Hfs1.
    apply swept_lookup. }
  split.
  { intros q Hq. apply not_elem_of_cons in Hq as [Hqa Hq].
    rewrite (Hout q Hq), Hfs1. by apply swept_other. }
  split.
  { intros q Hq.
    assert (w_fs w1 !! q = fs !! q) as Hsame.
    { rewrite Hfs1. unfold swept.
      destruct (removable cutoff den fs a) eqn:Hoa; [|done].
      apply lookup_delete_ne. intros ->. congruence. }
    rewrite <- Hsame. apply Hyoung. by rewrite (removable_lookup _ _ _ _ _ Hsame). }
  split.
  { intros p Hp Hpold.
    destruct (decide (p = a)) as [->|Hne].
    - destruct (Hsub a) as [?|Heq]; [done|]. rewrite Heq, Hfs1.
      unfold swept. rewrite Hpold. apply lookup_delete_eq.
    - apply elem_of_cons in Hp as [?|Hp]; [done|].
      apply (Hold p Hp).
      rewrite (removable_lookup _ _ fs); [done|]. rewrite Hfs1. by apply swept_other. }
  intros Hnd. apply NoDup_cons in Hnd as [Hna Hnd]. rewrite (Hcount Hnd).
  rewrite filter_cons.
  assert (filter (λ p, removable cutoff den (w_fs w1) p = true) files
          = filter (λ p, removable cutoff den fs p = true) files) as ->.
  { apply filter_ext_in. apply Forall_forall. intros p Hp.
    rewrite (removable_lookup _ _ fs); [done|]. rewrite Hfs1. apply swept_other.
    intros ->. done. }
  destruct (removable cutoff den fs a) eqn:Hra.
  - rewrite decide_True by done. done.
  - rewrite decide_False by done. done.
Qed.

Lemma basename_child p a : basename (child p a) = a.
Proof. unfold basename, child. by rewrite last_snoc. Qed.

Lemma glob_rollback_elem s p :
  p ∈ glob_rollback s ↔
  (parent p = work_dir s ∧ p ≠ [] ∧ matches_rollback (basename p) = true)
  ∧ is_Some (w_fs (world_of s) !! p).
Proof.
  unfold glob_rollback, world_of. rewrite list_elem_of_filter.
  rewrite list_elem_of_fmap. split.
  - intros [Hp ([q n] & -> & Hin)]. split; [done|].
    apply elem_of_map_to_list in Hin. simpl. eauto.
  - intros [Hp [n Hn]]. split; [done|]. exists (p, n). split; [done|].
    by apply elem_of_map_to_list.
Qed.

Lemma glob_rollback_NoDup s : NoDup (glob_rollback s).
Proof. unfold glob_rollback. apply NoDup_filter, NoDup_fst_map_to_list. Qed.

Lemma cleanup_old_rollback_points_spec days s :
  let cutoff := (clock (w_tick (world_of s)) - days * 86400 * 1000000)%Z in
  let gone p := removable cutoff (w_denied (world_of s)) (w_fs (world_of s)) p in
  ∃ n s',
    cleanup_old_rollback_points days s = (Return n, s')
    ∧ rollback_history s' = rollback_history s
    ∧ (∀ q, q ∉ glob_rollback s → w_fs (world_of s') !! q = w_fs (world_of s) !! q)
    ∧ (∀ q, gone q = false → w_fs (world_of s') !! q = w_fs (world_of s) !! q)
    ∧ (∀ p, p ∈ glob_rollback s → gone p = true → w_fs (world_of s') !! p = None)
    ∧ n = length (filter (λ p, gone p = true) (glob_rollback s)).
Proof.
  intros cutoff gone. unfold cleanup_old_rollback_points.
  unfold bind at 1. unfold io at 1, tracker, Tracker.io, zoom, now.
  set (s1 := with_tracker _ s).
  assert (w_fs (world_of s1) = w_fs (world_of s)) as Hfs
    by (by destruct s as [[? ? ? ? ?] ? ?]).
  assert (w_denied (world_of s1) = w_denied (world_of s)) as Hdn
    by (by destruct s as [[? ? ? ? ?] ? ?]).
  assert (glob_rollback s1 = glob_rollback s) as Hglob
    by (by destruct s as [[? ? ? ? ?] ? ?]).
  unfold bind at 1, gets at 1. rewrite Hglob.
  destruct (cleanup_each_spec cutoff (glob_rollback s) s1)
    as (n & w' & Hrun & _ & _ & Hout & Hyoung & Hold & Hcount).
  { apply Forall_forall. intros p Hp. apply glob_rollback_elem in Hp. tauto. }
  replace (Tracker.env (migration_tracker s)) with (world_of s) by done.
  fold cutoff. rewrite Hrun. eexists _, _. split; [reflexivity|].
  rewrite Hfs, Hdn in *. fold gone in Hyoung, Hold, Hcount.
  destruct s as [[w h wd ms cur] rwd hist]. unfold world_of in *. simpl in *.
  split; [done|]. split; [exact Hout|]. split; [exact Hyoung|]. split; [exact Hold|].
  apply Hcount, (glob_rollback_NoDup (Mk (Tracker.Mk w h wd ms cur) rwd hist)).
Qed.

End RollbackFacts.

(** ** Claims about the tracker *)

Section TrackerClaims.
Context `{PyLib}.
Import Tracker.

(** C6, as the code has it.  [start_transaction] never fails: whether or
    not a transaction is in progress it returns the id made of the time
    of the call, to the second, and the first eight digits of the MD5 of
    the description, and makes the empty [in_progress] transaction of
    that id the tracker's one current transaction, dropping the previous
    one; the migration log and the records are untouched, no file but
    the transaction log changes, and when that file can be written the
    empty transaction is in it at once.  The id is not made unique in
    any other way ([start_transaction_same_second_same_id]). *)
Theorem start_transaction_replaces (description : string) (s : t) :
  ∃ s', start_transaction description s
          = (Return (Txn.id (started_transaction description s)), s')
    ∧ Txn.id (started_transaction description s)
      = strftime "%Y%m%d_%H%M%S_" (clock (w_tick (env s)))
        +:+ String.substring 0 8 (md5_hex description)
    ∧ current_transaction s' = Some (started_transaction description s)
    ∧ migrations s' = migrations s
    ∧ heap s' = heap s
    ∧ (∀ q, q ≠ transaction_log_path s → node_at q (env s') = node_at q (env s))
    ∧ (can_write (transaction_log_path s) (env s) = true →
       ∃ mode mtime,
         w_fs (env s') !! transaction_log_path s
         = Some (NFile (File (Json (DTransaction
                     (Txn.set_operations [] (started_transaction description s))))
                   mode mtime))).
Proof.
  unfold start_transaction.
  eexists. split.
  { unfold bind at 1. unfold io at 1, zoom, now; simpl.
    unfold bind at 1. unfold io at 1, zoom, now_iso, now, bind, ret; simpl.
    unfold modify; simpl. rewrite _save_transaction_spec. reflexivity. }
  unfold saved_transaction; simpl. unfold txn_doc; simpl.
  destruct s as [[fs d tk tr] h wd ms cur]; simpl.
  rewrite (can_write_frame _ fs d _ tr tk tr).
  destruct (can_write _ _) eqn:Hw; simpl.
  - repeat split; try done.
    + intros q Hq. rewrite node_at_written_ne by done. by destruct q.
    + intros _. unfold transaction_log_path; simpl.
      destruct (written_lookup (child wd "transaction_log.json")
                  (Json (DTransaction (Txn.set_operations []
                     (started_transaction description
                        (Mk (World fs d tk tr) h wd ms cur)))))
                  (World fs d (S (S tk)) tr)) as [mode Hl].
      eauto.
  - repeat split; done.
Qed.

(** Two calls with one description whose clocks read the same second
    return the same id, whatever else differs between the trackers. *)
Lemma start_transaction_same_second_same_id (description : string) (s1 s2 : t) :
  strftime "%Y%m%d_%H%M%S_" (clock (w_tick (env s1)))
  = strftime "%Y%m%d_%H%M%S_" (clock (w_tick (env s2))) →
  (start_transaction description s1).1 = (start_transaction description s2).1.
Proof. intros Hsec. rewrite !start_transaction_id. by rewrite Hsec. Qed.

(** C4.  [commit_transaction] on an active transaction whose archive
    file can be written: the transaction is archived with status
    [partial_failure] exactly when some member record is not [success],
    with [committed] otherwise, and no transaction is active afterwards.
    When every record is [success] or [failed], [partial_failure] means
    at least one record failed. *)
Theorem commit_transaction_status (s : t) (txn : Txn.t loc) (rs : list Rec.t) :
  current_transaction s = Some txn →
  mapM (heap s !!.) (Txn.operations txn) = Some rs →
  archive_ready s (Txn.id txn) = true →
  ∃ s' d mode mtime,
    commit_transaction s = (Return tt, s')
    ∧ current_transaction s' = None
    ∧ node_at (archive_path_of s (Txn.id txn)) (env s')
      = Some (NFile (File (Json (DTransaction d)) mode mtime))
    ∧ Txn.id d = Txn.id txn
    ∧ Txn.operations d = rs
    ∧ (Txn.status d = Tx_partial_failure
       ↔ ∃ op, op ∈ Txn.operations txn ∧ status_of (heap s) op ≠ Some St_success)
    ∧ (Txn.status d = Tx_committed
       ↔ ∀ op, op ∈ Txn.operations txn → status_of (heap s) op = Some St_success)
    ∧ (Forall (λ r, Rec.status r = St_success ∨ Rec.status r = St_failed) rs →
       (Txn.status d = Tx_partial_failure
        ↔ 0 < length (filter (λ r, Rec.status r = St_failed) rs))).
Proof.
  intros Hcur Hrs Hready.
  unfold commit_transaction, bind, gets. rewrite Hcur.
  unfold io at 1, zoom, now_iso, now, bind, ret; simpl.
  unfold modify at 1; simpl.
  rewrite _save_transaction_spec.
  set (ts := isoformat (clock (w_tick (env s)))).
  set (txn2 := match filter _ _ with [] => _ | _ => _ end).
  set (s1 := with_current (Some txn2) (with_env _ s)).
  assert (Txn.id txn2 = Txn.id txn ∧ Txn.operations txn2 = Txn.operations txn) as [Hid Hops].
  { unfold txn2. by destruct (filter _ _). }
  assert (txn_doc (heap s1) txn2 = Some (Txn.set_operations rs txn2)) as Hdoc.
  { unfold txn_doc. rewrite Hops. simpl. by rewrite Hrs. }
  pose proof (saved_transaction_frame s1) as (Hwd & Hh & Hm & Hc & Hden & Htk & Hfr).
  destruct (_archive_transaction_spec (saved_transaction s1) txn2 (Txn.set_operations rs txn2))
    as (w' & mode & mtime & Harch & Hfile).
  { by rewrite Hc. }
  { by rewrite Hh. }
  { rewrite Hid. rewrite (archive_ready_frame s1); [|done|done|done].
    rewrite <- Hready. unfold archive_ready, archive_dir, archive_path_of. simpl.
    unfold node_at. simpl. done. }
  rewrite Harch. unfold modify. simpl.
  eexists _, (Txn.set_operations rs txn2), mode, mtime.
  split; [reflexivity|]. split; [done|].
  split.
  { simpl. rewrite <- Hfile, Hid. unfold archive_path_of, archive_dir. by rewrite Hwd. }
  split; [done|]. split; [done|].
  assert (Txn.status txn2 = Tx_committed
          ↔ Forall (λ op, status_of (heap s) op = Some St_success) (Txn.operations txn)) as Hst.
  { rewrite <- filter_failed_nil. unfold txn2. destruct (filter _ _); simpl; split; done. }
  assert (Txn.status txn2 = Tx_committed ∨ Txn.status txn2 = Tx_partial_failure) as Htwo.
  { unfold txn2. destruct (filter _ _); simpl; auto. }
  simpl.
  split; [|split].
  - rewrite <- Exists_exists.
    split.
    + intros Hp. apply not_Forall_Exists; [apply _|]. intros Hall.
      apply Hst in Hall. congruence.
    + intros Hex. destruct Htwo as [Hcm|Hp]; [|done].
      apply Hst in Hcm. apply Exists_not_Forall in Hex. done.
  - rewrite Hst. rewrite Forall_forall. done.
  - intros Hterm. rewrite <- (some_failed_iff rs Hterm).
    rewrite <- (mapM_all_success _ _ _ Hrs), <- Hst.
    destruct Htwo as [Hcm|Hp]; rewrite ?Hcm, ?Hp; split; try done.
Qed.

(** C1, as the code has it.  A record is created [pending], and
    [complete_migration] with [success=True] leaves it [success] or
    [failed].  When the destination is a file at that moment, its hash
    is recorded as [dest_hash], and for [move], [copy] and [archive]
    with a known [source_hash] either the two hashes are equal and the
    status is [success], or the status is forced to [failed] with the
    error [Hash verification failed].  When there is no destination the
    reported success stands and no [dest_hash] is recorded. *)
Theorem complete_migration_integrity :
  (∀ source_path dest_path operation reason md s l s',
     track_migration source_path dest_path operation reason md s = (Return l, s') →
     ∃ r, heap s' !! l = Some r ∧ Rec.status r = St_pending ∧ Rec.dest_hash r = None)
  ∧ (∀ l error s r out s',
       heap s !! l = Some r →
       complete_migration l true error s = (out, s') →
       ∃ r', heap s' !! l = Some r'
         ∧ terminal (Rec.status r')
         ∧ Rec.operation r' = Rec.operation r
         ∧ Rec.source_hash r' = Rec.source_hash r
         ∧ Rec.dest_path r' = Rec.dest_path r
         ∧ (∀ p f, Rec.dest_path r = Some p → node_at p (env s) = Some (NFile f) →
              Rec.dest_hash r' = Some (sha256_hex (bytes_of (f_content f)))
              ∧ (hash_checked (Rec.operation r) = true →
                 truthy (Rec.source_hash r) = true →
                 if bool_decide (Rec.source_hash r = Rec.dest_hash r')
                 then Rec.status r' = St_success
                 else Rec.status r' = St_failed
                      ∧ Rec.error r' = Some "Hash verification failed"))
         ∧ ((∀ p, Rec.dest_path r = Some p → node_at p (env s) = None) →
            Rec.status r' = St_success ∧ Rec.dest_hash r' = Rec.dest_hash r)).
Proof.
  split.
  - intros * Hrun.
    destruct (track_migration_pending _ _ _ _ _ _ _ _ Hrun) as (r & Hl & _ & Hst & Hdh & _).
    eauto.
  - intros *. apply complete_migration_outcome.
Qed.

(** C10.  [rollback_transaction] with an id whose archive file does not
    exist, or with no id when no transaction is active, returns [False]
    and leaves the tracker, the records and the disk as they were. *)
Theorem rollback_transaction_nothing_to_roll_back
    (transaction_id : option string) (s : t) :
  (truthy transaction_id = true
   ∧ node_at (archive_path_of s (default "" transaction_id)) (env s) = None)
  ∨ (truthy transaction_id = false ∧ current_transaction s = None) →
  rollback_transaction transaction_id s = (Return false, s).
Proof.
  intros [[Hid Hfile]|[Hid Hcur]]; unfold rollback_transaction, bind; rewrite Hid.
  - unfold _load_transaction, bind, gets, io, zoom, path_exists, gets.
    rewrite Hfile. simpl. by destruct s.
  - unfold gets. rewrite Hcur. done.
Qed.

End TrackerClaims.

(** C6, as stated, fails: a second [start_transaction] on a tracker with
    a transaction in progress returns normally. *)
Lemma start_transaction_while_busy :
  Txn.status <$> Tracker.current_transaction Ex.busy = Some Tx_in_progress
  ∧ raised (Tracker.start_transaction (H := Toy.lib) "second" Ex.busy).1 = None
  ∧ Txn.id <$> Tracker.current_transaction
                 (Tracker.start_transaction (H := Toy.lib) "second" Ex.busy).2
    = Some "10md5:seco".
Proof. vm_compute. done. Qed.

(** C1, as stated, fails: the tracked move of [b.txt] is reported as
    done although [archive/b.txt] does not exist; the record ends up
    [success] without a [dest_hash]. *)
Lemma complete_migration_success_without_dest_hash :
  let run := Tracker.complete_migration (H := Toy.lib) 1 true None Ex.tracking in
  raised run.1 = None
  ∧ Rec.operation <$> Tracker.heap run.2 !! 1 = Some Op_move
  ∧ Rec.source_hash <$> Tracker.heap run.2 !! 1 = Some (Some "sha256:y")
  ∧ Rec.status <$> Tracker.heap run.2 !! 1 = Some St_success
  ∧ Rec.dest_hash <$> Tracker.heap run.2 !! 1 = Some None.
Proof. vm_compute. done. Qed.

Lemma complete_migration_integrity_witness :
  ∃ r', Tracker.heap (Tracker.complete_migration (H := Toy.lib) 0 true None Ex.idle).2 !! 0
        = Some r'
    ∧ Rec.status r' = St_success
    ∧ Rec.dest_hash r' = Some "sha256:x".
Proof.
  destruct (complete_migration_integrity (H := Toy.lib)) as [_ Hcomplete].
  destruct (Hcomplete 0 None Ex.idle Ex.moved
              (Tracker.complete_migration (H := Toy.lib) 0 true None Ex.idle).1
              (Tracker.complete_migration (H := Toy.lib) 0 true None Ex.idle).2)
    as (r' & Hl & _ & _ & _ & _ & Hfile & _).
  - reflexivity.
  - apply surjective_pairing.
  - destruct (Hfile ["archive"; "a.txt"] (File (Bytes "x") 33188 5000000))
      as [Hhash Hcheck]; [reflexivity|reflexivity|].
    exists r'. split; [exact Hl|]. split; [|exact Hhash].
    specialize (Hcheck eq_refl eq_refl). rewrite Hhash in Hcheck. exact Hcheck.
Defined.

(** C7 fails for the transaction log.  With [transaction_log.json]
    write-protected, [_save_transaction] returns normally and leaves
    everything as it was, and so does a [start_transaction]: the caller
    is not told that nothing was persisted.  The sibling
    [_save_migrations] raises again what it caught
    ([_save_migrations_propagates]). *)
Theorem save_transaction_failure_is_swallowed :
  can_write ["work"; "transaction_log.json"] (Tracker.env Ex.protected) = false
  ∧ Tracker._save_transaction (H := Toy.lib) Ex.protected = (Return tt, Ex.protected)
  ∧ raised (Tracker.start_transaction (H := Toy.lib) "next" Ex.protected).1 = None
  ∧ node_at ["work"; "transaction_log.json"]
      (Tracker.env (Tracker.start_transaction (H := Toy.lib) "next" Ex.protected).2) = None.
Proof. vm_compute. done. Qed.

(** The same failure on the migration log reaches the caller. *)
Lemma save_migrations_failure_reaches_caller :
  raised (Tracker.complete_migration (H := Toy.lib) 0 true None Ex.protected_log).1
  = Some (PermissionError "Permission denied: /work/migration_log.tmp").
Proof. vm_compute. done. Qed.

(** A source that does not exist is no error: the record is made with
    no hash, no modification time, no permissions and size 0. *)
Lemma track_migration_missing_source :
  let run := Tracker.track_migration (H := Toy.lib) ["gone.txt"] (Some ["archive"; "gone.txt"])
               Op_move "unused" None Ex.idle in
  run.1 = Return 1
  ∧ (λ r, (Rec.source_hash r, Rec.file_modified r, Rec.file_permissions r, Rec.file_size r))
      <$> Tracker.heap run.2 !! 1
    = Some (None, None, None, 0%N).
Proof. vm_compute. done. Qed.

(** C8 fails for the transaction log.  [_save_transaction] opens
    [transaction_log.json] itself for writing: between the earlier
    content and the new one the file on disk is empty.  The sibling
    [_save_migrations] and [_save_session] go through a temporary file
    ([_save_migrations_atomic], [_save_session_atomic]). *)
Theorem save_transaction_truncates_in_place :
  let s' := (Tracker._save_transaction (H := Toy.lib) Ex.logged).2 in
  content_at ["work"; "transaction_log.json"]
    <$> during (Tracker.env Ex.logged) (Tracker.env s')
  = [ Some (Json (DTransaction (Txn.set_operations [Ex.moved] Ex.open_txn)));
      Some (Bytes "");
      Some (Json (DTransaction Ex.earlier)) ].
Proof. vm_compute. done. Qed.

Lemma commit_transaction_status_witness :
  ∃ s' d mode mtime,
    Tracker.commit_transaction (H := Toy.lib) Ex.busy = (Return tt, s')
    ∧ Tracker.current_transaction s' = None
    ∧ node_at ["work"; "transactions"; "t0.json"] (Tracker.env s')
      = Some (NFile (File (Json (DTransaction d)) mode mtime))
    ∧ Txn.status d = Tx_committed.
Proof.
  destruct (commit_transaction_status (H := Toy.lib) Ex.busy Ex.open_txn [Ex.moved])
    as (s' & d & mode & mtime & Hrun & Hcur & Hfile & _ & _ & _ & Hcommitted & _).
  - reflexivity.
  - reflexivity.
  - vm_compute. reflexivity.
  - exists s', d, mode, mtime. repeat split; try assumption.
    apply Hcommitted. intros op Hop.
    apply list_elem_of_singleton in Hop. subst op. reflexivity.
Defined.

Lemma rollback_transaction_nothing_witness :
  Tracker.rollback_transaction (H := Toy.lib) (Some "missing") Ex.idle
    = (Return false, Ex.idle)
  ∧ Tracker.rollback_transaction (H := Toy.lib) None Ex.idle = (Return false, Ex.idle).
Proof.
  split; apply rollback_transaction_nothing_to_roll_back.
  - left. split; reflexivity.
  - right. split; reflexivity.
Defined.

(** ** Claims about the session manager *)

(** C5 fails on the code.  The lock in the work directory is two seconds
    old, so [_check_session_lock] reports a live lock; [_prompt_takeover]
    answers [True] without asking anyone, and [start_session] of the
    second process goes on: it resumes the session of the first and
    writes its own lock over the live one.  No call of [start_session]
    ends in the lock-conflict error ([start_session_never_refuses]). *)
Theorem start_session_takes_over_live_lock :
  let run := SessionManager.start_session (H := Toy.lib) "/test/project" None
               Ex.second_instance in
  (SessionManager._check_session_lock (H := Toy.lib) Ex.second_instance).1 = Return true
  ∧ run.1 = Return (Some (Session.set_resumed_at "11" Ex.interrupted))
  ∧ content_at ["work"; "session.lock"] (w_fs (SessionManager.env run.2))
    = Some (Json (DLock (Lock.Mk "s1" "12" 2))).
Proof. vm_compute. done. Qed.

(** ** Claims about the audit logger *)

Section AuditClaims.
Context `{PyLib}.
Import AuditLogger.

(** C9.  The entry [log_event] wrote, when checksums are on: it is the
    last line of the log, it was built from the arguments of the call,
    its [checksum] is the SHA-256 digest of the sorted-key JSON form of
    the entry without that field, and computing the checksum of the
    entry again gives the stored one.  If neither SHA-256 nor the JSON
    form maps two different inputs to one output, giving any other field
    a different value changes the computed checksum; changing the stored
    checksum itself leaves the computed one, which then differs from
    what is stored. *)
Theorem audit_checksum_detects_tampering event_type description details user severity
    (s s' : t) (lines : list entry) :
  Inj (=) (=) sha256_hex →
  Inj (=) (=) json_sorted →
  include_checksums (conf s) = true →
  log_event event_type description details user severity s = (Return tt, s') →
  content_at (current_log_file s') (w_fs (env s')) = Some (Json (DAudit lines)) →
  ∃ e c,
    last lines = Some e
    ∧ built_from event_type description details severity (delete "checksum" e)
    ∧ e !! "checksum" = Some (JStr c)
    ∧ c = sha256_hex (json_sorted (delete "checksum" e))
    ∧ _calculate_checksum e = c
    ∧ (∀ k v, k ≠ "checksum" → e !! k ≠ Some v →
         _calculate_checksum (<[k := v]> e) ≠ c)
    ∧ (∀ v, v ≠ JStr c →
         _calculate_checksum (<["checksum" := v]> e) = c
         ∧ <["checksum" := v]> e !! "checksum" ≠ Some (JStr c)).
Proof.
  intros Hsha Hjson Hconf Hrun Hfile.
  destruct (log_event_writes event_type description details user severity s Hconf)
    as (base & s2 & Hbuilt & Hlog).
  rewrite Hlog in Hrun.
  assert (base !! "checksum" = None) as Hnone.
  { destruct Hbuilt as (i & ts & ctx & ->). apply audit_entry_no_checksum. }
  set (c := _calculate_checksum base) in *.
  set (e := <["checksum" := JStr c]> base) in *.
  assert (delete "checksum" e = base) as Hdel.
  { unfold e. by rewrite delete_insert_eq, delete_id. }
  exists e, c. split; [by eapply _write_audit_entry_last|].
  split; [by rewrite Hdel|].
  split; [apply lookup_insert_eq|].
  assert (_calculate_checksum e = c) as Hsame.
  { unfold _calculate_checksum at 1. rewrite Hdel. unfold c, _calculate_checksum.
    by rewrite delete_id. }
  split; [by rewrite <- Hsame|]. split; [exact Hsame|]. split.
  - intros k v Hk Hv Heq.
    rewrite <- Hsame in Heq. unfold _calculate_checksum in Heq.
    apply Hsha, Hjson in Heq.
    apply Hv. rewrite <- (lookup_delete_ne e "checksum" k) by done.
    rewrite <- Heq. rewrite lookup_delete_ne by done. apply lookup_insert_eq.
  - intros v Hv. split.
    + unfold _calculate_checksum. rewrite delete_insert_eq.
      fold (_calculate_checksum e). exact Hsame.
    + rewrite lookup_insert_eq. congruence.
Qed.

End AuditClaims.


(** * Further properties *)

(** A run is its outcome and its final state. *)
Lemma run_eta {S A} (r : outcome A * S) (a : outcome A) : r.1 = a → r = (a, r.2).
Proof. intros <-. apply surjective_pairing. Qed.

(** ** Saving *)

Section SavingProperties.
Context `{PyLib}.

(** X1.  [_save_migrations] replaces the migration log in one step: in
    every state the disk goes through during the call, whether the call
    returns or raises, [migration_log.json] is either what it was before
    the call or the complete new list of records. *)
Theorem save_migrations_is_atomic (s s' : Tracker.t) (out : outcome unit)
    (fs : gmap path node) :
  Tracker._save_migrations s = (out, s') →
  fs ∈ during (Tracker.env s) (Tracker.env s') →
  fs !! Tracker.migration_log_path s
    = w_fs (Tracker.env s) !! Tracker.migration_log_path s
  ∨ ∃ rs mode mtime,
      mapM (Tracker.heap s !!.) (Tracker.migrations s) = Some rs
      ∧ fs !! Tracker.migration_log_path s
        = Some (NFile (File (Json (DMigrations rs)) mode mtime)).
Proof. intros Hrun Hfs. by eapply _save_migrations_atomic. Qed.

(** X2.  [_save_session] replaces the session file in one step: in every
    state the disk goes through during the call, [current_session.json]
    is either what it was before or the complete new session. *)
Theorem save_session_is_atomic (s s' : SessionManager.t) (out : outcome unit)
    (fs : gmap path node) :
  SessionManager._save_session s = (out, s') →
  fs ∈ during (SessionManager.env s) (SessionManager.env s') →
  fs !! SessionManager.session_file s
    = w_fs (SessionManager.env s) !! SessionManager.session_file s
  ∨ ∃ sess mode mtime,
      SessionManager.session s = Some sess
      ∧ fs !! SessionManager.session_file s
        = Some (NFile (File (Json (DSession sess)) mode mtime)).
Proof. intros Hrun Hfs. by eapply _save_session_atomic. Qed.

(** X3.  When the temporary file of the migration log cannot be written,
    [_save_migrations] raises, and nothing has changed: neither the
    tracker nor the disk. *)
Theorem save_migrations_failure_propagates (s : Tracker.t) (rs : list Rec.t) :
  mapM (Tracker.heap s !!.) (Tracker.migrations s) = Some rs →
  can_write (child (Tracker.work_dir s) "migration_log.tmp") (Tracker.env s) = false →
  ∃ e, Tracker._save_migrations s = (Raise e, s).
Proof. apply _save_migrations_propagates. Qed.

(** X4.  [_save_session] never raises: a session that cannot be written
    is logged and the caller goes on. *)
Theorem save_session_never_raises (s : SessionManager.t) :
  (SessionManager._save_session s).1 = Return tt.
Proof.
  unfold SessionManager._save_session, bind, gets.
  destruct (SessionManager.session s) as [sess|]; [|reflexivity].
  unfold try_except.
  match goal with |- (match ?m with _ => _ end).1 = _ => destruct m as [[[]|e] s1] end;
    reflexivity.
Qed.

End SavingProperties.

Lemma save_migrations_is_atomic_witness :
  let run := Tracker._save_migrations (H := Toy.lib) Ex.idle in
  w_fs (Tracker.env run.2) !! ["work"; "migration_log.json"]
    = w_fs (Tracker.env Ex.idle) !! ["work"; "migration_log.json"]
  ∨ ∃ rs mode mtime,
      mapM (Tracker.heap Ex.idle !!.) (Tracker.migrations Ex.idle) = Some rs
      ∧ w_fs (Tracker.env run.2) !! ["work"; "migration_log.json"]
        = Some (NFile (File (Json (DMigrations rs)) mode mtime)).
Proof.
  intros run.
  apply (save_migrations_is_atomic (H := Toy.lib) Ex.idle run.2 run.1).
  - apply surjective_pairing.
  - unfold during. constructor.
Defined.

Lemma save_session_is_atomic_witness :
  let run := SessionManager._save_session (H := Toy.lib) Ex.running in
  w_fs (SessionManager.env run.2) !! ["work"; "current_session.json"]
    = w_fs (SessionManager.env Ex.running) !! ["work"; "current_session.json"]
  ∨ ∃ sess mode mtime,
      SessionManager.session Ex.running = Some sess
      ∧ w_fs (SessionManager.env run.2) !! ["work"; "current_session.json"]
        = Some (NFile (File (Json (DSession sess)) mode mtime)).
Proof.
  intros run.
  apply (save_session_is_atomic (H := Toy.lib) Ex.running run.2 run.1).
  - apply surjective_pairing.
  - unfold during. constructor.
Defined.

Lemma save_migrations_failure_propagates_witness :
  ∃ e, Tracker._save_migrations (H := Toy.lib) Ex.protected_log
       = (Raise e, Ex.protected_log).
Proof.
  apply (save_migrations_failure_propagates (H := Toy.lib) Ex.protected_log [Ex.moved]).
  - reflexivity.
  - vm_compute. reflexivity.
Defined.

(** ** Rollback points *)

Section RollbackProperties.
Context `{PyLib}.
Import Rollback.

(** X5.  [rollback_to_point] with an id that has no rollback file
    returns [(False, ["Rollback point not found: <id>"])] and changes
    nothing: no transaction is started and nothing is written. *)
Theorem rollback_to_point_unknown (rollback_id : string) (verify : bool) (s : t) :
  node_at (rollback_file_of s rollback_id) (world_of s) = None →
  rollback_to_point rollback_id verify s
  = (Return (false, ["Rollback point not found: " +:+ rollback_id]), s).
Proof.
  intros Hnone. unfold rollback_to_point, bind, gets.
  rewrite io_run. unfold path_exists, gets. simpl. rewrite Hnone.
  rewrite bool_decide_eq_false_2 by (intros [? ?]; done). simpl.
  destruct s as [[w h wd ms cur] rwd hist]. reflexivity.
Qed.

(** X6.  A rollback point can be read back: when
    [create_rollback_point] returns an id, [_load_rollback_point] of
    that id gives the point with that id, the description given and
    status [active]; creating it touched neither the rollback history
    nor the migration log. *)
Theorem create_rollback_point_round_trip (description : string) (s s' : t)
    (rollback_id : string) :
  create_rollback_point description s = (Return rollback_id, s') →
  ∃ created_at project_state,
    _load_rollback_point rollback_id s'
    = (Return (Point.Mk rollback_id description created_at project_state "active"), s')
    ∧ rollback_history s' = rollback_history s
    ∧ Tracker.migrations (migration_tracker s') = Tracker.migrations (migration_tracker s).
Proof.
  intros Hrun. unfold create_rollback_point in Hrun.
  apply bind_Return_inv in Hrun as (t0 & s1 & H1 & Hrun).
  apply bind_Return_inv in Hrun as (created & s2 & H2 & Hrun).
  apply bind_Return_inv in Hrun as (state & s3 & H3 & Hrun).
  apply bind_Return_inv in Hrun as (file & s4 & H4 & Hrun).
  apply bind_Return_inv in Hrun as ([] & s5 & H5 & Hrun).
  unfold ret in Hrun. inversion Hrun; subst s5. clear Hrun.
  unfold gets in H4. inversion H4; subst file s4. clear H4.
  rewrite io_run in H1. rewrite io_run in H2. unfold _capture_project_state in H3. rewrite io_run in H3.
  inversion H1; subst t0 s1. clear H1.
  inversion H2; subst created s2. clear H2.
  inversion H3; subst state s3. clear H3.
  rewrite io_run in H5. unfold json_dump in H5.
  match type of H5 with
  | context [write_file ?p ?c ?w] => destruct (can_write p w) eqn:Hw
  end.
  2:{ match type of H5 with
      | context [write_file ?p ?c ?w] =>
          destruct (write_file_fail p c w Hw) as [e He]; rewrite He in H5
      end. inversion H5. }
  match type of H5 with
  | context [write_file ?p ?c ?w] => rewrite (write_file_ok p c w Hw) in H5
  end.
  simpl in H5. inversion H5; subst s'. clear H5.
  eexists _, _. split; [|split; reflexivity].
  unfold _load_rollback_point, bind, gets. rewrite io_run.
  unfold json_load, bind, read_file, world_of. simpl.
  unfold rollback_file_of. simpl. rewrite node_at_child.
  unfold written, put_file. simpl. rewrite lookup_insert_eq. simpl.
  destruct s as [[w h wd ms cur] rwd hist]. reflexivity.
Qed.

(** X7.  Once its rollback file holds a rollback point,
    [rollback_to_point] never raises: whatever fails while reversing,
    verifying, recording or committing, it returns a pair
    [(success, errors)], and [success] is true exactly when [errors] is
    empty. *)
Theorem rollback_to_point_reports (rollback_id : string) (verify : bool) (s : t)
    (f : file) (point : Point.t) :
  node_at (rollback_file_of s rollback_id) (world_of s) = Some (NFile f) →
  f_content f = Json (DPoint point) →
  ∃ ok errors s',
    rollback_to_point rollback_id verify s = (Return (ok, errors), s')
    ∧ (ok = true ↔ errors = []).
Proof.
  intros Hnode Hc. unfold rollback_to_point, bind at 1, gets at 1.
  unfold bind at 1. rewrite io_run. unfold path_exists at 1, gets at 1. simpl.
  rewrite Hnode. rewrite bool_decide_eq_true_2 by eauto. simpl.
  unfold bind at 1. rewrite io_run. unfold json_load at 1, bind at 1, read_file at 1.
  replace (world_of (with_tracker (Tracker.with_env (world_of s) (migration_tracker s)) s))
    with (world_of s) by (by destruct s as [[? ? ? ? ?] ? ?]).
  replace (rollback_file_of
             (with_tracker (Tracker.with_env (world_of s) (migration_tracker s)) s)
             rollback_id)
    with (rollback_file_of s rollback_id) by (by destruct s as [[? ? ? ? ?] ? ?]).
  rewrite Hnode. unfold ret at 1. simpl. rewrite Hc. simpl.
  unfold bind at 1. unfold ret at 1. simpl.
  unfold bind at 1.
  match goal with
  | |- context [tracker ?m ?s0] => destruct (tracker m s0) as [[tid|e] s1] eqn:Hstart
  end.
  2:{ exfalso. unfold tracker, zoom in Hstart.
      match type of Hstart with
      | context [Tracker.start_transaction ?d ?s0] =>
          destruct (start_transaction_returns d s0) as (tid & s2 & Hs)
      end.
      rewrite Hs in Hstart. inversion Hstart. }
  rewrite in_frame_run. unfold try_except.
  match goal with
  | |- context [bind ?m ?k (s1, [])] =>
      destruct (bind m k (s1, [])) as [[[ok errs]|e] f1] eqn:Hbody
  end.
  - simpl. eexists _, _, _. split; [reflexivity|].
    apply bind_Return_inv in Hbody as (? & ? & _ & Hbody).
    apply bind_Return_inv in Hbody as (? & ? & _ & Hbody).
    apply bind_Return_inv in Hbody as (? & ? & _ & Hbody).
    apply bind_Return_inv in Hbody as (? & ? & _ & Hbody).
    apply bind_Return_inv in Hbody as (? & ? & _ & Hbody).
    apply bind_Return_inv in Hbody as (? & ? & _ & Hbody).
    apply bind_Return_inv in Hbody as (errors & ? & _ & Hbody).
    unfold ret in Hbody. inversion Hbody; subst.
    rewrite bool_decide_eq_true. destruct errs; simpl; split; try done; lia.
  - simpl. unfold bind, errors_extend, modify, gets, ret. simpl.
    eexists _, _, _. split; [reflexivity|].
    split; [done|]. intros Heq. by apply app_eq_nil in Heq as [_ ?].
Qed.

(** X8.  The loop of [rollback_to_point] goes through all the
    migrations it is given, whatever becomes of each.  Wherever a
    migration stands in the list, the loop reaches it and runs
    [_reverse_migration] for it on the state the migrations before it
    left.  If that reversal returns, the loop goes on with the rest and
    [errors] is as it was; if it raises, one message that names the
    source path of the migration is added to [errors], and the loop goes
    on with the rest from the state the failed reversal left.  The whole
    loop returns, and [errors] gains at most one message per
    migration. *)
Theorem reversal_continues_past_failures (before after : list loc) (m : loc) (f : frame) :
  Forall (λ l, is_Some (frame_dicts f !! l)) (before ++ m :: after) →
  ∃ f1 f',
    for_each before reverse_or_report f = (Return tt, f1)
    ∧ for_each (before ++ m :: after) reverse_or_report f = (Return tt, f')
    ∧ f.2 `prefix_of` f1.2
    ∧ f1.2 `prefix_of` f'.2
    ∧ length f'.2 ≤ length f.2 + length (before ++ m :: after)
    ∧ (∀ s1, _reverse_migration m f1.1 = (Return tt, s1) →
         for_each after reverse_or_report (s1, f1.2) = (Return tt, f'))
    ∧ (∀ e s1, _reverse_migration m f1.1 = (Raise e, s1) →
         ∃ r detail,
           dicts_of s1 !! m = Some r
           ∧ for_each after reverse_or_report
               (s1, f1.2 ++ ["Failed to reverse migration: "
                             +:+ str_path (Rec.source_path r) +:+ " - " +:+ detail])
             = (Return tt, f')
           ∧ (f1.2 ++ ["Failed to reverse migration: "
                       +:+ str_path (Rec.source_path r) +:+ " - " +:+ detail])
             `prefix_of` f'.2).
Proof.
  intros Hall. apply Forall_app in Hall as [Hbefore Hrest].
  destruct (reversal_loop before f Hbefore) as (f1 & Hrun1 & Hpre1 & Hlen1 & Hkeep1).
  assert (Forall (λ l, is_Some (frame_dicts f1 !! l)) (m :: after)) as Hrest1.
  { eapply Forall_impl; [exact Hrest|]. intros l. apply Hkeep1. }
  apply Forall_cons in Hrest1 as [Hm Hafter].
  destruct (reverse_or_report_turn m f1 Hm) as (f2 & Hturn & Herr & Hkeep2).
  assert (Forall (λ l, is_Some (frame_dicts f2 !! l)) after) as Hafter2.
  { eapply Forall_impl; [exact Hafter|]. intros l. apply Hkeep2. }
  destruct (reversal_loop after f2 Hafter2) as (f' & Hrun2 & Hpre2 & Hlen2 & _).
  exists f1, f'. split; [exact Hrun1|]. split.
  { rewrite for_each_app. unfold bind. rewrite Hrun1. simpl. unfold bind.
    rewrite Hturn. exact Hrun2. }
  assert (f1.2 `prefix_of` f2.2) as Hpre12.
  { destruct Herr as [->|[msg ->]]; [done|]. by apply prefix_app_r. }
  split; [exact Hpre1|]. split; [by etrans|]. split.
  { rewrite length_app. simpl.
    destruct Herr as [Heq|[msg Heq]]; rewrite Heq in Hlen2;
      rewrite ?length_app in Hlen2; simpl in Hlen2; lia. }
  split.
  - intros s1 Hok. rewrite (reverse_or_report_returned m f1 s1 Hok) in Hturn.
    injection Hturn as <-. exact Hrun2.
  - intros e s1 Hfail.
    destruct (reverse_or_report_raised m f1 e s1 Hm Hfail) as (r & Hr & Hraised).
    rewrite Hraised in Hturn. injection Hturn as <-.
    exists r, (str_exn e). split; [exact Hr|]. split; [exact Hrun2|exact Hpre2].
Qed.


(** X25.  [cleanup_old_rollback_points] never raises: a file it cannot
    remove is kept and the failure is caught.  It removes exactly the
    files directly in the work directory whose name matches
    [rollback_*.json], that were last modified before the cutoff,
    [days_to_keep] days before now (times are in microseconds), and that
    may be removed; it returns their number.  Every other path of the
    disk, and the rollback history in memory, stay as they are. *)
Theorem cleanup_removes_the_old_matches (days_to_keep : Z) (s : t) :
  let cutoff := (clock (w_tick (world_of s)) - days_to_keep * 86400 * 1000000)%Z in
  let gone p := bool_decide (p ∈ glob_rollback s)
                && removable cutoff (w_denied (world_of s)) (w_fs (world_of s)) p in
  ∃ n s',
    cleanup_old_rollback_points days_to_keep s = (Return n, s')
    ∧ rollback_history s' = rollback_history s
    ∧ (∀ p, w_fs (world_of s') !! p = if gone p then None else w_fs (world_of s) !! p)
    ∧ n = length (filter (λ p, gone p = true) (glob_rollback s)).
Proof.
  intros cutoff gone.
  destruct (cleanup_old_rollback_points_spec days_to_keep s)
    as (n & s' & Hrun & Hhist & Hout & Hyoung & Hold & Hcount).
  exists n, s'. split; [exact Hrun|]. split; [exact Hhist|]. split.
  - intros p. unfold gone. case_bool_decide as Hin; simpl.
    + fold cutoff. destruct (removable _ _ _ p) eqn:Hp.
      * by apply Hold.
      * by apply Hyoung.
    + by apply Hout.
  - rewrite Hcount. f_equal. apply filter_ext_in. apply Forall_forall. intros p Hp.
    unfold gone. rewrite bool_decide_eq_true_2 by done. done.
Qed.

(** X26.  The name of the rollback history, [rollback_log.json], matches
    the pattern of the rollback points: [cleanup_old_rollback_points]
    removes the history file once it is older than the cutoff, and counts
    it among the rollback points cleaned.  Only when the file cannot be
    removed does it stay, the failure being caught. *)
Theorem cleanup_deletes_old_rollback_history (days_to_keep : Z) (s : t) (f : file) :
  node_at (rollback_log_path s) (world_of s) = Some (NFile f) →
  (f_mtime f < clock (w_tick (world_of s)) - days_to_keep * 86400 * 1000000)%Z →
  ∃ n s',
    cleanup_old_rollback_points days_to_keep s = (Return n, s')
    ∧ node_at (rollback_log_path s) (world_of s')
      = (if bool_decide (rollback_log_path s ∈ w_denied (world_of s))
         then Some (NFile f) else None)
    ∧ (rollback_log_path s ∉ w_denied (world_of s) → 0 < n).
Proof.
  intros Hnode Hold. unfold rollback_log_path in *. rewrite node_at_child in Hnode.
  destruct (cleanup_old_rollback_points_spec days_to_keep s)
    as (n & s' & Hrun & _ & _ & Hkept & Hgone & Hcount).
  assert (child (work_dir s) "rollback_log.json" ∈ glob_rollback s) as Hin.
  { apply glob_rollback_elem. split; [|by rewrite Hnode].
    rewrite parent_child, basename_child. split; [done|]. split; [|done].
    unfold child. by destruct (work_dir s). }
  exists n, s'. split; [exact Hrun|]. rewrite node_at_child.
  case_bool_decide as Hden.
  - split; [|done]. rewrite <- Hnode. apply Hkept.
    unfold removable. rewrite Hnode. rewrite (bool_decide_eq_false_2 (_ ∉ _)); [|by intros Hn].
    by rewrite andb_false_r.
  - assert (removable (clock (w_tick (world_of s)) - days_to_keep * 86400 * 1000000)
              (w_denied (world_of s)) (w_fs (world_of s))
              (child (work_dir s) "rollback_log.json") = true) as Hrem.
    { unfold removable. rewrite Hnode. rewrite !bool_decide_eq_true_2 by done. done. }
    split; [by apply Hgone|]. intros _. rewrite Hcount.
    assert (child (work_dir s) "rollback_log.json"
            ∈ filter (λ p, removable (clock (w_tick (world_of s))
                                      - days_to_keep * 86400 * 1000000)
                                     (w_denied (world_of s)) (w_fs (world_of s)) p = true)
                     (glob_rollback s)) as Hin'.
    { apply list_elem_of_filter. split; [exact Hrem|exact Hin]. }
    destruct (filter _ _); [by apply elem_of_nil in Hin'|simpl; lia].
Qed.

(** X27.  A deletion whose record has no [archive_path] is not undone
    and not reported: [_reverse_migration] returns at once, nothing
    changes, and the loop of [rollback_to_point] adds no error for
    it. *)
Theorem unarchived_delete_is_not_restored (m : loc) (r : Rec.t) (s : t) (errors : list string) :
  dicts_of s !! m = Some r →
  Rec.operation r = Op_delete →
  Rec.archive_path r = None →
  _reverse_migration m s = (Return tt, s)
  ∧ reverse_or_report m (s, errors) = (Return tt, (s, errors)).
Proof.
  intros Hr Hop Harch.
  assert (_reverse_migration m s = (Return tt, s)) as Hrev.
  { unfold _reverse_migration, bind, tracker, zoom, Tracker.deref.
    unfold dicts_of in Hr. rewrite Hr. unfold ret. cbn beta iota zeta.
    rewrite Hop, Harch. by destruct s as [[? ? ? ? ?] ? ?]. }
  split; [exact Hrev|].
  unfold reverse_or_report, try_except, self, zoom. cbn [fst snd]. by rewrite Hrev.
Qed.

(** X28.  The rollback history can be read back: when
    [_record_rollback] returns, one attempt with the id, the outcome and
    the errors given has been added at the end of the history, and
    [_load_rollback_history] reads that history from
    [rollback_log.json]. *)
Theorem record_rollback_round_trip (rollback_id : string) (success : bool)
    (errors : list string) (s s' : t) :
  _record_rollback rollback_id success errors s = (Return tt, s') →
  ∃ ts n,
    rollback_history s' = rollback_history s ++ [Attempt.Mk rollback_id ts success errors n]
    ∧ _load_rollback_history s' = (Return (rollback_history s'), s').
Proof.
  intros Hrun. unfold _record_rollback in Hrun.
  apply bind_Return_inv in Hrun as (ts & s1 & Hts & Hrun).
  rewrite io_run in Hts. unfold now_iso, bind, now, ret in Hts. cbn in Hts.
  injection Hts as <- <-.
  apply bind_Return_inv in Hrun as (point & s2 & Hpoint & Hrun).
  unfold _load_rollback_point in Hpoint.
  apply bind_Return_inv in Hpoint as (file & s3 & Hg & Hpoint).
  unfold gets in Hg. injection Hg as <- <-.
  apply bind_Return_inv in Hpoint as (d & s3 & Hload & Hpoint).
  rewrite io_run in Hload.
  destruct (json_load _ _) as [[d0|e] wl] eqn:Hjl; [|inversion Hload].
  assert (wl = world_of (with_tracker
             (Tracker.with_env
                {| w_fs := w_fs (world_of s); w_denied := w_denied (world_of s);
                   w_tick := S (w_tick (world_of s)); w_trace := w_trace (world_of s) |}
                (migration_tracker s)) s)) as Hwl.
  { unfold json_load, bind, read_file in Hjl.
    destruct (node_at _ _) as [[f|]|]; try (inversion Hjl; fail).
    unfold ret in Hjl. cbn in Hjl. destruct (f_content f); inversion Hjl; done. }
  injection Hload as <- <-.
  destruct d0; try (inversion Hpoint; fail).
  unfold ret in Hpoint. injection Hpoint as <- <-.
  apply bind_Return_inv in Hrun as (reversed & s4 & Hrev & Hrun).
  unfold _get_migrations_after, gets in Hrev. injection Hrev as <- <-.
  apply bind_Return_inv in Hrun as ([] & s5 & Hmod & Hrun).
  unfold modify in Hmod. injection Hmod as <-.
  unfold _save_rollback_history in Hrun.
  apply bind_Return_inv in Hrun as (lp & s6 & Hg & Hrun).
  unfold gets in Hg. injection Hg as <- <-.
  apply bind_Return_inv in Hrun as (h & s6 & Hg & Hrun).
  unfold gets in Hg. injection Hg as <- <-.
  rewrite io_run in Hrun. unfold json_dump in Hrun.
  match type of Hrun with
  | context [write_file ?p ?c ?w0] => destruct (can_write p w0) eqn:Hw
  end.
  2:{ match type of Hrun with
      | context [write_file ?p ?c ?w0] =>
          destruct (write_file_fail p c w0 Hw) as [e He]; rewrite He in Hrun
      end. inversion Hrun. }
  match type of Hrun with
  | context [write_file ?p ?c ?w0] => rewrite (write_file_ok p c w0 Hw) in Hrun
  end.
  injection Hrun as <-. subst wl.
  destruct s as [[w hp wd ms cur] rwd hist].
  unfold world_of, with_tracker, with_history, Tracker.with_env, rollback_log_path in *.
  cbn [migration_tracker work_dir rollback_history Tracker.env Tracker.heap
       Tracker.work_dir Tracker.migrations Tracker.current_transaction] in *.
  eexists _, _. split; [reflexivity|].
  match goal with
  | |- context [written ?p ?c ?w0] => destruct (written_lookup p c w0) as [mode Hl]
  end.
  unfold _load_rollback_history, rollback_log_path, io, tracker, Tracker.io, zoom,
    path_exists, try_except, json_load, read_file, bind, gets, ret.
  cbn [migration_tracker work_dir rollback_history Tracker.env Tracker.heap
       Tracker.work_dir Tracker.migrations Tracker.current_transaction
       with_tracker Tracker.with_env].
  rewrite node_at_child, Hl. rewrite bool_decide_eq_true_2 by eauto.
  cbn [migration_tracker work_dir rollback_history Tracker.env Tracker.heap
       Tracker.work_dir Tracker.migrations Tracker.current_transaction
       with_tracker Tracker.with_env f_content].
  rewrite ?node_at_child, ?Hl. reflexivity.
Qed.

End RollbackProperties.

Lemma rollback_to_point_unknown_witness :
  Rollback.rollback_to_point (H := Toy.lib) "nowhere" true Ex.manager
  = (Return (false, ["Rollback point not found: nowhere"]), Ex.manager).
Proof.
  apply (rollback_to_point_unknown (H := Toy.lib) "nowhere" true Ex.manager).
  reflexivity.
Defined.

Lemma create_rollback_point_round_trip_witness :
  let after := (Rollback.create_rollback_point (H := Toy.lib) "Before changes"
                  Ex.manager).2 in
  ∃ created_at project_state,
    Rollback._load_rollback_point "10" after
    = (Return (Point.Mk "10" "Before changes" created_at project_state "active"), after).
Proof.
  intros after.
  destruct (create_rollback_point_round_trip (H := Toy.lib) "Before changes" Ex.manager
              after "10") as (created_at & project_state & Hload & _).
  - apply run_eta. vm_compute. reflexivity.
  - exists created_at, project_state. exact Hload.
Defined.

Lemma rollback_to_point_reports_witness :
  let after := (Rollback.create_rollback_point (H := Toy.lib) "Before changes"
                  Ex.manager).2 in
  ∃ ok errors s',
    Rollback.rollback_to_point (H := Toy.lib) "10" true after = (Return (ok, errors), s')
    ∧ (ok = true ↔ errors = []).
Proof.
  intros after.
  apply (rollback_to_point_reports (H := Toy.lib) "10" true after
           (File (Json (DPoint (Point.Mk "10" "Before changes" "11" "12" "active")))
                 33188 13000000)
           (Point.Mk "10" "Before changes" "11" "12" "active")).
  - vm_compute. reflexivity.
  - reflexivity.
Defined.




Lemma unarchived_delete_is_not_restored_witness :
  Rollback.reverse_or_report (H := Toy.lib) 0 (Ex.after_delete, [])
  = (Return tt, (Ex.after_delete, [])).
Proof.
  destruct (unarchived_delete_is_not_restored (H := Toy.lib) 0 Ex.deleted Ex.after_delete [])
    as [_ Hturn].
  - reflexivity.
  - reflexivity.
  - reflexivity.
  - exact Hturn.
Defined.

Lemma record_rollback_round_trip_witness :
  let after := (Rollback.create_rollback_point (H := Toy.lib) "Before changes"
                  Ex.manager).2 in
  let run := Rollback._record_rollback (H := Toy.lib) "10" true [] after in
  Rollback._load_rollback_history run.2 = (Return (Rollback.rollback_history run.2), run.2).
Proof.
  intros after run.
  destruct (record_rollback_round_trip (H := Toy.lib) "10" true [] after run.2)
    as (ts & n & _ & Hload).
  - apply run_eta. vm_compute. reflexivity.
  - exact Hload.
Defined.

Lemma reversal_continues_past_failures_witness :
  ∃ f', for_each [0; 1] (Rollback.reverse_or_report (H := Toy.lib)) (Ex.half_gone, [])
        = (Return tt, f')
    ∧ ∃ detail, ["Failed to reverse migration: " +:+ str_path ["a.txt"] +:+ " - " +:+ detail]
                `prefix_of` f'.2.
Proof.
  destruct (reversal_continues_past_failures (H := Toy.lib) [] [1] 0 (Ex.half_gone, []))
    as (f1 & f' & Hbefore & Hrun & _ & _ & _ & _ & Hfail).
  - repeat constructor; eexists; reflexivity.
  - exists f'. split; [exact Hrun|].
    injection Hbefore as <-.
    destruct (Hfail (FileNotFoundError
                       ("Destination file not found for rollback: "
                        +:+ str_path ["archive"; "a.txt"]))
                    Ex.half_gone) as (r & detail & Hr & _ & Hpre).
    + vm_compute. reflexivity.
    + injection Hr as <-. exists detail. exact Hpre.
Defined.


Lemma cleanup_removes_the_old_matches_witness :
  ∃ s',
    Rollback.cleanup_old_rollback_points (H := Toy.lib) 0 Ex.protected_history = (Return 1, s')
    ∧ w_fs (world_of s') !! ["work"; "rollback_1_rollback.json"] = None
    ∧ w_fs (world_of s') !! ["work"; "rollback_log.json"]
      = Some (NFile (File (Json (DHistory [])) 33188 1000000)).
Proof.
  pose proof (cleanup_removes_the_old_matches (H := Toy.lib) 0 Ex.protected_history) as Hx.
  cbv zeta in Hx. destruct Hx as (n & s' & Hrun & _ & Hfs & Hn).
  exists s'. split; [|split].
  - rewrite Hrun, Hn. vm_compute. reflexivity.
  - rewrite Hfs. vm_compute. reflexivity.
  - rewrite Hfs. vm_compute. reflexivity.
Defined.

Lemma cleanup_deletes_old_rollback_history_witness :
  ∃ n s',
    Rollback.cleanup_old_rollback_points (H := Toy.lib) 0 Ex.old_history = (Return n, s')
    ∧ node_at ["work"; "rollback_log.json"] (world_of s') = None
    ∧ 0 < n.
Proof.
  destruct (cleanup_deletes_old_rollback_history (H := Toy.lib) 0 Ex.old_history
              (File (Json (DHistory [])) 33188 1000000))
    as (n & s' & Hrun & Hnode & Hn).
  - reflexivity.
  - vm_compute. reflexivity.
  - exists n, s'. split; [exact Hrun|]. split; [exact Hnode|].
    apply Hn. apply not_elem_of_empty.
Defined.

(** ** The audit log *)

Section AuditProperties.
Context `{PyLib}.
Import AuditLogger.

(** X9.  A write that rotates the log comes back only when the log file
    of the new day is another file than the old one and was there
    before the call.  Otherwise [_rotate_log_file] goes on to write the
    header of the new file through [_write_audit_entry], which waits for
    the lock its caller holds: a log that grew over the size limit is
    moved to the archive and no entry is written after that. *)
Theorem rotation_needs_existing_log (e : entry) (s s' : t) (name : string) :
  lock_held s = false →
  current_log_file s = child (audit_dir s) name →
  is_dir (node_at (current_log_file s) (env s)) = false →
  (_should_rotate_log s).1 = Return true →
  _write_audit_entry e s = (Return tt, s') →
  current_log_file s' ≠ current_log_file s
  ∧ is_Some (node_at (current_log_file s') (env s)).
Proof.
  intros Hlock Hp Hfile Hrot.
  unfold _write_audit_entry, _write_audit_entry_with at 1, with_lock. rewrite Hlock.
  match goal with
  | |- context [bind ?m ?k (with_lock_held true s)] =>
      destruct (bind m k (with_lock_held true s)) as [r s1] eqn:Hbody
  end.
  intros [= -> <-].
  apply bind_Return_inv in Hbody as (rotate & s2 & Hshould & Hbody).
  pose proof (_should_rotate_log_lock true s) as Hsame.
  rewrite Hshould, Hrot in Hsame. simpl in Hsame. injection Hsame as ->.
  apply _should_rotate_log_frame in Hshould as (Hfs & Hcur & Hdir & Hl). simpl in *.
  apply bind_Return_inv in Hbody as ([] & s3 & Hrotate & Hbody).
  apply bind_Return_inv in Hbody as (p & s3' & Hg & Hbody).
  unfold gets in Hg. injection Hg as <- <-.
  unfold io, zoom in Hbody.
  destruct (append_line (current_log_file s3) e (env s3)) as [r' w'] eqn:Happ.
  injection Hbody as -> <-. simpl.
  destruct (_rotate_log_file_blocked (λ _, raise Deadlock) s2 s3 name Hl) as [Hne Hsome].
  - by rewrite Hcur, Hdir.
  - rewrite Hcur. by rewrite (node_at_fs _ _ (env s)).
  - exact Hrotate.
  - rewrite Hcur in Hne. split; [done|].
    by rewrite <- (node_at_fs _ (env s2) (env s)).
Qed.

(** X29.  The audit log is only appended to: when no rotation is due,
    a write that returns leaves the lines the log had, in their order,
    with the new entry after them; no other file is touched and the
    current log stays the same file. *)
Theorem write_audit_entry_appends (e : entry) (s s' : t) (lines : list entry) :
  lock_held s = false →
  (_should_rotate_log s).1 = Return false →
  content_at (current_log_file s) (w_fs (env s)) = Some (Json (DAudit lines)) →
  _write_audit_entry e s = (Return tt, s') →
  content_at (current_log_file s) (w_fs (env s')) = Some (Json (DAudit (lines ++ [e])))
  ∧ current_log_file s' = current_log_file s
  ∧ ∀ q, q ≠ current_log_file s → w_fs (env s') !! q = w_fs (env s) !! q.
Proof.
  intros Hlock Hrot Hc.
  unfold _write_audit_entry, _write_audit_entry_with at 1, with_lock. rewrite Hlock.
  match goal with
  | |- context [bind ?m ?k (with_lock_held true s)] =>
      destruct (bind m k (with_lock_held true s)) as [r s1] eqn:Hbody
  end.
  intros [= -> <-].
  apply bind_Return_inv in Hbody as (rotate & s2 & Hshould & Hbody).
  pose proof (_should_rotate_log_lock true s) as Hsame.
  rewrite Hshould, Hrot in Hsame. simpl in Hsame. injection Hsame as ->.
  apply _should_rotate_log_frame in Hshould as (Hfs & Hcur & Hdir & Hl).
  apply bind_Return_inv in Hbody as ([] & s3 & Hnone & Hbody).
  unfold ret in Hnone. injection Hnone as <-.
  apply bind_Return_inv in Hbody as (p & s3' & Hg & Hbody).
  unfold gets in Hg. injection Hg as <- <-.
  unfold io, zoom in Hbody.
  destruct (append_line (current_log_file s2) e (env s2)) as [r' w'] eqn:Happ.
  injection Hbody as -> <-.
  unfold append_line in Happ.
  apply bind_Return_inv in Happ as ([] & w1 & Hchk & Happ).
  pose proof (check_writable_state (current_log_file s2) (env s2)) as Hs.
  rewrite Hchk in Hs. simpl in Hs. subst w1.
  unfold bind, gets, commit_fs, modify in Happ. injection Happ as <-.
  simpl in Hcur. rewrite Hcur in *. simpl in Hfs. rewrite Hfs.
  destruct s2 as [w2 dir2 p2 l2 c2 pid2 cwd2 en2 pv2 si2]. simpl in *. subst p2.
  split; [|split; [done|]].
  - unfold content_at in *. rewrite lookup_insert_eq.
    destruct (w_fs (env s) !! current_log_file s) as [[[c mode mt]|]|]; try done.
    simpl in Hc. injection Hc as ->. done.
  - intros q Hq. by rewrite lookup_insert_ne.
Qed.

End AuditProperties.

Lemma rotation_needs_existing_log_witness :
  let run := AuditLogger._write_audit_entry (H := Toy.lib) {[ "type" := JStr "note" ]}
               Ex.stale_audit in
  AuditLogger.current_log_file run.2 ≠ AuditLogger.current_log_file Ex.stale_audit
  ∧ is_Some (node_at (AuditLogger.current_log_file run.2) (AuditLogger.env Ex.stale_audit)).
Proof.
  intros run.
  apply (rotation_needs_existing_log (H := Toy.lib) {[ "type" := JStr "note" ]}
           Ex.stale_audit run.2 "audit_9.jsonl").
  - reflexivity.
  - reflexivity.
  - reflexivity.
  - vm_compute. reflexivity.
  - apply run_eta. vm_compute. reflexivity.
Defined.

Lemma write_audit_entry_appends_witness :
  let run := AuditLogger._write_audit_entry (H := Toy.lib) {[ "type" := JStr "note" ]}
               Ex.audit_now in
  content_at ["work"; "audit"; "audit_12.jsonl"] (w_fs (AuditLogger.env run.2))
  = Some (Json (DAudit ([ {[ "type" := JStr "audit_log_header" ]} ]
                        ++ [ {[ "type" := JStr "note" ]} ]))).
Proof.
  intros run.
  apply (write_audit_entry_appends (H := Toy.lib) {[ "type" := JStr "note" ]}
           Ex.audit_now run.2 [ {[ "type" := JStr "audit_log_header" ]} ]).
  - reflexivity.
  - vm_compute. reflexivity.
  - reflexivity.
  - apply run_eta. vm_compute. reflexivity.
Defined.

(** ** Tracking *)

Section TrackingProperties.
Context `{PyLib}.
Import Tracker.

(** X10.  When [track_migration] returns, it returns a new dict: a
    record with status [pending] and no destination hash, for the
    operation and the paths given, appended at the end of the master
    log.  A source that does not exist is no error: the record then has
    no source hash, no modification time, no permissions and size 0. *)
Theorem track_migration_records_pending (source_path : path) (dest_path : option path)
    (operation : op_kind) (reason : string) (md : option metadata) (s s' : t) (l : loc) :
  track_migration source_path dest_path operation reason md s = (Return l, s') →
  ∃ r, heap s' !! l = Some r
    ∧ heap s !! l = None
    ∧ Rec.status r = St_pending
    ∧ Rec.dest_hash r = None
    ∧ Rec.operation r = operation
    ∧ Rec.source_path r = source_path
    ∧ Rec.dest_path r = dest_path
    ∧ migrations s' = migrations s ++ [l]
    ∧ (node_at source_path (env s) = None →
       Rec.source_hash r = None ∧ Rec.file_modified r = None
       ∧ Rec.file_permissions r = None ∧ Rec.file_size r = 0%N).
Proof. apply track_migration_pending. Qed.

(** X14.  [verify_migration_integrity] only reads: the tracker, its
    dicts and the disk are afterwards what they were, whether it returns
    or raises.  Every issue it returns is about a record of the master
    log whose status is [success]. *)
Theorem verify_migration_integrity_only_reads (s s' : t) (out : outcome (list issue)) :
  verify_migration_integrity s = (out, s') →
  s' = s
  ∧ ∀ issues i, out = Return issues → i ∈ issues →
      issue_migration i ∈ migrations s
      ∧ status_of (heap s) (issue_migration i) = Some St_success.
Proof.
  intros Hrun. unfold verify_migration_integrity, bind, gets in Hrun.
  pose proof (ro_verify_each _ _ _ _ Hrun) as ->. split; [done|].
  intros issues i -> Hi.
  by destruct (verify_each_found _ _ _ _ Hrun) as [Hsound _]; apply Hsound.
Qed.

(** X15.  A record of the master log with status [success] and a
    destination hash, whose destination is no longer there, is reported
    as [missing_destination]. *)
Theorem verify_reports_missing_destination (s s' : t) (issues : list issue)
    (m : loc) (r : Rec.t) (d : path) :
  verify_migration_integrity s = (Return issues, s') →
  m ∈ migrations s →
  heap s !! m = Some r →
  Rec.status r = St_success →
  Rec.dest_path r = Some d →
  truthy (Rec.dest_hash r) = true →
  node_at d (env s) = None →
  Issue missing_destination m ("Destination file missing: " +:+ str_path d) ∈ issues.
Proof.
  intros Hrun Hm Hr Hst Hd Hh Hn. unfold verify_migration_integrity, bind, gets in Hrun.
  destruct (verify_each_found _ _ _ _ Hrun) as [_ Hcomplete].
  by destruct (Hcomplete m r d Hm Hr Hst Hd Hh) as [Hmiss _]; apply Hmiss.
Qed.

(** X16.  A record of the master log with status [success] whose
    destination file no longer has the hash recorded for it is reported
    as [hash_mismatch]. *)
Theorem verify_reports_changed_file (s s' : t) (issues : list issue)
    (m : loc) (r : Rec.t) (d : path) (f : file) :
  verify_migration_integrity s = (Return issues, s') →
  m ∈ migrations s →
  heap s !! m = Some r →
  Rec.status r = St_success →
  Rec.dest_path r = Some d →
  truthy (Rec.dest_hash r) = true →
  node_at d (env s) = Some (NFile f) →
  Some (sha256_hex (bytes_of (f_content f))) ≠ Rec.dest_hash r →
  Issue hash_mismatch m ("File hash changed: " +:+ str_path d) ∈ issues.
Proof.
  intros Hrun Hm Hr Hst Hd Hh Hn Hne. unfold verify_migration_integrity, bind, gets in Hrun.
  destruct (verify_each_found _ _ _ _ Hrun) as [_ Hcomplete].
  by destruct (Hcomplete m r d Hm Hr Hst Hd Hh) as [_ Hchg]; eapply Hchg.
Qed.

(** X22.  What [_save_migrations] wrote is what [_load_migrations]
    reads: after a save that returned, loading the log gives new dicts
    that hold, in the same order, the records the master log had when it
    was saved; the disk is not touched by the loading. *)
Theorem migration_log_round_trip (s s' : t) :
  _save_migrations s = (Return tt, s') →
  ∃ ls s'',
    _load_migrations s' = (Return ls, s'')
    ∧ mapM (heap s'' !!.) ls = mapM (heap s !!.) (migrations s)
    ∧ Forall (λ l, heap s' !! l = None) ls
    ∧ env s'' = env s'.
Proof.
  intros Hrun.
  apply _save_migrations_done in Hrun as (rs & w' & mode & mtime & Hmap & -> & Hlog).
  destruct s as [w h wd ms cur]. unfold with_env, migration_log_path in *.
  cbn [env heap work_dir migrations current_transaction] in *.
  destruct (alloc_all_spec rs (Mk w' h wd ms cur)) as (ls & h' & Halloc & Hsub & Hmap' & Hfresh).
  exists ls, (Mk w' h' wd ms cur).
  split; [|split; [by rewrite Hmap|split; [exact Hfresh|reflexivity]]].
  unfold _load_migrations, migration_log_path.
  unfold bind at 1, gets at 1. cbn [work_dir]. unfold bind at 1.
  unfold io at 1, zoom, path_exists, gets. cbn [env]. rewrite node_at_child, Hlog.
  rewrite bool_decide_eq_true_2 by eauto.
  unfold with_env. cbn [env heap work_dir migrations current_transaction].
  unfold try_except, bind at 1. unfold io at 1, zoom, json_load, bind, read_file.
  cbn [env]. rewrite node_at_child, Hlog. unfold ret at 1.
  unfold with_env. cbn [env heap work_dir migrations current_transaction f_content].
  unfold ret. cbn beta iota zeta. rewrite Halloc. reflexivity.
Qed.

(** X23.  A migration log that is not JSON is copied to
    [migration_log.backup], and [_load_migrations] returns the empty
    list: the tracker starts with no records while the unreadable log
    and its copy stay on disk. *)
Theorem corrupt_migration_log_is_backed_up (s : t) (f : file) (b : string) :
  node_at (migration_log_path s) (env s) = Some (NFile f) →
  f_content f = Bytes b →
  can_write (child (work_dir s) "migration_log.backup") (env s) = true →
  ∃ s', _load_migrations s = (Return [], s')
    ∧ heap s' = heap s
    ∧ node_at (child (work_dir s) "migration_log.backup") (env s') = Some (NFile f)
    ∧ node_at (migration_log_path s) (env s') = Some (NFile f).
Proof.
  intros Hnode Hc Hw. destruct s as [w h wd ms cur].
  unfold migration_log_path in *. cbn [env heap work_dir] in *.
  assert (is_dir (node_at (child wd "migration_log.backup") w) = false) as Hnd.
  { unfold can_write, check_writable in Hw.
    destruct (decide _); [done|].
    destruct (node_at (parent _) w) as [[?|]|]; try done.
    by destruct (is_dir _). }
  apply can_write_true in Hw.
  unfold _load_migrations, migration_log_path.
  unfold try_except, bind, io, zoom, path_exists, json_load, read_file, gets, shutil_copy2, bind.
  cbn [env heap work_dir with_env]. rewrite Hnode.
  rewrite bool_decide_eq_true_2 by eauto.
  unfold ret, raise. cbn [env heap work_dir with_env]. rewrite Hnode.
  cbn [env heap work_dir with_env]. rewrite Hc.
  cbn [env heap work_dir with_env]. rewrite Hnode, Hnd, Hw.
  unfold commit_fs, modify. cbn [env heap work_dir with_env].
  eexists. split; [reflexivity|]. unfold with_env. cbn [env heap w_fs]. split; [done|].
  rewrite !node_at_child. cbn [w_fs]. split; [apply lookup_insert_eq|].
  rewrite lookup_insert_ne.
  - by rewrite <- node_at_child.
  - intros Heq. apply child_inj in Heq as [_ ?]. done.
Qed.

(** X24.  The numbers of [get_migration_summary] add up: the total is
    the length of the master log, the counts of [by_operation] sum to
    the total with every operation listed once, and the successful,
    failed and pending records together are at most the total (the
    records rolled back are in none of the three).  Nothing is
    changed. *)
Theorem migration_summary_adds_up (s s' : t) (sm : summary) :
  get_migration_summary s = (Return sm, s') →
  s' = s
  ∧ total_migrations sm = length (migrations s)
  ∧ sum_list (snd <$> by_operation sm) = total_migrations sm
  ∧ NoDup (fst <$> by_operation sm)
  ∧ successful sm + failed sm + pending sm ≤ total_migrations sm.
Proof.
  unfold get_migration_summary, bind, gets. rewrite deref_all_spec.
  destruct (mapM (heap s !!.) (migrations s)) as [rs|] eqn:Hmap; [|intros [=]].
  unfold ret. intros [= <- <-]. simpl.
  assert (length (migrations s) = length rs) as Hlen by (by eapply length_mapM).
  destruct (by_operation_fold rs []) as [Hsum Hnd]. simpl in Hsum.
  split; [done|]. split; [done|]. split; [by rewrite Hsum|].
  split; [apply Hnd; constructor|].
  pose proof (status_counts rs). lia.
Qed.


End TrackingProperties.

Lemma track_migration_records_pending_witness :
  let run := Tracker.track_migration (H := Toy.lib) ["gone.txt"] (Some ["archive"; "gone.txt"])
               Op_move "unused" None Ex.idle in
  ∃ r, Tracker.heap run.2 !! 1 = Some r
    ∧ Rec.status r = St_pending
    ∧ Rec.source_hash r = None
    ∧ Tracker.migrations run.2 = [0; 1].
Proof.
  intros run.
  destruct (track_migration_records_pending (H := Toy.lib) ["gone.txt"]
              (Some ["archive"; "gone.txt"]) Op_move "unused" None Ex.idle run.2 1)
    as (r & Hr & _ & Hst & _ & _ & _ & _ & Hms & Hmissing).
  - apply run_eta. vm_compute. reflexivity.
  - exists r. split; [exact Hr|]. split; [exact Hst|]. split.
    + apply Hmissing. reflexivity.
    + exact Hms.
Defined.

Lemma verify_migration_integrity_only_reads_witness :
  let run := Tracker.verify_migration_integrity (H := Toy.lib) Ex.tampered in
  run.2 = Ex.tampered
  ∧ ∀ issues i, run.1 = Return issues → i ∈ issues →
      Tracker.issue_migration i ∈ Tracker.migrations Ex.tampered
      ∧ Tracker.status_of (Tracker.heap Ex.tampered) (Tracker.issue_migration i)
        = Some St_success.
Proof.
  intros run.
  apply (verify_migration_integrity_only_reads (H := Toy.lib) Ex.tampered run.2 run.1).
  apply surjective_pairing.
Defined.

Lemma verify_reports_missing_destination_witness :
  let run := Tracker.verify_migration_integrity (H := Toy.lib) Ex.reversed in
  ∃ issues, run.1 = Return issues
    ∧ Tracker.Issue Tracker.missing_destination 0
        ("Destination file missing: " +:+ str_path ["archive"; "a.txt"]) ∈ issues.
Proof.
  intros run. eexists. split; [vm_compute; reflexivity|].
  apply (verify_reports_missing_destination (H := Toy.lib) Ex.reversed run.2 _ 0 Ex.moved
           ["archive"; "a.txt"]).
  - apply run_eta. vm_compute. reflexivity.
  - apply elem_of_cons. left. reflexivity.
  - reflexivity.
  - reflexivity.
  - reflexivity.
  - reflexivity.
  - reflexivity.
Defined.

Lemma verify_reports_changed_file_witness :
  let run := Tracker.verify_migration_integrity (H := Toy.lib) Ex.tampered in
  ∃ issues, run.1 = Return issues
    ∧ Tracker.Issue Tracker.hash_mismatch 0
        ("File hash changed: " +:+ str_path ["archive"; "a.txt"]) ∈ issues.
Proof.
  intros run. eexists. split; [vm_compute; reflexivity|].
  apply (verify_reports_changed_file (H := Toy.lib) Ex.tampered run.2 _ 0 Ex.moved
           ["archive"; "a.txt"] (File (Bytes "y") 33188 6000000)).
  - apply run_eta. vm_compute. reflexivity.
  - apply elem_of_cons. left. reflexivity.
  - reflexivity.
  - reflexivity.
  - reflexivity.
  - reflexivity.
  - reflexivity.
  - simpl. intros [=].
Defined.

Lemma migration_log_round_trip_witness :
  let run := Tracker._save_migrations (H := Toy.lib) Ex.idle in
  ∃ ls s'',
    Tracker._load_migrations run.2 = (Return ls, s'')
    ∧ mapM (Tracker.heap s'' !!.) ls = Some [Ex.moved].
Proof.
  intros run.
  destruct (migration_log_round_trip (H := Toy.lib) Ex.idle run.2)
    as (ls & s'' & Hload & Hmap & _ & _).
  - apply run_eta. vm_compute. reflexivity.
  - exists ls, s''. split; [exact Hload|]. rewrite Hmap. reflexivity.
Defined.

Lemma corrupt_migration_log_is_backed_up_witness :
  ∃ s', Tracker._load_migrations Ex.corrupt_log = (Return [], s')
    ∧ Tracker.heap s' = Tracker.heap Ex.corrupt_log
    ∧ node_at ["work"; "migration_log.backup"] (Tracker.env s')
      = Some (NFile (File (Bytes "[{") 33188 4000000))
    ∧ node_at ["work"; "migration_log.json"] (Tracker.env s')
      = Some (NFile (File (Bytes "[{") 33188 4000000)).
Proof.
  apply (corrupt_migration_log_is_backed_up Ex.corrupt_log
           (File (Bytes "[{") 33188 4000000) "[{").
  - reflexivity.
  - reflexivity.
  - vm_compute. reflexivity.
Defined.

Lemma migration_summary_adds_up_witness :
  let run := Tracker.get_migration_summary Ex.tracking in
  ∃ sm, run.1 = Return sm
    ∧ sum_list (snd <$> Tracker.by_operation sm) = Tracker.total_migrations sm
    ∧ Tracker.successful sm + Tracker.failed sm + Tracker.pending sm
      ≤ Tracker.total_migrations sm.
Proof.
  intros run. exists (Tracker.Summary 2 1 0 1 [(Op_move, 2)] 1).
  split; [vm_compute; reflexivity|].
  destruct (migration_summary_adds_up Ex.tracking run.2
              (Tracker.Summary 2 1 0 1 [(Op_move, 2)] 1))
    as (_ & _ & Hsum & _ & Hle).
  - apply run_eta. vm_compute. reflexivity.
  - split; [exact Hsum|exact Hle].
Defined.


(** ** Sessions *)

Section SessionProperties.
Context `{PyLib}.
Import SessionManager.

(** X11.  A lock file that can be read tells its age:
    [_check_session_lock] reports a lock up to 300 seconds after the
    time written in it, and none once the lock is older. *)
Theorem session_lock_live_for_five_minutes (s : t) (f : file) (lock_data : Lock.t)
    (lock_time : Z) :
  node_at (session_lock_file s) (env s) = Some (NFile f) →
  f_content f = Json (DLock lock_data) →
  fromisoformat (Lock.timestamp lock_data) = Some lock_time →
  (_check_session_lock s).1
  = Return (bool_decide (clock (w_tick (env s)) - lock_time ≤ stale_after)%Z).
Proof.
  intros Hnode Hc Hts. by rewrite (_check_session_lock_age s f lock_data lock_time).
Qed.

(** X12.  A lock file that is not JSON counts as no lock:
    [_check_session_lock] returns [False] and leaves everything as it
    is. *)
Theorem corrupt_session_lock_is_ignored (s : t) (f : file) (b : string) :
  node_at (session_lock_file s) (env s) = Some (NFile f) →
  f_content f = Bytes b →
  _check_session_lock s = (Return false, s).
Proof.
  intros Hnode Hc. unfold _check_session_lock.
  unfold bind at 1, gets at 1. unfold bind at 1.
  unfold io at 1, zoom, path_exists, gets. rewrite Hnode.
  rewrite bool_decide_eq_true_2 by eauto. simpl.
  unfold try_except, bind at 1. unfold io at 1, zoom, json_load, bind, read_file.
  replace (env (with_env (env s) s)) with (env s) by (by destruct s).
  rewrite Hnode. unfold ret. simpl. rewrite Hc. simpl.
  by destruct s.
Qed.

(** X13.  [start_session] never ends in the error that reports another
    running instance: the answer of [_prompt_takeover] is always
    [True]. *)
Theorem start_session_never_raises_runtime_error (project_path : string)
    (resume_session_id : option string) (s : t) (msg : string) :
  (start_session project_path resume_session_id s).1 ≠ Raise (RuntimeError msg).
Proof.
  destruct (start_session project_path resume_session_id s) as [[v|e] s'] eqn:Hrun;
    simpl; [done|].
  intros [= ->].
  by eapply (start_session_never_refuses project_path resume_session_id s _ s' msg).
Qed.

(** X18.  A checkpoint can be read back: when [add_checkpoint] returns,
    the checkpoint with the name and data given is the last one of the
    session, [get_last_checkpoint] returns it, with no name and with its
    own name, and [checkpoint.json] holds it. *)
Theorem checkpoint_round_trip (name data : string) (s s' : t) :
  add_checkpoint name data s = (Return tt, s') →
  ∃ ts sess,
    let cp := Session.Checkpoint name ts data in
    session s = Some sess
    ∧ session s' = Some (append_checkpoint cp sess)
    ∧ get_last_checkpoint None s' = (Return (Some cp), s')
    ∧ get_last_checkpoint (Some name) s' = (Return (Some cp), s')
    ∧ content_at (checkpoint_file s) (w_fs (env s')) = Some (Json (DCheckpoint cp)).
Proof.
  intros Hrun. unfold add_checkpoint in Hrun.
  destruct s as [w wd pid0 cur0 act ci].
  apply bind_Return_inv in Hrun as (ts & s1 & Hts & Hrun).
  unfold io, zoom, now_iso, bind, now, ret in Hts. simpl in Hts. injection Hts as <- <-.
  apply bind_Return_inv in Hrun as (cur & s2 & Hcur & Hrun).
  unfold gets in Hcur. simpl in Hcur. injection Hcur as <- <-.
  destruct cur0 as [sess|]; [|inversion Hrun].
  apply bind_Return_inv in Hrun as ([] & s3 & Hmod & Hrun).
  unfold modify in Hmod. injection Hmod as <-.
  apply bind_Return_inv in Hrun as (p & s4 & Hp & Hrun).
  unfold gets in Hp. simpl in Hp. injection Hp as <- <-.
  apply bind_Return_inv in Hrun as ([] & s5 & Hdump & Hrun).
  unfold io, zoom, json_dump in Hdump. simpl in Hdump.
  match type of Hdump with
  | context [write_file ?p ?c ?w] => destruct (can_write p w) eqn:Hw
  end.
  2:{ match type of Hdump with
      | context [write_file ?p ?c ?w] =>
          destruct (write_file_fail p c w Hw) as [e He]; rewrite He in Hdump
      end. inversion Hdump. }
  match type of Hdump with
  | context [write_file ?p ?c ?w] => rewrite (write_file_ok p c w Hw) in Hdump
  end.
  injection Hdump as <-.
  apply _save_session_frame in Hrun as (Hs & Hwd & Hfs).
  unfold session_file, checkpoint_file, with_env, with_session in Hs, Hwd, Hfs.
  cbn [env work_dir session] in Hs, Hwd, Hfs.
  eexists _, sess. simpl. split; [done|]. split; [exact Hs|].
  assert (∀ nm, get_last_checkpoint nm s' =
                (Return (last (if truthy nm
                               then filter (λ cp, Session.cp_name cp = default "" nm)
                                      (Session.checkpoints sess ++
                                       [Session.Checkpoint name
                                          (isoformat (clock (w_tick w))) data])
                               else Session.checkpoints sess ++
                                    [Session.Checkpoint name
                                       (isoformat (clock (w_tick w))) data])), s'))
    as Hget.
  { intros nm. unfold get_last_checkpoint, bind, gets. rewrite Hs. simpl.
    rewrite bool_decide_eq_false_2; [done|].
    intros Heq. by apply app_eq_nil in Heq as [_ ?]. }
  split; [rewrite Hget; simpl; by rewrite last_snoc|]. split.
  - rewrite Hget. destruct (truthy (Some name)); [|by rewrite last_snoc].
    rewrite filter_app, filter_cons, filter_nil. simpl.
    rewrite decide_True by done. by rewrite last_snoc.
  - unfold content_at, checkpoint_file. simpl. rewrite Hfs.
    + match goal with
      | |- context [written ?p ?c ?w] => destruct (written_lookup p c w) as [mode Hl]
      end.
      by rewrite Hl.
    + intros Heq. apply child_inj in Heq as [_ ?]. done.
    + unfold session_file. simpl. intros Heq. apply child_inj in Heq as [_ ?]. done.
Qed.


(** X19.  [get_last_checkpoint] with a name returns the latest
    checkpoint of that name, and changes nothing: when the session has a
    checkpoint of that name, the result is one of the session's
    checkpoints, it has the name asked for, and no checkpoint after it
    has; the result is [None] only when no checkpoint has the name. *)
Theorem get_last_checkpoint_is_latest (name : string) (s : t) (sess : Session.t) :
  session s = Some sess →
  name ≠ "" →
  ∃ found,
    get_last_checkpoint (Some name) s = (Return found, s)
    ∧ match found with
      | Some cp =>
          ∃ before after,
            Session.checkpoints sess = before ++ cp :: after
            ∧ Session.cp_name cp = name
            ∧ Forall (λ later, Session.cp_name later ≠ name) after
      | None => Forall (λ cp, Session.cp_name cp ≠ name) (Session.checkpoints sess)
      end.
Proof.
  intros Hsess Hname. unfold get_last_checkpoint, bind, gets. rewrite Hsess.
  case_bool_decide as Hnil.
  { exists None. unfold ret. split; [done|]. rewrite Hnil. constructor. }
  simpl. rewrite bool_decide_eq_false_2 by done. simpl. unfold ret.
  eexists. split; [reflexivity|].
  destruct (last (filter _ (Session.checkpoints sess))) as [cp|] eqn:Hlast.
  - by apply last_filter_Some in Hlast.
  - apply last_None in Hlast. by apply filter_nil_Forall in Hlast.
Qed.

(** X20.  When [checkpoint.json] cannot be written, [add_checkpoint]
    raises with its work half done: the checkpoint is already in the
    session in memory, and nothing of it is on disk, neither in
    [checkpoint.json] nor in the session file. *)
Theorem add_checkpoint_failure_is_half_done (name data : string) (s : t) (sess : Session.t) :
  session s = Some sess →
  can_write (checkpoint_file s) (env s) = false →
  ∃ e s',
    add_checkpoint name data s = (Raise e, s')
    ∧ session s' = Some (append_checkpoint
                           (Session.Checkpoint name (isoformat (clock (w_tick (env s)))) data)
                           sess)
    ∧ w_fs (env s') = w_fs (env s).
Proof.
  intros Hsess Hw. destruct s as [[fs d tk tr] wd pid0 cur0 act ci]. simpl in *. subst cur0.
  unfold add_checkpoint, bind at 1. unfold io at 1, zoom, now_iso, bind, now, ret. simpl.
  unfold gets, modify. simpl. unfold io, zoom, json_dump. simpl.
  unfold checkpoint_file in *. simpl in *.
  match goal with
  | |- context [write_file ?p ?c ?w] =>
      destruct (write_file_fail p c w) as [e He]
  end.
  { by rewrite (can_write_frame _ fs d _ tr tk tr). }
  rewrite He. simpl. eexists _, _. split; [reflexivity|]. done.
Qed.

(** X21.  An archived session can be loaded again: once
    [_archive_session] has returned, the current session file is gone and
    [_load_session] with the id of the session returns that session,
    from the archive. *)
Theorem archived_session_can_be_loaded (sess : Session.t) (s s' : t) :
  _archive_session sess s = (Return tt, s') →
  _load_session (Session.id sess) s' = (Return sess, s')
  ∧ node_at (session_file s) (env s') = None.
Proof.
  intros Hrun. destruct s as [w wd pid0 cur0 act ci]. unfold _archive_session in Hrun.
  apply bind_Return_inv in Hrun as (dir & s1 & Hdir & Hrun).
  unfold gets in Hdir. injection Hdir as <- <-.
  apply bind_Return_inv in Hrun as ([] & s2 & Hmk & Hrun).
  unfold io, zoom in Hmk. cbn [env] in Hmk.
  destruct (mkdir _ w) as [r wm] eqn:Hmkdir. injection Hmk as -> <-.
  apply bind_Return_inv in Hrun as ([] & s3 & Hdump & Hrun).
  unfold io, zoom, json_dump, with_env in Hdump. cbn [env] in Hdump.
  match type of Hdump with
  | context [write_file ?p ?c ?w0] => destruct (can_write p w0) eqn:Hw
  end.
  2:{ match type of Hdump with
      | context [write_file ?p ?c ?w0] =>
          destruct (write_file_fail p c w0 Hw) as [e He]; rewrite He in Hdump
      end. inversion Hdump. }
  match type of Hdump with
  | context [write_file ?p ?c ?w0] => rewrite (write_file_ok p c w0 Hw) in Hdump
  end.
  injection Hdump as <-.
  apply bind_Return_inv in Hrun as (p & s4 & Hp & Hrun).
  unfold gets in Hp. injection Hp as <- <-.
  apply bind_Return_inv in Hrun as (found & s5 & Hfound & Hrun).
  unfold io, zoom, path_exists, gets in Hfound. injection Hfound as <- <-.
  unfold sessions_dir, session_file, with_env in *. cbn [env work_dir] in *.
  set (archive_file := child (child wd "sessions") (Session.id sess +:+ ".json")) in *.
  set (wa := written archive_file (Json (DSession sess)) wm) in *.
  assert (child wd "current_session.json" ≠ archive_file) as Hne.
  { intros Heq. apply (f_equal length) in Heq. unfold archive_file, child in Heq.
    rewrite !length_app in Heq. simpl in Heq. lia. }
  assert (w_fs (env s') !! child wd "current_session.json" = None
          ∧ (∃ mode mt, w_fs (env s') !! archive_file
                        = Some (NFile (File (Json (DSession sess)) mode mt)))
          ∧ ∃ w', s' = Mk w' wd pid0 cur0 act ci) as (Hgone & (mode & mt & Harch) & (w' & ->)).
  { destruct (written_lookup archive_file (Json (DSession sess)) wm) as [mode Hl].
    fold wa in Hl.
    rewrite node_at_child in Hrun.
    destruct (w_fs wa !! child wd "current_session.json") as [n|] eqn:Hcur.
    - rewrite bool_decide_eq_true_2 in Hrun by eauto.
      unfold io, zoom in Hrun. cbn [env] in Hrun.
      destruct (unlink _ wa) as [[[]|e] wu] eqn:Hun; [|inversion Hrun].
      injection Hrun as <-. apply unlink_gone in Hun. unfold with_env.
      cbn [env work_dir pid session is_active checkpoint_interval]. rewrite Hun.
      split; [apply lookup_delete_eq|]. split; [|eauto].
      rewrite lookup_delete_ne by done. eauto.
    - rewrite bool_decide_eq_false_2 in Hrun by (intros [? ?]; done).
      unfold ret in Hrun. injection Hrun as <-. unfold with_env.
      cbn [env work_dir pid session is_active checkpoint_interval]. eauto 10. }
  cbn [env] in *.
  split; [|by rewrite node_at_child].
  subst wa archive_file.
  unfold _load_session, session_file, sessions_dir.
  unfold bind, gets, io, zoom, path_exists, gets, ret. cbn [env work_dir].
  rewrite node_at_child, Hgone.
  rewrite bool_decide_eq_false_2 by (intros [? ?]; done).
  cbn [env work_dir with_env]. rewrite node_at_child, Harch.
  rewrite bool_decide_eq_true_2 by eauto.
  unfold json_load, bind, read_file. cbn [env work_dir with_env].
  rewrite node_at_child, Harch. reflexivity.
Qed.

End SessionProperties.

Lemma session_lock_live_for_five_minutes_witness :
  (SessionManager._check_session_lock (H := Toy.lib) Ex.second_instance).1 = Return true.
Proof.
  apply (session_lock_live_for_five_minutes (H := Toy.lib) Ex.second_instance
           (File (Json (DLock (Lock.Mk "s1" "8" 1))) 33188 8000000)
           (Lock.Mk "s1" "8" 1) 8000000).
  - reflexivity.
  - reflexivity.
  - reflexivity.
Defined.

Lemma corrupt_session_lock_is_ignored_witness :
  SessionManager._check_session_lock (H := Toy.lib) Ex.garbled_lock
  = (Return false, Ex.garbled_lock).
Proof.
  apply (corrupt_session_lock_is_ignored (H := Toy.lib) Ex.garbled_lock
           (File (Bytes "{") 33188 8000000) "{").
  - reflexivity.
  - reflexivity.
Defined.

Lemma checkpoint_round_trip_witness :
  let run := SessionManager.add_checkpoint (H := Toy.lib) "scan" "{}" Ex.running in
  ∃ ts, SessionManager.get_last_checkpoint (Some "scan") run.2
        = (Return (Some (Session.Checkpoint "scan" ts "{}")), run.2).
Proof.
  intros run.
  destruct (checkpoint_round_trip (H := Toy.lib) "scan" "{}" Ex.running run.2)
    as (ts & sess & _ & _ & _ & Hget & _).
  - apply run_eta. vm_compute. reflexivity.
  - exists ts. exact Hget.
Defined.

Lemma get_last_checkpoint_is_latest_witness :
  ∃ found,
    SessionManager.get_last_checkpoint (Some "scan") Ex.scanning
    = (Return found, Ex.scanning)
    ∧ match found with
      | Some cp =>
          ∃ before after,
            Session.checkpoints Ex.two_scans = before ++ cp :: after
            ∧ Session.cp_name cp = "scan"
            ∧ Forall (λ later, Session.cp_name later ≠ "scan") after
      | None => Forall (λ cp, Session.cp_name cp ≠ "scan") (Session.checkpoints Ex.two_scans)
      end.
Proof.
  apply (get_last_checkpoint_is_latest "scan" Ex.scanning Ex.two_scans).
  - reflexivity.
  - intros [=].
Defined.

Lemma add_checkpoint_failure_is_half_done_witness :
  ∃ e s',
    SessionManager.add_checkpoint (H := Toy.lib) "scan" "{}" Ex.no_checkpoints = (Raise e, s')
    ∧ SessionManager.session s'
      = Some (SessionManager.append_checkpoint (Session.Checkpoint "scan" "10" "{}")
                                               Ex.interrupted)
    ∧ w_fs (SessionManager.env s') = w_fs (SessionManager.env Ex.no_checkpoints).
Proof.
  apply (add_checkpoint_failure_is_half_done (H := Toy.lib) "scan" "{}" Ex.no_checkpoints
           Ex.interrupted).
  - reflexivity.
  - vm_compute. reflexivity.
Defined.

Lemma archived_session_can_be_loaded_witness :
  let run := SessionManager._archive_session (H := Toy.lib) Ex.interrupted Ex.running in
  SessionManager._load_session "s1" run.2 = (Return Ex.interrupted, run.2).
Proof.
  intros run.
  destruct (archived_session_can_be_loaded (H := Toy.lib) Ex.interrupted Ex.running run.2)
    as [Hload _].
  - apply run_eta. vm_compute. reflexivity.
  - exact Hload.
Defined.
